(** * ci1d.datasetdefs: dataset containers and their summary statistics

    A shallow embedding of [ci1d/datasetdefs.py].  The module defines four
    dataset classes on top of numpy arrays:

    - [UnivariateDataset0D], [UnivariateDataset1D] (mean, std, range);
    - [BivariateDataset0D], [BivariateDataset1D] (covariance, its singular
      value decomposition and the sign convention of the principal axes).

    Modelling decisions.

    - numpy arrays are a shape together with a flat, row-major buffer, as
      numpy stores them.  The entries are exact rationals: rounding, nan and
      infinities of float64 are not represented, so divisions by a zero
      count (which numpy answers with nan and a warning) are outside the
      model and follow [Qdiv].
    - Python exceptions are results [Raise e], [e] being the name of the
      exception class.
    - The array handed to a constructor stays shared with the caller
      ([np.asarray] does not copy an array), and [y[:,frame,:]] is a view.
      Arrays therefore live in a store and a dataset holds a reference to
      its data; the decomposition cached in [_U], [_s], [_R] is private to
      the dataset and is kept by value.
    - LAPACK's decomposition routine and the square root are external
      numerical routines: they are parameters of the development.
    - The attributes [self.y], [self.J], [self.Q], ... are the fields
      [self_y], [self_J], [self_Q], ... of a record ([Q] being the type of
      the rationals); a method a class does not have raises
      [AttributeError]. *)

From Stdlib Require Import QArith Qminmax Qfield Lqa ZArith List Lia.
From stdpp Require Import base gmap strings.
Import ListNotations.

Local Open Scope Q_scope.

(** ** Exceptions *)

Definition exn := string.

Definition IndexError : exn := "IndexError"%string.
Definition ValueError : exn := "ValueError"%string.
Definition TypeError : exn := "TypeError"%string.
Definition AttributeError : exn := "AttributeError"%string.
Definition AxisError : exn := "AxisError"%string.
Definition LinAlgError : exn := "LinAlgError"%string.

Inductive result (A : Type) : Type :=
| Ok (a : A)
| Raise (e : exn).
Arguments Ok {A} a.
Arguments Raise {A} e.

#[global] Instance result_ret : MRet result := fun A a => Ok a.

#[global] Instance result_bind : MBind result := fun A B k r =>
  match r with
  | Ok a => k a
  | Raise e => Raise e
  end.

Fixpoint rmap {A B} (f : A -> result B) (l : list A) : result (list B) :=
  match l with
  | [] => Ok []
  | a :: l' =>
      match f a with
      | Ok b => match rmap f l' with
                | Ok bs => Ok (b :: bs)
                | Raise e => Raise e
                end
      | Raise e => Raise e
      end
  end.

(** ** The numpy operations used by the module *)

Module np.

(** An [ndarray]: its shape and its elements in row-major order. *)
Record ndarray : Type := NdArray { shape : list nat; data : list Q }.

Definition ndim (a : ndarray) : nat := length (shape a).

Definition numel (sh : list nat) : nat := fold_right Nat.mul 1%nat sh.

(** Element [k] of the flat buffer. *)
Definition item (a : ndarray) (k : nat) : Q := nth k (data a) 0.

Definition wf (a : ndarray) : Prop := length (data a) = numel (shape a).

(** [a.shape[k]]; a tuple index out of range is an [IndexError]. *)
Definition shape_at (a : ndarray) (k : nat) : result nat :=
  match nth_error (shape a) k with
  | Some n => Ok n
  | None => Raise IndexError
  end.

Definition tab1 (n : nat) (f : nat -> Q) : ndarray :=
  NdArray [n] (map f (seq 0 n)).

Definition tab2 (m n : nat) (f : nat -> nat -> Q) : ndarray :=
  NdArray [m; n] (flat_map (fun i => map (f i) (seq 0 n)) (seq 0 m)).

(** [np.arange(n)] *)
Definition arange (n : nat) : ndarray :=
  tab1 n (fun k => inject_Z (Z.of_nat k)).

(** [a.copy()] builds a new array with the same contents; where the new
    array lives is decided by the store. *)
Definition copy (a : ndarray) : ndarray := NdArray (shape a) (data a).

Definition Qsum (l : list Q) : Q := fold_right Qplus 0 l.

Definition Qcount (n : nat) : Q := inject_Z (Z.of_nat n).

(** *** Reductions along axis 0 *)

(** The values met along axis 0 at offset [k] of the remaining axes. *)
Definition lane (a : ndarray) (k : nat) : list Q :=
  let B := numel (tl (shape a)) in
  map (fun j => item a (j * B + k)%nat) (seq 0 (hd 0%nat (shape a))).

Definition reduce0 (f : list Q -> Q) (a : ndarray) : ndarray :=
  NdArray (tl (shape a))
          (map (fun k => f (lane a k)) (seq 0 (numel (tl (shape a))))).

(** The mean of the values of a lane, in exact arithmetic.  numpy's
    float64 mean is a rounding of it, which can fall outside the interval
    of the values, and is nan for an empty lane, where this one is
    [0 / 0], 0 by [Qdiv].  The statements below say which sum is divided
    by which count, or compare two means computed in the same way; none
    is about the size of a rounded mean. *)
Definition mean1 (l : list Q) : Q := Qsum l / Qcount (length l).

(** [a.mean(axis=0)] *)
Definition mean (a : ndarray) : result ndarray :=
  match shape a with
  | [] => Raise AxisError
  | _ => Ok (reduce0 mean1 a)
  end.

Definition Qminl (l : list Q) : Q :=
  match l with
  | [] => 0
  | x :: l' => fold_left Qmin l' x
  end.

Definition Qmaxl (l : list Q) : Q :=
  match l with
  | [] => 0
  | x :: l' => fold_left Qmax l' x
  end.

(** [a.min(axis=0)] and [a.max(axis=0)]: minimum and maximum have no
    identity, so reducing an axis of length zero is a [ValueError],
    whatever the other axes are. *)
Definition extremum (f : list Q -> Q) (a : ndarray) : result ndarray :=
  match shape a with
  | [] => Raise AxisError
  | J :: rest =>
      if (J =? 0)%nat then Raise ValueError else Ok (reduce0 f a)
  end.

Definition min (a : ndarray) : result ndarray := extremum Qminl a.
Definition max (a : ndarray) : result ndarray := extremum Qmaxl a.

(** Sum of the squared deviations from the mean. *)
Definition sqdev (l : list Q) : Q :=
  let m := mean1 l in Qsum (map (fun x => (x - m) * (x - m)) l).

(** numpy's [_var]: the divisor is [max(N - ddof, 0)].  Where the divisor
    is zero numpy answers nan; the value here, 0 by [Qdiv], stands for
    nothing, and the statements about the values of [std] ask for two
    observations. *)
Definition var1 (ddof : Z) (l : list Q) : Q :=
  sqdev l / inject_Z (Z.max (Z.of_nat (length l) - ddof) 0).

Section Sqrt.
(** The square root applied element by element by [std]. *)
Variable sqrt : Q -> Q.

(** [a.std(axis=0, ddof=ddof)] *)
Definition std (a : ndarray) (ddof : Z) : result ndarray :=
  match shape a with
  | [] => Raise AxisError
  | _ => Ok (reduce0 (fun l => sqrt (var1 ddof l)) a)
  end.
End Sqrt.

(** *** Indexing *)

(** A Python index into an axis of length [n]: negative indices count
    from the end, anything outside [-n, n) is an [IndexError]. *)
Definition norm_index (n : nat) (k : Z) : result nat :=
  if (0 <=? k)%Z then
    if (k <? Z.of_nat n)%Z then Ok (Z.to_nat k) else Raise IndexError
  else
    if (- Z.of_nat n <=? k)%Z then Ok (Z.to_nat (k + Z.of_nat n))
    else Raise IndexError.

(** The sub-array at position [q] of axis 1, [q] already normalised; the
    indexing operations below call it on arrays of rank two or more. *)
Definition pick1 (a : ndarray) (q : nat) : ndarray :=
  match shape a with
  | d0 :: d1 :: rest =>
      let B := numel rest in
      NdArray (d0 :: rest)
              (flat_map (fun j => map (fun b => item a ((j * d1 + q) * B + b)%nat)
                                      (seq 0 B))
                        (seq 0 d0))
  | _ => a
  end.

(** The position on axis 1 that [a[:,k]] selects. *)
Definition index1 (a : ndarray) (k : Z) : result nat :=
  match shape a with
  | _ :: d1 :: _ => norm_index d1 k
  | _ => Raise IndexError
  end.

(** [a[:,k]] *)
Definition take1 (a : ndarray) (k : Z) : result ndarray :=
  q ← index1 a k; Ok (pick1 a q).

(** [a[:,k,:]]: three indices need an array of rank three or more. *)
Definition index1_3 (a : ndarray) (k : Z) : result nat :=
  if (ndim a <? 3)%nat then Raise IndexError else index1 a k.

Definition take1_3 (a : ndarray) (k : Z) : result ndarray :=
  q ← index1_3 a k; Ok (pick1 a q).

(** All the multi-indices of a shape, in row-major order. *)
Fixpoint indices (sh : list nat) : list (list nat) :=
  match sh with
  | [] => [[]]
  | n :: rest => flat_map (fun i => map (cons i) (indices rest)) (seq 0 n)
  end.

(** Row-major offset of a multi-index. *)
Fixpoint offset (sh ix : list nat) : nat :=
  match sh, ix with
  | _ :: rest, i :: ix' => (i * numel rest + offset rest ix')%nat
  | _, _ => 0%nat
  end.

(** [a.T]: the axes reversed. *)
Definition T (a : ndarray) : ndarray :=
  NdArray (rev (shape a))
          (map (fun ix => item a (offset (shape a) (rev ix)))
               (indices (rev (shape a)))).

(** [a.squeeze()]: axes of length one are dropped. *)
Definition squeeze (a : ndarray) : ndarray :=
  NdArray (List.filter (fun d => negb (d =? 1)%nat) (shape a)) (data a).

(** [np.array(l)] for a list of arrays of one shape: they are stacked
    along a new first axis; the empty list gives shape [(0,)]. *)
Definition array (l : list ndarray) : ndarray :=
  NdArray (length l :: match l with [] => [] | a :: _ => shape a end)
          (concat (map data l)).

Definition sub (off len : nat) (l : list Q) : list Q :=
  firstn len (skipn off l).

(** The sub-array at position [i] of axis 0. *)
Definition pick0 (a : ndarray) (i : nat) : ndarray :=
  let sh := tl (shape a) in
  NdArray sh (sub (i * numel sh) (numel sh) (data a)).

(** [a[k]] *)
Definition take0 (a : ndarray) (k : Z) : result ndarray :=
  match shape a with
  | [] => Raise IndexError
  | n :: _ => q ← norm_index n k; Ok (pick0 a q)
  end.

(** [for w in a]: the sub-arrays along axis 0; a 0-d array cannot be
    iterated. *)
Definition iter (a : ndarray) : result (list ndarray) :=
  match shape a with
  | [] => Raise TypeError
  | n :: _ => Ok (map (pick0 a) (seq 0 n))
  end.

(** [a *= c], as the new contents of [a]. *)
Definition imul (a : ndarray) (c : Q) : ndarray :=
  NdArray (shape a) (map (fun x => x * c) (data a)).

Definition Qdot (u v : list Q) : Q :=
  Qsum (map (fun p => fst p * snd p) (combine u v)).

(** [np.dot(a, b)] of two vectors; their lengths must agree.  The module
    only calls it on a column of a matrix and the list [[0,1]]. *)
Definition dot (a b : ndarray) : result Q :=
  match shape a, shape b with
  | [n], [m] =>
      if (n =? m)%nat then Ok (Qdot (data a) (data b)) else Raise ValueError
  | _, _ => Raise ValueError
  end.

(** *** Covariance *)

(** Row [r] of a matrix with [n] columns. *)
Definition row (X : ndarray) (n r : nat) : list Q :=
  map (fun j => item X (r * n + j)%nat) (seq 0 n).

Definition centre (l : list Q) : list Q :=
  let m := mean1 l in map (fun x => x - m) l.

(** [np.cov(m, bias=bias)], rows of [m] being the variables:
<<
    if m.ndim > 2: raise ValueError
    X = array(m, ndmin=2)
    if X.shape[0] == 0: return np.array([]).reshape(0, 0)
    ddof = 1 if bias == 0 else 0
    fact = X.shape[1] - ddof
    if fact <= 0: fact = 0.0
    X -= avg[:, None]
    c = dot(X, X.T)
    c *= np.true_divide(1, fact)
    return c.squeeze()
>>
    Where [fact] is zero (no observation, or one observation with
    [bias = 0]) numpy's entries are nan; the entries here, 0 by [Qdiv],
    stand for nothing, and the statements about the values of the
    entries ask for a positive [fact].  The entries are exact: numpy's
    are their roundings. *)
Definition cov (m : ndarray) (bias : Z) : result ndarray :=
  if (2 <? ndim m)%nat then Raise ValueError
  else
    let '(nvar, nobs) :=
      match shape m with
      | [] => (1%nat, 1%nat)
      | [n] => (1%nat, n)
      | v :: n :: _ => (v, n)
      end in
    if (nvar =? 0)%nat then Ok (NdArray [0%nat; 0%nat] [])
    else
      let ddof := if (bias =? 0)%Z then 1%Z else 0%Z in
      let fact := (Z.of_nat nobs - ddof)%Z in
      let fact := if (fact <=? 0)%Z then 0%Z else fact in
      let X := map (fun r => centre (row m nobs r)) (seq 0 nvar) in
      let c := tab2 nvar nvar
                 (fun a b => Qdot (nth a X []) (nth b X []) * (1 / inject_Z fact)) in
      Ok (squeeze c).

(** *** Singular value decomposition *)

(** LAPACK's routine behind [np.linalg.svd]: from a matrix it either
    fails to converge or yields the entries of [U], [s] and [R]. *)
Definition routine : Type :=
  ndarray -> option ((nat -> nat -> Q) * (nat -> Q) * (nat -> nat -> Q)).

Section Svd.
Variable gesdd : routine.

(** [np.linalg.svd(a)]: an array of rank below two is refused; for an
    [m x n] matrix, [U] is [m x m], [s] has [min(m,n)] entries and [R]
    is [n x n].  [np.cov] never returns an array of rank above two, so
    a stack of matrices does not reach this call. *)
Definition linalg_svd (a : ndarray) : result (ndarray * ndarray * ndarray) :=
  match shape a with
  | [m; n] =>
      match gesdd a with
      | Some (u, s, r) => Ok (tab2 m m u, tab1 (Nat.min m n) s, tab2 n n r)
      | None => Raise LinAlgError
      end
  | _ => Raise LinAlgError
  end.
End Svd.

End np.

Import np (ndarray, NdArray).

(** ** The store of arrays *)

Definition loc := positive.

(** A reference to an array: an array of the store, or the view
    [base[:,q,:]] of another reference. *)
Inductive aref : Type :=
| Whole (l : loc)
| Frame (base : aref) (q : nat).

Definition SystemError : exn := "SystemError"%string.

(** The contents seen through a reference.  Python has no reference to an
    array that does not exist; the model answers such a reference with
    [SystemError]. *)
Fixpoint load (σ : gmap loc ndarray) (r : aref) : result ndarray :=
  match r with
  | Whole l =>
      match σ !! l with
      | Some a => Ok a
      | None => Raise SystemError
      end
  | Frame base q =>
      match load σ base with
      | Ok a => Ok (np.pick1 a q)
      | Raise e => Raise e
      end
  end.

(** The array of the store a reference reads from. *)
Fixpoint owner (r : aref) : loc :=
  match r with
  | Whole l => l
  | Frame base _ => owner base
  end.

(** Computations that read and extend the store and may raise. *)
Definition M (A : Type) : Type := gmap loc ndarray -> result A * gmap loc ndarray.

#[global] Instance M_ret : MRet M := fun A a σ => (Ok a, σ).

#[global] Instance M_bind : MBind M := fun A B k m σ =>
  match m σ with
  | (Ok a, σ') => k a σ'
  | (Raise e, σ') => (Raise e, σ')
  end.

Definition lift {A} (r : result A) : M A := fun σ => (r, σ).

Definition read (r : aref) : M ndarray := fun σ => (load σ r, σ).

Definition alloc (a : ndarray) : M aref := fun σ =>
  let l := fresh (dom σ) in (Ok (Whole l), <[l := a]> σ).

(** [a.flat[k] = v]: the write a caller can perform on an array it holds.
    An index past the end of the buffer is an [IndexError] and writes
    nothing. *)
Definition setitem (l : loc) (k : nat) (v : Q) : M unit := fun σ =>
  match σ !! l with
  | Some a =>
      if (k <? length (np.data a))%nat then
        (Ok tt, <[l := NdArray (np.shape a) (<[k := v]> (np.data a))]> σ)
      else (Raise IndexError, σ)
  | None => (Raise SystemError, σ)
  end.

(** What a caller passes as [y]: a nested sequence, given by the array it
    converts to, or an array it already holds. *)
Inductive pyarg : Type :=
| PyList (a : ndarray)
| PyArray (r : aref).

(** [np.asarray(y)]: a sequence is converted into a new array, an array is
    returned as it is. *)
Definition asarray (y : pyarg) : M aref :=
  match y with
  | PyList a => alloc a
  | PyArray r => mret r
  end.

(** ** The dataset classes *)

Inductive cls : Type :=
| UnivariateDataset0D
| UnivariateDataset1D
| BivariateDataset0D
| BivariateDataset1D.

#[global] Instance cls_eq_dec : EqDecision cls.
Proof. solve_decision. Defined.

(** An instance: its class and its attributes.  [self_Q], [self_I] and the
    decomposition are [None] for the classes that never set them. *)
Record dataset : Type := Dataset {
  klass : cls;
  self_y : aref;
  self_J : nat;
  self_Q : option nat;
  self_I : option nat;
  self_U : option ndarray;
  self_s : option ndarray;
  self_R : option ndarray
}.

Definition is_bivariate (c : cls) : bool :=
  match c with
  | BivariateDataset0D | BivariateDataset1D => true
  | _ => false
  end.

(** The subclasses of [_Dataset1D]; [BivariateDataset1D] is not one. *)
Definition is_Dataset1D (c : cls) : bool :=
  match c with
  | UnivariateDataset1D => true
  | _ => false
  end.

(** Reading an attribute the instance does not have. *)
Definition attr {A} (o : option A) : result A :=
  match o with
  | Some a => Ok a
  | None => Raise AttributeError
  end.

(** [x < 0] on numbers. *)
Definition Qltb (x y : Q) : bool := negb (Qle_bool y x).

(** The list [[0,1]] of [_init_svd], as the array [np.dot] makes of it. *)
Definition e2 : ndarray := NdArray [2%nat] [0; 1].

(** [np.dot(U[:,0], [0,1])] *)
Definition major_dot (U : ndarray) : result Q :=
  c ← np.take1 U 0; np.dot c e2.

(** [a[i,j]] of a matrix. *)
Definition at2 (a : ndarray) (i j : nat) : Q :=
  np.item a (i * nth 1 (np.shape a) 0 + j)%nat.

(** The queries of a dataset and their answers. *)
Inductive query : Type :=
| Q_mean | Q_std | Q_range | Q_cov | Q_Maxis | Q_maxis
| Q_nobservations | Q_samplesize | Q_ncomponents
| Q_get_frame (frame : Z).

Inductive answer : Type :=
| A_array (a : ndarray)
| A_pair (lo hi : ndarray)
| A_int (n : nat)
| A_dataset (d : dataset).

Section Dataset.

Variable gesdd : np.routine.
Variable sqrt : Q -> Q.

(** *** _Dataset *)

(** [_Dataset.__init__], inherited by [UnivariateDataset0D]. *)
Definition Dataset_init (c : cls) (y : pyarg) : M dataset :=
  r ← asarray y;
  a ← read r;
  J ← lift (np.shape_at a 0);
  mret (Dataset c r J None None None None None).

Definition mean (self : dataset) : M ndarray :=
  a ← read (self_y self); lift (np.mean a).

Definition range (self : dataset) : M (ndarray * ndarray) :=
  a ← read (self_y self);
  lo ← lift (np.min a);
  hi ← lift (np.max a);
  mret (lo, hi).

Definition std (self : dataset) : M ndarray :=
  a ← read (self_y self); lift (np.std sqrt a 1).

Definition nobservations (self : dataset) : M nat := mret (self_J self).

Definition samplesize (self : dataset) : M nat := mret (self_J self).

(** *** _Dataset1D *)

(** [_getx] and [nnodes] are defined by [_Dataset1D], whose only
    subclass is [UnivariateDataset1D]. *)
Definition _getx {X : Type} (self : dataset) (x : option X) : M (ndarray + X) :=
  if is_Dataset1D (klass self) then
    match x with
    | None => Q ← lift (attr (self_Q self)); mret (inl (np.arange Q))
    | Some x => mret (inr x)
    end
  else lift (Raise AttributeError).

Definition nnodes (self : dataset) : M nat :=
  if is_Dataset1D (klass self) then lift (attr (self_Q self))
  else lift (Raise AttributeError).

(** *** UnivariateDataset1D *)

Definition UnivariateDataset1D_init (y : pyarg) : M dataset :=
  r ← asarray y;
  a ← read r;
  J ← lift (np.shape_at a 0);
  Q ← lift (np.shape_at a 1);
  mret (Dataset UnivariateDataset1D r J (Some Q) None None None None).

(** *** _BivariateDataset *)

(** [_BivariateDataset.get_cov] *)
Definition BivariateDataset_get_cov (self : dataset) (bias : Z) : M ndarray :=
  a ← read (self_y self); lift (np.cov (np.T a) bias).

(** [np.cov(self.y[:,i,:].T, bias=bias)], the body of the comprehension
    of [BivariateDataset1D.get_cov]. *)
Definition node_cov (a : ndarray) (bias : Z) (i : nat) : result ndarray :=
  f ← np.take1_3 a (Z.of_nat i); np.cov (np.T f) bias.

(** [BivariateDataset1D.get_cov] *)
Definition BivariateDataset1D_get_cov (self : dataset) (bias : Z) : M ndarray :=
  Q ← lift (attr (self_Q self));
  a ← read (self_y self);
  W ← lift (rmap (node_cov a bias) (seq 0 Q));
  mret (np.array W).

Definition get_cov (self : dataset) (bias : Z) : M ndarray :=
  match klass self with
  | BivariateDataset0D => BivariateDataset_get_cov self bias
  | BivariateDataset1D => BivariateDataset1D_get_cov self bias
  | _ => lift (Raise AttributeError)
  end.

(** [cov = property(get_cov)]: [bias] takes its default, 1. *)
Definition cov (self : dataset) : M ndarray := get_cov self 1.

(** The sign convention shared by both [_init_svd]:
<<
    if np.dot(U[:,0], [0,1]) < 0:
        U *= -1
        R *= -1
>> *)
Definition orient (usr : ndarray * ndarray * ndarray)
  : result (ndarray * ndarray * ndarray) :=
  let '(U, s, R) := usr in
  d ← major_dot U;
  if Qltb d 0 then Ok (np.imul U (-1), s, np.imul R (-1))
  else Ok (U, s, R).

(** [_BivariateDataset._init_svd] *)
Definition BivariateDataset_init_svd (self : dataset) : M dataset :=
  W ← cov self;
  usr ← lift (np.linalg_svd gesdd W);
  '(U, s, R) ← lift (orient usr);
  mret (Dataset (klass self) (self_y self) (self_J self) (self_Q self)
                (self_I self) (Some U) (Some s) (Some R)).

(** The body of the loop of [BivariateDataset1D._init_svd]. *)
Definition node_svd (w : ndarray) : result (ndarray * ndarray * ndarray) :=
  usr ← np.linalg_svd gesdd w; orient usr.

(** [BivariateDataset1D._init_svd] *)
Definition BivariateDataset1D_init_svd (self : dataset) : M dataset :=
  W ← get_cov self 1;
  ws ← lift (np.iter W);
  usrs ← lift (rmap node_svd ws);
  mret (Dataset (klass self) (self_y self) (self_J self) (self_Q self)
                (self_I self)
                (Some (np.array (map (fun t => fst (fst t)) usrs)))
                (Some (np.array (map (fun t => snd (fst t)) usrs)))
                (Some (np.array (map snd usrs)))).

Definition _init_svd (self : dataset) : M dataset :=
  match klass self with
  | BivariateDataset1D => BivariateDataset1D_init_svd self
  | BivariateDataset0D => BivariateDataset_init_svd self
  | _ => lift (Raise AttributeError)
  end.

(** [_BivariateDataset.__init__], inherited by [BivariateDataset0D]. *)
Definition BivariateDataset0D_init (y : pyarg) : M dataset :=
  r ← asarray y;
  a ← read r;
  J ← lift (np.shape_at a 0);
  I ← lift (np.shape_at a 1);
  _init_svd (Dataset BivariateDataset0D r J None (Some I) None None None).

(** [BivariateDataset1D.__init__] *)
Definition BivariateDataset1D_init (y : pyarg) : M dataset :=
  r ← asarray y;
  a ← read r;
  J ← lift (np.shape_at a 0);
  Q ← lift (np.shape_at a 1);
  I ← lift (np.shape_at a 2);
  _init_svd (Dataset BivariateDataset1D r J (Some Q) (Some I) None None None).

(** [self._U[:,k]]; subscripting the class default [None] is a
    [TypeError]. *)
Definition axis (self : dataset) (k : Z) : M ndarray :=
  if is_bivariate (klass self) then
    match self_U self with
    | Some U => lift (np.take1 U k)
    | None => lift (Raise TypeError)
    end
  else lift (Raise AttributeError).

Definition Maxis (self : dataset) : M ndarray := axis self 0.
Definition maxis (self : dataset) : M ndarray := axis self 1.

Definition ncomponents (self : dataset) : M nat :=
  if is_bivariate (klass self) then mret (self_J self)
  else lift (Raise AttributeError).

Definition toarray (self : dataset) : M aref :=
  if is_bivariate (klass self) then
    a ← read (self_y self); alloc (np.copy a)
  else lift (Raise AttributeError).

(** *** BivariateDataset1D *)

(** [get_frame]: the slice [self.y[:,frame,:]] is a view of [self.y]. *)
Definition get_frame (self : dataset) (frame : Z) : M dataset :=
  match klass self with
  | BivariateDataset1D =>
      a ← read (self_y self);
      q ← lift (np.index1_3 a frame);
      BivariateDataset0D_init (PyArray (Frame (self_y self) q))
  | _ => lift (Raise AttributeError)
  end.

(** *** The queries of a dataset, under one type *)

Definition ask (q : query) (self : dataset) : M answer :=
  match q with
  | Q_mean => a ← mean self; mret (A_array a)
  | Q_std => a ← std self; mret (A_array a)
  | Q_range => p ← range self; mret (A_pair (fst p) (snd p))
  | Q_cov => a ← cov self; mret (A_array a)
  | Q_Maxis => a ← Maxis self; mret (A_array a)
  | Q_maxis => a ← maxis self; mret (A_array a)
  | Q_nobservations => n ← nobservations self; mret (A_int n)
  | Q_samplesize => n ← samplesize self; mret (A_int n)
  | Q_ncomponents => n ← ncomponents self; mret (A_int n)
  | Q_get_frame frame => d ← get_frame self frame; mret (A_dataset d)
  end.

(** *** Datasets of a store *)

(** [self] is the dataset its class builds from the array that [self.y]
    refers to in [σ]: it has been constructed, and its backing array has
    not been written to since. *)
Definition sample (self : dataset) (σ : gmap loc ndarray) : Prop :=
  match klass self with
  | UnivariateDataset0D =>
      Dataset_init UnivariateDataset0D (PyArray (self_y self)) σ = (Ok self, σ)
  | UnivariateDataset1D =>
      UnivariateDataset1D_init (PyArray (self_y self)) σ = (Ok self, σ)
  | BivariateDataset0D =>
      BivariateDataset0D_init (PyArray (self_y self)) σ = (Ok self, σ)
  | BivariateDataset1D =>
      BivariateDataset1D_init (PyArray (self_y self)) σ = (Ok self, σ)
  end.

(** The constructor of class [c]. *)
Definition new (c : cls) (y : pyarg) : M dataset :=
  match c with
  | UnivariateDataset0D => Dataset_init UnivariateDataset0D y
  | UnivariateDataset1D => UnivariateDataset1D_init y
  | BivariateDataset0D => BivariateDataset0D_init y
  | BivariateDataset1D => BivariateDataset1D_init y
  end.

(** *** What the constructors compute from the contents of [y] *)

Definition build0D (r : aref) (a : ndarray) : result dataset :=
  J ← np.shape_at a 0;
  I ← np.shape_at a 1;
  W ← np.cov (np.T a) 1;
  usr ← np.linalg_svd gesdd W;
  '(U, s, R) ← orient usr;
  Ok (Dataset BivariateDataset0D r J None (Some I) (Some U) (Some s) (Some R)).

Definition build1D (r : aref) (a : ndarray) : result dataset :=
  J ← np.shape_at a 0;
  Q ← np.shape_at a 1;
  I ← np.shape_at a 2;
  covs ← rmap (node_cov a 1) (seq 0 Q);
  ws ← np.iter (np.array covs);
  usrs ← rmap node_svd ws;
  Ok (Dataset BivariateDataset1D r J (Some Q) (Some I)
              (Some (np.array (map (fun t => fst (fst t)) usrs)))
              (Some (np.array (map (fun t => snd (fst t)) usrs)))
              (Some (np.array (map snd usrs)))).

End Dataset.

(** ** The statements about a decomposition *)

Section Oriented.
Variable gesdd : np.routine.

(** [(U, s, R)] is the decomposition of [W] as the routine returns it,
    up to the sign convention: the major axis [U[:,0]] has a non-negative
    second component, and where the routine's had a negative one, all of
    [U] and all of [R] are the routine's, negated. *)
Definition oriented (W U s R : ndarray) : Prop :=
  exists U0 s0 R0,
    np.linalg_svd gesdd W = Ok (U0, s0, R0) /\ s = s0 /\
    (exists d, major_dot U = Ok d /\ d == at2 U 1 0 /\ 0 <= d) /\
    (exists d0, major_dot U0 = Ok d0 /\ d0 == at2 U0 1 0 /\
       (d0 < 0 -> U = np.imul U0 (-1) /\ R = np.imul R0 (-1)) /\
       (0 <= d0 -> U = U0 /\ R = R0)).
End Oriented.

(** ** Decompositions of 2 x 2 matrices *)

(** A sum over the two indices. *)
Definition sum2 (f : nat -> Q) : Q := f 0%nat + f 1%nat.

Definition delta (i j : nat) : Q := if (i =? j)%nat then 1 else 0.

(** What [np.linalg.svd] promises of [(U, s, R)] for the matrix [W]:
    [W = U diag(s) R], the columns of [U] and the rows of [R] are
    orthonormal, the singular values are non-negative and in descending
    order. *)
Definition is_svd (W U s R : ndarray) : Prop :=
  (forall i j, (i < 2)%nat -> (j < 2)%nat ->
     at2 W i j == sum2 (fun k => at2 U i k * np.item s k * at2 R k j)) /\
  (forall i j, (i < 2)%nat -> (j < 2)%nat ->
     sum2 (fun k => at2 U k i * at2 U k j) == delta i j) /\
  (forall i j, (i < 2)%nat -> (j < 2)%nat ->
     sum2 (fun k => at2 R i k * at2 R j k) == delta i j) /\
  np.item s 1 <= np.item s 0 /\ 0 <= np.item s 1.

Definition symmetric (W : ndarray) : Prop := at2 W 0 1 == at2 W 1 0.

(** Positive semi-definite: [x^T W x >= 0]. *)
Definition psd (W : ndarray) : Prop :=
  forall x : nat -> Q,
    0 <= sum2 (fun i => x i * sum2 (fun j => at2 W i j * x j)).

(** The singular values are eigenvalues of [W] in descending order, and
    column [k] of [U] is a unit eigenvector for the [k]-th of them. *)
Definition principal_axes (W U s : ndarray) : Prop :=
  np.item s 1 <= np.item s 0 /\ 0 <= np.item s 1 /\
  forall k, (k < 2)%nat ->
    (forall i, (i < 2)%nat ->
       sum2 (fun j => at2 W i j * at2 U j k) == np.item s k * at2 U i k) /\
    sum2 (fun i => at2 U i k * at2 U i k) == 1.

Section Contract.
Variable gesdd : np.routine.

(** The routine keeps the promise of [np.linalg.svd] on the matrix [W],
    exactly.  This asks for a decomposition with rational entries, which
    exists for the covariance of the worked example and for few others:
    the principal axes of a covariance are irrational in general, and
    LAPACK's float64 output is a decomposition up to rounding only.  It is
    a hypothesis of the statements that say what the sign convention
    keeps of an exact decomposition, never a property of the code. *)
Definition svd_contract (W : ndarray) : Prop :=
  forall U s R, np.linalg_svd gesdd W = Ok (U, s, R) -> is_svd W U s R.
End Contract.

(** ** Computations that only read *)

(** A computation is [stable] on a reference when it leaves the store as
    it is and its outcome depends on the store only through the contents
    of that reference. *)
Definition stable {A} (r : aref) (m : M A) : Prop :=
  forall σ, snd (m σ) = σ /\
    forall σ', load σ' r = load σ r -> fst (m σ') = fst (m σ).

(** ** Arguments of a constructor *)

(** The array a constructor argument stands for in a store. *)
Definition denotes (σ : gmap loc ndarray) (y : pyarg) (a : ndarray) : Prop :=
  match y with
  | PyList a' => a' = a
  | PyArray r => load σ r = Ok a
  end.

(** ** A worked example

    Four observations of two components, with the larger variance along
    the second component: the covariance is [[1,0],[0,4]].  The routine
    [gesdd_demo] answers with the decomposition of that matrix whose major
    axis is [(0,-1)], the orientation the sign convention corrects. *)

Definition y_demo : ndarray :=
  NdArray [4%nat; 2%nat] [1; 2; -1; 2; 1; -2; -1; -2].

(** The same observations at each of two nodes. *)
Definition y_demo1D : ndarray :=
  NdArray [4%nat; 2%nat; 2%nat]
          [1; 2; 1; 2; -1; 2; -1; 2; 1; -2; 1; -2; -1; -2; -1; -2].

Definition gesdd_demo : np.routine := fun _ =>
  Some (fun i j => nth (i * 2 + j) [0; 1; -1; 0] 0,
        fun k => nth k [4; 1] 0,
        fun i j => nth (i * 2 + j) [0; -1; 1; 0] 0).

Definition store_demo : gmap loc ndarray :=
  <[2%positive := y_demo1D]> (<[1%positive := y_demo]> ∅).

Definition demo0D : dataset :=
  Dataset BivariateDataset0D (Whole 1%positive) 4 None (Some 2%nat)
          (Some (NdArray [2%nat; 2%nat] [0; -1; 1; 0]))
          (Some (NdArray [2%nat] [4; 1]))
          (Some (NdArray [2%nat; 2%nat] [0; 1; -1; 0])).

Definition demo1D : dataset :=
  Dataset BivariateDataset1D (Whole 2%positive) 4 (Some 2%nat) (Some 2%nat)
          (Some (NdArray [2%nat; 2%nat; 2%nat] [0; -1; 1; 0; 0; -1; 1; 0]))
          (Some (NdArray [2%nat; 2%nat] [4; 1; 4; 1]))
          (Some (NdArray [2%nat; 2%nat; 2%nat] [0; 1; -1; 0; 0; 1; -1; 0])).

(** Two observations of three components, and three scalar observations:
    the shapes the bivariate and the functional constructors are not made
    for. *)
Definition y_3col : ndarray := NdArray [2%nat; 3%nat] [1; 2; 3; 4; 5; 6].
Definition y_1d : ndarray := NdArray [3%nat] [1; 2; 3].

(** Two functional observations over three nodes. *)
Definition y_fun : ndarray := NdArray [2%nat; 3%nat] [1; 2; 3; 4; 5; 6].

Definition store_fun : gmap loc ndarray := <[1%positive := y_fun]> ∅.

Definition demoU1D : dataset :=
  Dataset UnivariateDataset1D (Whole 1%positive) 2 (Some 3%nat) None
          None None None.

(** The first scenario of the specification, three observations of two
    perfectly correlated components. *)
Definition y_scenario : ndarray := NdArray [3%nat; 2%nat] [1; 2; 3; 4; 5; 6].

(** ** More examples *)

(** Two observations over an empty node axis, with three components. *)
Definition y_no_nodes : ndarray := NdArray [2%nat; 0%nat; 3%nat] [].

(** ** Covariance matrices *)


(** * Properties *)

(** ** The store *)

Lemma load_insert_other σ l a r :
  owner r ≠ l -> load (<[l := a]> σ) r = load σ r.
Proof.
  induction r as [l' | base IH q]; simpl; intros Hne.
  - by rewrite lookup_insert_ne.
  - by rewrite IH.
Qed.

Lemma load_owner σ r a : load σ r = Ok a -> is_Some (σ !! owner r).
Proof.
  revert a. induction r as [l | base IH q]; simpl; intros a.
  - destruct (σ !! l); [eauto | discriminate].
  - destruct (load σ base) eqn:E; [eauto | discriminate].
Qed.

Lemma fresh_not_owner σ r a : load σ r = Ok a -> owner r ≠ fresh (dom σ).
Proof.
  intros H%load_owner Heq. apply elem_of_dom in H.
  rewrite Heq in H. by apply is_fresh in H.
Qed.

Lemma stable_ret {A} r (a : A) : stable r (mret a).
Proof. by intros σ; split. Qed.

Lemma stable_lift {A} r (x : result A) : stable r (lift x).
Proof. by intros σ; split. Qed.

Lemma stable_read r : stable r (read r).
Proof. intros σ; split; [done |]. intros σ' Hl. unfold read; simpl. by rewrite Hl. Qed.

Lemma stable_bind {A B} r (m : M A) (k : A -> M B) :
  stable r m -> (forall a, stable r (k a)) -> stable r (m ≫= k).
Proof.
  intros Hm Hk σ. unfold mbind, M_bind.
  destruct (Hm σ) as [Hs Hf]. split.
  - destruct (m σ) as [[a | e] σ1] eqn:E; simpl in *; subst; [| done].
    apply Hk.
  - intros σ' Hl. specialize (Hf σ' Hl).
    destruct (Hm σ') as [Hs' _].
    destruct (m σ) as [[a | e] σ1] eqn:E, (m σ') as [[a' | e'] σ1'] eqn:E';
      simpl in *; subst; try congruence.
    injection Hf as ->. by apply Hk.
Qed.

Lemma stable_frame {A} r q (m : M A) : stable (Frame r q) m -> stable r m.
Proof.
  intros H σ. destruct (H σ) as [Hs Hf]. split; [done |].
  intros σ' Hl. apply Hf. simpl. by rewrite Hl.
Qed.

Ltac stable_tac :=
  repeat first
    [ apply stable_ret | apply stable_lift | apply stable_read
    | apply stable_bind; [| intros ?]
    | match goal with |- stable _ (match ?x with _ => _ end) => destruct x end
    | match goal with |- stable _ (if ?x then _ else _) => destruct x end
    | match goal with |- stable _ (let '(_, _) := ?x in _) => destruct x end ].


Lemma new_PyList gesdd c a σ :
  new gesdd c (PyList a) σ =
  new gesdd c (PyArray (Whole (fresh (dom σ)))) (<[fresh (dom σ) := a]> σ).
Proof. by destruct c. Qed.

Section DatasetFacts.
Variable gesdd : np.routine.
Variable sqrt : Q -> Q.

Lemma init0D_build r σ :
  BivariateDataset0D_init gesdd (PyArray r) σ =
  (load σ r ≫= build0D gesdd r, σ).
Proof.
  unfold BivariateDataset0D_init, build0D, _init_svd, BivariateDataset_init_svd,
    cov, get_cov, BivariateDataset_get_cov, asarray, read, lift.
  unfold mbind, mret, M_bind, M_ret, result_bind; simpl.
  destruct (load σ r) as [a | e]; simpl; [| done].
  destruct (np.shape_at a 0); simpl; [| done].
  destruct (np.shape_at a 1); simpl; [| done].
  destruct (np.cov (np.T a) 1); simpl; [| done].
  destruct (np.linalg_svd gesdd _); simpl; [| done].
  destruct (orient _) as [[[U s] R] | e]; simpl; done.
Qed.

Lemma init1D_build r σ :
  BivariateDataset1D_init gesdd (PyArray r) σ =
  (load σ r ≫= build1D gesdd r, σ).
Proof.
  unfold BivariateDataset1D_init, build1D, _init_svd, BivariateDataset1D_init_svd,
    get_cov, BivariateDataset1D_get_cov, asarray, read, lift, attr.
  unfold mbind, mret, M_bind, M_ret, result_bind; simpl.
  destruct (load σ r) as [a | e]; simpl; [| done].
  destruct (np.shape_at a 0); simpl; [| done].
  destruct (np.shape_at a 1); simpl; [| done].
  destruct (np.shape_at a 2); simpl; [| done].
  destruct (rmap _ _); simpl; [| done].
  destruct (rmap _ _); simpl; done.
Qed.

Lemma stable_get_cov self bias : stable (self_y self) (get_cov self bias).
Proof.
  unfold get_cov, BivariateDataset_get_cov, BivariateDataset1D_get_cov.
  stable_tac.
Qed.

Lemma stable_new c r : stable r (new gesdd c (PyArray r)).
Proof.
  destruct c; unfold new.
  - intros σ.
    unfold Dataset_init, UnivariateDataset1D_init, asarray, read, lift,
      mbind, mret, M_bind, M_ret; simpl. split.
    + destruct (load σ r); simpl; [| done].
      destruct (np.shape_at _ 0); simpl; done.
    + intros σ' Hl. rewrite Hl.
      destruct (load σ r); simpl; [| done].
      destruct (np.shape_at _ 0); simpl; done.
  - intros σ.
    unfold Dataset_init, UnivariateDataset1D_init, asarray, read, lift,
      mbind, mret, M_bind, M_ret; simpl. split.
    + destruct (load σ r); simpl; [| done].
      destruct (np.shape_at _ 0); simpl; [| done].
      destruct (np.shape_at _ 1); simpl; done.
    + intros σ' Hl. rewrite Hl.
      destruct (load σ r); simpl; [| done].
      destruct (np.shape_at _ 0); simpl; [| done].
      destruct (np.shape_at _ 1); simpl; done.
  - intros σ. rewrite init0D_build. split; [done |].
    intros σ' Hl. rewrite init0D_build. simpl. by rewrite Hl.
  - intros σ. rewrite init1D_build. split; [done |].
    intros σ' Hl. rewrite init1D_build. simpl. by rewrite Hl.
Qed.

Lemma stable_ask q self : stable (self_y self) (ask gesdd sqrt q self).
Proof.
  destruct q; simpl;
    unfold mean, std, range, cov, Maxis, maxis, axis, nobservations,
      samplesize, ncomponents.
  1-9: stable_tac; apply stable_get_cov.
  apply stable_bind; [| intros; apply stable_ret].
  unfold get_frame. destruct (klass self); try apply stable_lift.
  apply stable_bind; [apply stable_read |]. intros a.
  apply stable_bind; [apply stable_lift |]. intros q.
  eapply stable_frame. apply (stable_new BivariateDataset0D).
Qed.

(** A constructor returns a dataset of its class, which refers to the
    array it was given. *)
Lemma new_fields c r σ o σ' :
  new gesdd c (PyArray r) σ = (Ok o, σ') -> klass o = c /\ self_y o = r.
Proof.
  destruct c; unfold new.
  - unfold Dataset_init, asarray, read, lift, mbind, mret, M_bind, M_ret; simpl.
    destruct (load σ r); simpl; [| done].
    destruct (np.shape_at _ 0); simpl; [| done]. by intros [= <- _].
  - unfold UnivariateDataset1D_init, asarray, read, lift, mbind, mret, M_bind, M_ret; simpl.
    destruct (load σ r); simpl; [| done].
    destruct (np.shape_at _ 0); simpl; [| done].
    destruct (np.shape_at _ 1); simpl; [| done]. by intros [= <- _].
  - rewrite init0D_build. unfold build0D, mbind, result_bind.
    destruct (load σ r); simpl; [| done].
    destruct (np.shape_at _ 0); simpl; [| done].
    destruct (np.shape_at _ 1); simpl; [| done].
    destruct (np.cov _ _); simpl; [| done].
    destruct (np.linalg_svd _ _); simpl; [| done].
    destruct (orient _) as [[[U s] R] | e]; simpl; [| done]. by intros [= <- _].
  - rewrite init1D_build. unfold build1D, mbind, result_bind.
    destruct (load σ r); simpl; [| done].
    destruct (np.shape_at _ 0); simpl; [| done].
    destruct (np.shape_at _ 1); simpl; [| done].
    destruct (np.shape_at _ 2); simpl; [| done].
    destruct (rmap _ _); simpl; [| done].
    destruct (rmap _ _); simpl; [| done]. by intros [= <- _].
Qed.

Lemma sample_new c o σ : klass o = c ->
  sample gesdd o σ <-> new gesdd c (PyArray (self_y o)) σ = (Ok o, σ).
Proof. intros <-. unfold sample, new. by destruct (klass o). Qed.

(** What a constructor returns is a sample of the store it leaves. *)
Lemma new_sample c y σ o σ' :
  new gesdd c y σ = (Ok o, σ') -> klass o = c /\ sample gesdd o σ'.
Proof.
  destruct y as [a | r].
  - rewrite new_PyList. intros H.
    destruct (new_fields _ _ _ _ _ H) as [Hc Hy].
    pose proof (proj1 (stable_new c (Whole (fresh (dom σ)))
                                  (<[fresh (dom σ) := a]> σ))) as Hs.
    rewrite H in Hs. simpl in Hs.
    subst σ'. split; [done |]. apply (sample_new c); [done |]. by rewrite Hy.
  - intros H. destruct (new_fields _ _ _ _ _ H) as [Hc Hy].
    pose proof (proj1 (stable_new c r σ)) as Hs. rewrite H in Hs. simpl in Hs.
    subst σ'. split; [done |]. apply (sample_new c); [done |]. by rewrite Hy.
Qed.
End DatasetFacts.

(** ** Lists and results *)

Lemma rmap_length {A B} (f : A -> result B) l bs :
  rmap f l = Ok bs -> length bs = length l.
Proof.
  revert bs. induction l as [| a l IH]; simpl; intros bs.
  - by intros [= <-].
  - destruct (f a); [| done]. destruct (rmap f l); [| done].
    intros [= <-]. simpl. by rewrite (IH _ eq_refl).
Qed.

Lemma rmap_nth {A B} (f : A -> result B) l bs i da db :
  rmap f l = Ok bs -> (i < length l)%nat ->
  f (nth i l da) = Ok (nth i bs db).
Proof.
  revert bs i. induction l as [| a l IH]; simpl; intros bs i.
  - lia.
  - destruct (f a) eqn:Ea; [| done]. destruct (rmap f l); [| done].
    intros [= <-] Hi. destruct i as [| i]; simpl; [done |].
    apply IH; [done | lia].
Qed.

Lemma length_tab (m n : nat) {A} (f : nat -> nat -> A) s :
  length (flat_map (fun i => map (f i) (seq 0 n)) (seq s m)) = (m * n)%nat.
Proof.
  revert s. induction m as [| m IH]; simpl; intros s; [done |].
  rewrite length_app, length_map, length_seq, IH. done.
Qed.

Lemma nth_tab (m n : nat) {A} (f : nat -> nat -> A) s i j d :
  (i < m)%nat -> (j < n)%nat ->
  nth (i * n + j) (flat_map (fun i => map (f i) (seq 0 n)) (seq s m)) d
  = f (s + i)%nat j.
Proof.
  revert s i. induction m as [| m IH]; simpl; intros s i Hi Hj; [lia |].
  destruct i as [| i]; simpl.
  - rewrite app_nth1 by (rewrite length_map, length_seq; lia).
    rewrite (nth_indep _ d (f s 0%nat)) by (rewrite length_map, length_seq; lia).
    rewrite map_nth, seq_nth by lia. f_equal; lia.
  - rewrite app_nth2 by (rewrite length_map, length_seq; lia).
    rewrite length_map, length_seq.
    replace (n + i * n + j - n)%nat with (i * n + j)%nat by lia.
    rewrite IH by lia. f_equal; lia.
Qed.

Lemma sub_concat (B : nat) (l : list (list Q)) i :
  Forall (fun x => length x = B) l -> (i < length l)%nat ->
  np.sub (i * B) B (concat l) = nth i l [].
Proof.
  unfold np.sub. revert i. induction l as [| x l IH]; simpl; intros i Hl Hi; [lia |].
  inversion Hl as [| ? ? Hx Hl']; subst.
  destruct i as [| i]; simpl.
  - by rewrite drop_0, take_app_length.
  - rewrite skipn_app.
    rewrite skipn_all2 by lia. simpl.
    replace (length x + i * length x - length x)%nat with (i * length x)%nat by lia.
    apply IH; [done | lia].
Qed.

Lemma map_seq_nth {A} (l : list A) d :
  map (fun i => nth i l d) (seq 0 (length l)) = l.
Proof.
  apply (nth_ext _ _ d d).
  - by rewrite length_map, length_seq.
  - intros i. rewrite length_map, length_seq. intros Hi.
    rewrite (nth_indep _ d (nth 0 l d)) by (rewrite length_map, length_seq; lia).
    rewrite (map_nth (fun i => nth i l d) _ 0%nat). by rewrite seq_nth.
Qed.

(** ** numpy *)

(** Iterating over an array stacked from arrays of one shape gives the
    arrays back. *)
Lemma iter_array sh (l : list ndarray) :
  Forall (fun a => np.shape a = sh /\ np.wf a) l ->
  np.iter (np.array l) = Ok l.
Proof.
  intros Hl. unfold np.iter, np.array. simpl. f_equal.
  transitivity (map (fun i => nth i l (NdArray sh [])) (seq 0 (length l)));
    [| apply map_seq_nth].
  apply map_ext_in. intros i Hi%in_seq.
  assert (Hin : In (nth i l (NdArray sh [])) l) by (apply nth_In; lia).
  rewrite List.Forall_forall in Hl. destruct (Hl _ Hin) as [Hs Hw].
  unfold np.pick0. simpl.
  assert (Hsh : match l with [] => [] | a :: _ => np.shape a end = sh).
  { destruct l as [| a l]; simpl in *; [lia |]. apply (Hl a). by left. }
  rewrite Hsh.
  rewrite sub_concat.
  - change (@nil Q) with (np.data (NdArray sh [])).
    rewrite (map_nth np.data).
    destruct (nth i l _) as [sh' d']; simpl in *. by subst.
  - apply List.Forall_forall. intros x [a [<- Ha]]%in_map_iff.
    destruct (Hl _ Ha) as [Hs' Hw']. unfold np.wf in Hw'. by rewrite Hw', Hs'.
  - rewrite length_map. lia.
Qed.

Lemma Qltb_lt x y : Qltb x y = true <-> x < y.
Proof.
  unfold Qltb. rewrite negb_true_iff, <- not_true_iff_false, Qle_bool_iff.
  split; [apply Qnot_le_lt | apply Qlt_not_le].
Qed.

Lemma Qltb_ge x y : Qltb x y = false <-> y <= x.
Proof. unfold Qltb. by rewrite negb_false_iff, Qle_bool_iff. Qed.

Lemma numel_squeeze sh :
  np.numel (List.filter (fun d => negb (d =? 1)%nat) sh) = np.numel sh.
Proof.
  induction sh as [| d sh IH]; simpl; [done |].
  destruct (Nat.eqb_spec d 1) as [-> | Hd]; simpl; rewrite IH; lia.
Qed.

Lemma wf_tab2 m n f : np.wf (np.tab2 m n f).
Proof. unfold np.wf, np.tab2. simpl. rewrite length_tab. lia. Qed.

Lemma wf_tab1 n f : np.wf (np.tab1 n f).
Proof. unfold np.wf, np.tab1. simpl. rewrite length_map, length_seq. lia. Qed.

Lemma wf_imul a c : np.wf a -> np.wf (np.imul a c).
Proof. unfold np.wf, np.imul. simpl. by rewrite length_map. Qed.

Lemma item_imul_neg a k : np.item (np.imul a (-1)) k = np.item a k * -1.
Proof.
  unfold np.item, np.imul. simpl.
  change (0 : Q) with ((fun x : Q => x * -1) 0) at 1. apply map_nth.
Qed.

(** The covariance is well formed and its shape depends on the shape of
    its argument only. *)
Lemma cov_wf m bias c : np.cov m bias = Ok c -> np.wf c.
Proof.
  unfold np.cov. destruct (2 <? np.ndim m)%nat; [done |].
  destruct (match np.shape m with [] => _ | _ => _ end) as [nvar nobs].
  destruct (nvar =? 0)%nat.
  - by intros [= <-].
  - intros [= <-]. unfold np.wf, np.squeeze.
    cbn [np.shape np.data np.tab2]. rewrite numel_squeeze.
    apply (wf_tab2 nvar nvar).
Qed.

Lemma cov_shape m1 m2 bias c1 c2 :
  np.shape m1 = np.shape m2 ->
  np.cov m1 bias = Ok c1 -> np.cov m2 bias = Ok c2 -> np.shape c1 = np.shape c2.
Proof.
  unfold np.cov, np.ndim. intros ->.
  destruct (2 <? length (np.shape m2))%nat; [done |].
  destruct (match np.shape m2 with [] => _ | _ => _ end) as [nvar nobs].
  destruct (nvar =? 0)%nat; by intros [= <-] [= <-].
Qed.

Lemma take1_3_pick a k f :
  np.take1_3 a k = Ok f ->
  exists d0 d1 rest q, np.shape a = d0 :: d1 :: rest /\ rest <> [] /\
    np.norm_index d1 k = Ok q /\ f = np.pick1 a q /\ np.shape f = d0 :: rest.
Proof.
  unfold np.take1_3, np.index1_3, np.index1, np.ndim.
  destruct (np.shape a) as [| d0 [| d1 [| d2 rest]]] eqn:E; simpl; try done.
  destruct (np.norm_index d1 k) as [q | e] eqn:Eq; simpl; [| done].
  intros [= <-]. exists d0, d1, (d2 :: rest), q.
  repeat split; try done. unfold np.pick1. by rewrite E.
Qed.

Lemma norm_index_nat n i :
  (i < n)%nat -> np.norm_index n (Z.of_nat i) = Ok i.
Proof.
  intros Hi. unfold np.norm_index.
  destruct (Z.leb_spec 0 (Z.of_nat i)); [| lia].
  destruct (Z.ltb_spec (Z.of_nat i) (Z.of_nat n)); [| lia].
  by rewrite Nat2Z.id.
Qed.

Lemma norm_index_Ok n k q :
  np.norm_index n k = Ok q ->
  (- Z.of_nat n <= k < Z.of_nat n)%Z /\ (q < n)%nat /\
  q = Z.to_nat (if (0 <=? k)%Z then k else k + Z.of_nat n).
Proof.
  unfold np.norm_index.
  destruct (0 <=? k)%Z eqn:E.
  - apply Z.leb_le in E.
    destruct (Z.ltb_spec k (Z.of_nat n)); [| done]. intros [= <-]. lia.
  - apply Z.leb_gt in E.
    destruct (Z.leb_spec (- Z.of_nat n) k); [| done]. intros [= <-]. lia.
Qed.

Lemma norm_index_Raise n k e :
  np.norm_index n k = Raise e ->
  e = IndexError /\ (k < - Z.of_nat n \/ Z.of_nat n <= k)%Z.
Proof.
  unfold np.norm_index.
  destruct (Z.leb_spec 0 k).
  - destruct (Z.ltb_spec k (Z.of_nat n)); [done |].
    intros [= <-]. split; [done | lia].
  - destruct (Z.leb_spec (- Z.of_nat n) k); [done |].
    intros [= <-]. split; [done | lia].
Qed.

Section NodeFacts.
Variable gesdd : np.routine.

Lemma node_cov_wf a bias i c : node_cov a bias i = Ok c -> np.wf c.
Proof.
  unfold node_cov, mbind, result_bind.
  destruct (np.take1_3 a _); [| done]. apply cov_wf.
Qed.

Lemma node_cov_shape a bias i j ci cj :
  node_cov a bias i = Ok ci -> node_cov a bias j = Ok cj ->
  np.shape ci = np.shape cj.
Proof.
  unfold node_cov, mbind, result_bind.
  destruct (np.take1_3 a (Z.of_nat i)) as [fi |] eqn:Ei; [| done].
  destruct (np.take1_3 a (Z.of_nat j)) as [fj |] eqn:Ej; [| done].
  apply take1_3_pick in Ei as (d0 & d1 & rest & q & Hs & _ & _ & _ & Hfi).
  apply take1_3_pick in Ej as (d0' & d1' & rest' & q' & Hs' & _ & _ & _ & Hfj).
  rewrite Hs in Hs'. injection Hs' as <- <- <-.
  apply cov_shape. unfold np.T. simpl. by rewrite Hfi, Hfj.
Qed.

(** The covariances of the nodes, stacked and iterated over, are the
    covariances of the nodes. *)
Lemma iter_node_covs a bias n covs :
  rmap (node_cov a bias) (seq 0 n) = Ok covs ->
  np.iter (np.array covs) = Ok covs.
Proof.
  intros H.
  apply (iter_array (match covs with [] => [] | c :: _ => np.shape c end)).
  pose proof (rmap_length _ _ _ H) as Hlen. rewrite length_seq in Hlen.
  apply List.Forall_forall. intros c Hc.
  destruct (In_nth _ _ (NdArray [] []) Hc) as (i & Hi & <-).
  pose proof (rmap_nth _ _ _ i 0%nat (NdArray [] []) H) as Hn.
  rewrite length_seq in Hn. specialize (Hn ltac:(lia)).
  split; [| by eapply node_cov_wf].
  destruct covs as [| c0 covs']; simpl in Hi, Hlen; [lia |].
  pose proof (rmap_nth _ _ _ 0%nat 0%nat (NdArray [] []) H) as H0.
  rewrite length_seq in H0. specialize (H0 ltac:(lia)).
  simpl in H0. eapply node_cov_shape; eauto.
Qed.

Lemma linalg_svd_inv w U s R :
  np.linalg_svd gesdd w = Ok (U, s, R) ->
  exists m n u sv r, np.shape w = [m; n] /\ gesdd w = Some (u, sv, r) /\
    U = np.tab2 m m u /\ s = np.tab1 (Nat.min m n) sv /\ R = np.tab2 n n r.
Proof.
  unfold np.linalg_svd.
  destruct (np.shape w) as [| m [| n [| ? ?]]]; try done.
  destruct (gesdd w) as [[[u sv] r] |]; [| done].
  intros [= <- <- <-]. by exists m, n, u, sv, r.
Qed.
End NodeFacts.

(** ** The sign convention *)

Lemma major_dot_inv U d :
  major_dot U = Ok d ->
  exists n, np.shape U = [2%nat; n] /\ (0 < n)%nat /\
    d = np.item U 0 * 0 + (at2 U 1 0 * 1 + 0).
Proof.
  unfold major_dot, np.take1, np.index1, np.dot, np.pick1, at2, mbind, result_bind.
  destruct (np.shape U) as [| d0 [| d1 rest]] eqn:E; try done.
  destruct (np.norm_index d1 0) as [q |] eqn:Eq; [| done].
  apply norm_index_Ok in Eq as (_ & Hq & ->). simpl in *.
  destruct rest as [| ? ?]; [| intros ?; discriminate].
  destruct (Nat.eqb_spec d0 2) as [-> | ?]; [| done].
  intros [= <-]. exists d1. repeat split; [lia |].
  simpl. unfold np.Qdot. simpl. by rewrite ?Nat.add_0_r, ?Nat.mul_1_r.
Qed.

Lemma major_dot_value U d : major_dot U = Ok d -> d == at2 U 1 0.
Proof.
  intros (n & _ & _ & ->)%major_dot_inv. ring.
Qed.

Lemma at2_imul_neg U i j : at2 (np.imul U (-1)) i j = at2 U i j * -1.
Proof. unfold at2. by rewrite item_imul_neg. Qed.

Lemma major_dot_imul_neg U d :
  major_dot U = Ok d ->
  exists d', major_dot (np.imul U (-1)) = Ok d' /\ d' == - d.
Proof.
  intros Hd. pose proof Hd as (n & Hs & Hn & ->)%major_dot_inv.
  exists (np.item (np.imul U (-1)) 0 * 0 + (at2 (np.imul U (-1)) 1 0 * 1 + 0)).
  split.
  - revert Hd.
    unfold major_dot, np.take1, np.index1, np.dot, np.pick1, at2, mbind, result_bind.
    cbn [np.shape np.imul]. rewrite Hs.
    destruct (np.norm_index n 0) as [q |] eqn:Eq; [| done].
    apply norm_index_Ok in Eq as (_ & Hq & ->). simpl.
    intros _. unfold np.Qdot. simpl. by rewrite ?Nat.add_0_r, ?Nat.mul_1_r.
  - rewrite at2_imul_neg, item_imul_neg. ring.
Qed.

Lemma orient_inv U0 s0 R0 U s R :
  orient (U0, s0, R0) = Ok (U, s, R) ->
  s = s0 /\
  (exists d, major_dot U = Ok d /\ d == at2 U 1 0 /\ 0 <= d) /\
  (exists d0, major_dot U0 = Ok d0 /\ d0 == at2 U0 1 0 /\
     (d0 < 0 -> U = np.imul U0 (-1) /\ R = np.imul R0 (-1)) /\
     (0 <= d0 -> U = U0 /\ R = R0)).
Proof.
  unfold orient.
  unfold mbind at 1, result_bind at 1.
  destruct (major_dot U0) as [d0 |] eqn:Hd0; [| done].
  destruct (Qltb d0 0) eqn:Hlt; intros [= <- <- <-].
  - apply Qltb_lt in Hlt. split; [done |]. split.
    + destruct (major_dot_imul_neg _ _ Hd0) as (d' & Hd' & Hv).
      exists d'. split; [done |]. split; [by apply major_dot_value |].
      rewrite Hv. lra.
    + exists d0. split; [done |]. split; [by apply major_dot_value |].
      split; [done |]. intros Hle. lra.
  - apply Qltb_ge in Hlt. split; [done |]. split.
    + exists d0. split; [done |]. split; [by apply major_dot_value | done].
    + exists d0. split; [done |]. split; [by apply major_dot_value |].
      split; [| done]. intros Hneg. lra.
Qed.

Lemma pick0_array sh (l : list ndarray) q d :
  Forall (fun a => np.shape a = sh /\ np.wf a) l -> (q < length l)%nat ->
  np.pick0 (np.array l) q = nth q l d.
Proof.
  intros Hl Hq. pose proof (iter_array sh l Hl) as Hi.
  unfold np.iter in Hi. simpl in Hi. injection Hi as Hi.
  rewrite <- Hi at 2.
  rewrite (nth_indep _ d (np.pick0 (np.array l) 0))
    by (rewrite length_map, length_seq; lia).
  rewrite (map_nth (np.pick0 (np.array l))), seq_nth by lia. done.
Qed.

Section Decomposition.
Variable gesdd : np.routine.

Lemma node_svd_oriented w U s R :
  node_svd gesdd w = Ok (U, s, R) -> oriented gesdd w U s R.
Proof.
  unfold node_svd, mbind, result_bind.
  destruct (np.linalg_svd gesdd w) as [[[U0 s0] R0] |] eqn:E; [| done].
  intros H%orient_inv. exists U0, s0, R0. tauto.
Qed.

Lemma node_svd_shape w U s R :
  node_svd gesdd w = Ok (U, s, R) ->
  exists n, np.shape w = [2%nat; n] /\
    (np.shape U = [2%nat; 2%nat] /\ np.wf U) /\
    (np.shape s = [Nat.min 2 n] /\ np.wf s) /\
    (np.shape R = [n; n] /\ np.wf R).
Proof.
  unfold node_svd, mbind, result_bind.
  destruct (np.linalg_svd gesdd w) as [[[U0 s0] R0] |] eqn:E; [| done].
  apply linalg_svd_inv in E as (m & n & u & sv & r & Hw & _ & -> & -> & ->).
  intros (-> & _ & (d0 & Hd0 & _ & Hneg & Hpos))%orient_inv.
  apply major_dot_inv in Hd0 as (n' & Hs & _ & _). simpl in Hs.
  injection Hs as -> <-.
  exists n. split; [done |].
  assert (HU : np.shape U = [2%nat; 2%nat] /\ np.wf U /\
               np.shape R = [n; n] /\ np.wf R).
  { destruct (Qlt_le_dec d0 0) as [Hlt | Hle].
    - destruct (Hneg Hlt) as [-> ->].
      repeat split; try done; apply wf_imul, wf_tab2.
    - destruct (Hpos Hle) as [-> ->].
      repeat split; try done; apply wf_tab2. }
  repeat split; try tauto. apply wf_tab1.
Qed.

(** A [BivariateDataset0D] of the store, taken apart. *)
Lemma sample0D_inv o σ :
  klass o = BivariateDataset0D -> sample gesdd o σ ->
  exists a J I W U s R,
    load σ (self_y o) = Ok a /\
    np.shape_at a 0 = Ok J /\ np.shape_at a 1 = Ok I /\
    np.cov (np.T a) 1 = Ok W /\
    node_svd gesdd W = Ok (U, s, R) /\
    o = Dataset BivariateDataset0D (self_y o) J None (Some I)
                (Some U) (Some s) (Some R).
Proof.
  intros Hk. unfold sample. rewrite Hk, init0D_build.
  unfold build0D, node_svd, mbind, result_bind.
  destruct (load σ (self_y o)) as [a |] eqn:E1; [| done].
  destruct (np.shape_at a 0) as [J |] eqn:E2; [| done].
  destruct (np.shape_at a 1) as [I |] eqn:E3; [| done].
  destruct (np.cov (np.T a) 1) as [W |] eqn:E4; [| done].
  destruct (np.linalg_svd gesdd W) as [usr |] eqn:E5; [| done].
  destruct (orient usr) as [[[U s] R] |] eqn:E6; [| done].
  intros [= Ho]. exists a, J, I, W, U, s, R. by rewrite E5.
Qed.

(** A [BivariateDataset1D] of the store, taken apart. *)
Lemma sample1D_inv o σ :
  klass o = BivariateDataset1D -> sample gesdd o σ ->
  exists a J nQ I covs usrs,
    load σ (self_y o) = Ok a /\
    np.shape_at a 0 = Ok J /\ np.shape_at a 1 = Ok nQ /\
    np.shape_at a 2 = Ok I /\
    rmap (node_cov a 1) (seq 0 nQ) = Ok covs /\
    rmap (node_svd gesdd) covs = Ok usrs /\
    o = Dataset BivariateDataset1D (self_y o) J (Some nQ) (Some I)
                (Some (np.array (map (fun t => fst (fst t)) usrs)))
                (Some (np.array (map (fun t => snd (fst t)) usrs)))
                (Some (np.array (map snd usrs))).
Proof.
  intros Hk. unfold sample. rewrite Hk, init1D_build.
  unfold build1D. unfold mbind, result_bind.
  destruct (load σ (self_y o)) as [a |] eqn:E1; [| done].
  destruct (np.shape_at a 0) as [J |] eqn:E2; [| done].
  destruct (np.shape_at a 1) as [nQ |] eqn:E3; [| done].
  destruct (np.shape_at a 2) as [I |] eqn:E4; [| done].
  destruct (rmap (node_cov a 1) (seq 0 nQ)) as [covs |] eqn:Ec; [| done].
  rewrite (iter_node_covs _ _ _ _ Ec).
  destruct (rmap (node_svd gesdd) covs) as [usrs |] eqn:E5; [| done].
  intros [= Ho]. by exists a, J, nQ, I, covs, usrs.
Qed.

Lemma cov_0D o σ a :
  klass o = BivariateDataset0D -> load σ (self_y o) = Ok a ->
  cov o σ = (np.cov (np.T a) 1, σ).
Proof.
  intros Hk Hl. unfold cov, get_cov, BivariateDataset_get_cov, read, lift,
    mbind, M_bind. by rewrite Hk, Hl.
Qed.

Lemma cov_1D o σ a nQ covs :
  klass o = BivariateDataset1D -> load σ (self_y o) = Ok a ->
  self_Q o = Some nQ ->
  rmap (node_cov a 1) (seq 0 nQ) = Ok covs ->
  cov o σ = (Ok (np.array covs), σ).
Proof.
  intros Hk Hl HQ Hc. unfold cov, get_cov, BivariateDataset1D_get_cov, read,
    lift, attr, mbind, mret, M_bind, M_ret. by rewrite Hk, HQ, Hl, Hc.
Qed.
End Decomposition.

Section Orientation.
Variable gesdd : np.routine.

(** The decompositions of the nodes of one dataset have one shape. *)
Lemma node_svds_uniform a bias nQ covs usrs :
  rmap (node_cov a bias) (seq 0 nQ) = Ok covs ->
  rmap (node_svd gesdd) covs = Ok usrs ->
  exists n, Forall (fun t =>
    (np.shape (fst (fst t)) = [2%nat; 2%nat] /\ np.wf (fst (fst t))) /\
    (np.shape (snd (fst t)) = [Nat.min 2 n] /\ np.wf (snd (fst t))) /\
    (np.shape (snd t) = [n; n] /\ np.wf (snd t))) usrs.
Proof.
  intros Hc Hu.
  pose proof (rmap_length _ _ _ Hc) as Lc. rewrite length_seq in Lc.
  pose proof (rmap_length _ _ _ Hu) as Lu.
  set (d := NdArray [] []).
  assert (Hnode : forall i, (i < nQ)%nat ->
            node_cov a bias i = Ok (nth i covs d)).
  { intros i Hi.
    pose proof (rmap_nth _ _ _ i 0%nat d Hc) as H.
    rewrite length_seq, seq_nth in H by lia. apply H; lia. }
  assert (Hsvd : forall i, (i < nQ)%nat ->
            node_svd gesdd (nth i covs d) = Ok (nth i usrs (d, d, d))).
  { intros i Hi. apply rmap_nth; [done | lia]. }
  destruct (Nat.eq_dec nQ 0%nat) as [-> | Hpos].
  { destruct usrs; [| simpl in *; lia]. exists 0%nat. constructor. }
  destruct (nth 0%nat usrs (d, d, d)) as [[U0 s0] R0] eqn:E0.
  pose proof (Hsvd 0%nat ltac:(lia)) as H0. rewrite E0 in H0.
  apply node_svd_shape in H0 as (n & Hw0 & _).
  exists n. apply List.Forall_forall. intros t Ht.
  destruct (In_nth _ _ (d, d, d) Ht) as (i & Hi & <-).
  destruct (nth i usrs (d, d, d)) as [[U s] R] eqn:Ei.
  pose proof (Hsvd i ltac:(lia)) as H. rewrite Ei in H.
  apply node_svd_shape in H as (n' & Hw & HU & Hs & HR).
  assert (Heq : np.shape (nth i covs d) = np.shape (nth 0%nat covs d)).
  { eapply node_cov_shape; apply Hnode; lia. }
  rewrite Hw, Hw0 in Heq. injection Heq as ->. simpl. tauto.
Qed.

Lemma orientation_0D o σ :
  sample gesdd o σ -> klass o = BivariateDataset0D ->
  exists W U s R c d,
    cov o σ = (Ok W, σ) /\
    self_U o = Some U /\ self_s o = Some s /\ self_R o = Some R /\
    oriented gesdd W U s R /\
    Maxis o σ = (Ok c, σ) /\ np.dot c e2 = Ok d /\ 0 <= d.
Proof.
  intros Hs Hk.
  destruct (sample0D_inv _ _ _ Hk Hs)
    as (a & J & I & W & U & s & R & Hl & _ & _ & Hc & Hsvd & Ho).
  pose proof (node_svd_oriented _ _ _ _ _ Hsvd) as Hor.
  pose proof Hor as (_ & _ & _ & _ & _ & (d & Hd & _ & Hd0) & _).
  unfold major_dot, mbind, result_bind in Hd.
  destruct (np.take1 U 0) as [c |] eqn:Ec; [| done].
  exists W, U, s, R, c, d.
  rewrite (cov_0D _ _ _ Hk Hl), Hc.
  rewrite Ho. simpl. repeat split; try done.
  unfold Maxis, axis, lift. simpl. by rewrite Ec.
Qed.

Lemma orientation_1D o σ :
  sample gesdd o σ -> klass o = BivariateDataset1D ->
  exists nQ W U s R,
    self_Q o = Some nQ /\ cov o σ = (Ok W, σ) /\
    self_U o = Some U /\ self_s o = Some s /\ self_R o = Some R /\
    forall q, (q < nQ)%nat ->
      oriented gesdd (np.pick0 W q) (np.pick0 U q) (np.pick0 s q)
               (np.pick0 R q).
Proof.
  intros Hs Hk.
  destruct (sample1D_inv _ _ _ Hk Hs)
    as (a & J & nQ & I & covs & usrs & Hl & _ & _ & _ & Hc & Hu & Ho).
  exists nQ, (np.array covs),
    (np.array (map (fun t => fst (fst t)) usrs)),
    (np.array (map (fun t => snd (fst t)) usrs)),
    (np.array (map snd usrs)).
  assert (HQ : self_Q o = Some nQ) by (by rewrite Ho).
  rewrite (cov_1D _ _ _ _ _ Hk Hl HQ Hc).
  split; [done |]. split; [done |].
  rewrite Ho at 1 2 3. simpl. repeat split.
  intros q Hq.
  pose proof (rmap_length _ _ _ Hc) as Lc. rewrite length_seq in Lc.
  pose proof (rmap_length _ _ _ Hu) as Lu.
  set (d := NdArray [] []).
  destruct (node_svds_uniform _ _ _ _ _ Hc Hu) as (n & Hall).
  pose proof (iter_node_covs _ _ _ _ Hc) as Hit.
  assert (HW : np.pick0 (np.array covs) q = nth q covs d).
  { unfold np.iter in Hit. simpl in Hit. injection Hit as Hit.
    rewrite <- Hit at 2.
    rewrite (nth_indep _ d (np.pick0 (np.array covs) 0))
      by (rewrite length_map, length_seq; lia).
    rewrite (map_nth (np.pick0 (np.array covs))), seq_nth by lia. done. }
  rewrite HW.
  assert (Hpick : forall (f : ndarray * ndarray * ndarray -> ndarray) sh,
            Forall (fun t => np.shape (f t) = sh /\ np.wf (f t)) usrs ->
            np.pick0 (np.array (map f usrs)) q = f (nth q usrs (d, d, d))).
  { intros f sh Hf.
    rewrite (pick0_array sh _ q (f (d, d, d))).
    - apply (map_nth f).
    - by apply Forall_map.
    - rewrite length_map. lia. }
  rewrite (Hpick (fun t => fst (fst t)) [2%nat; 2%nat]),
    (Hpick (fun t => snd (fst t)) [Nat.min 2 n]), (Hpick snd [n; n]).
  - apply node_svd_oriented.
    rewrite <- !surjective_pairing. apply rmap_nth; [done | lia].
  - eapply Forall_impl; [exact Hall |]. simpl. tauto.
  - eapply Forall_impl; [exact Hall |]. simpl. tauto.
  - eapply Forall_impl; [exact Hall |]. simpl. tauto.
Qed.
End Orientation.

(** ** The worked example *)

(** The mean of the scenario is [[3,4]], every entry of its biased
    covariance is 8/3 and the variance under the root of [std] is 4. *)
Example scenario_statistics :
  (exists m, np.mean y_scenario = Ok m /\ Forall2 Qeq (np.data m) [3; 4]) /\
  (exists c, np.cov (np.T y_scenario) 1 = Ok c /\
     Forall2 Qeq (np.data c) [8 # 3; 8 # 3; 8 # 3; 8 # 3]) /\
  (exists v, np.std (fun x => x) y_scenario 1 = Ok v /\
     Forall2 Qeq (np.data v) [4; 4]).
Proof.
  repeat split; eexists; (split; [vm_compute; reflexivity |]);
    repeat constructor; reflexivity.
Qed.

(** On a [BivariateDataset1D] the inherited [Maxis] is [self._U[:,0]] of an
    array of shape [(Q,2,2)]: it selects the first row of the matrix [U]
    of each node, where the major axis is its first column.  In the worked
    example the stored major axis of both nodes is [(0,1)] and [Maxis]
    answers [(0,-1)] for both. *)
Remark Maxis_1D_rows :
  fst (Maxis demo1D store_demo) = Ok (NdArray [2%nat; 2%nat] [0; -1; 0; -1]) /\
  forall q, (q < 2)%nat ->
    exists U, self_U demo1D = Some U /\
      at2 (np.pick0 U q) 0 0 = 0 /\ at2 (np.pick0 U q) 1 0 = 1 /\
      at2 (np.pick0 U q) 0 1 = -1.
Proof.
  split; [reflexivity |]. intros q Hq. eexists. split; [reflexivity |].
  destruct q as [| [| q]]; [| | lia]; repeat split; reflexivity.
Qed.

(** ** C1: the orientation of the major axis *)

(** C1.  Orientation invariant.  For every [BivariateDataset0D] of the
    store, the stored decomposition [(U, s, R)] is the one the routine
    returns for the covariance, up to the sign convention: the dot product
    of the major axis [U[:,0]] with [[0,1]] is non-negative (it is the
    second component of the axis), and when the routine's major axis has a
    negative second component, [U] and [R] are the routine's with every
    entry multiplied by -1.  The [Maxis] query returns that axis.  For
    every [BivariateDataset1D] the same holds at every node [q] below
    [self.Q], for the sub-arrays [W[q]], [_U[q]], [_s[q]], [_R[q]]. *)
Theorem orientation_invariant gesdd o σ :
  sample gesdd o σ ->
  (klass o = BivariateDataset0D ->
     exists W U s R c d,
       cov o σ = (Ok W, σ) /\
       self_U o = Some U /\ self_s o = Some s /\ self_R o = Some R /\
       oriented gesdd W U s R /\
       Maxis o σ = (Ok c, σ) /\ np.dot c e2 = Ok d /\ 0 <= d) /\
  (klass o = BivariateDataset1D ->
     exists nQ W U s R,
       self_Q o = Some nQ /\ cov o σ = (Ok W, σ) /\
       self_U o = Some U /\ self_s o = Some s /\ self_R o = Some R /\
       forall q, (q < nQ)%nat ->
         oriented gesdd (np.pick0 W q) (np.pick0 U q) (np.pick0 s q)
                  (np.pick0 R q)).
Proof.
  intros Hs. split; intros Hk.
  - by apply orientation_0D.
  - by apply orientation_1D.
Qed.

Lemma orientation_invariant_witness :
  (sample gesdd_demo demo0D store_demo /\
   exists W U s R c d,
     cov demo0D store_demo = (Ok W, store_demo) /\
     self_U demo0D = Some U /\ self_s demo0D = Some s /\
     self_R demo0D = Some R /\
     oriented gesdd_demo W U s R /\
     Maxis demo0D store_demo = (Ok c, store_demo) /\
     np.dot c e2 = Ok d /\ 0 <= d) /\
  (sample gesdd_demo demo1D store_demo /\
   exists nQ W U s R,
     self_Q demo1D = Some nQ /\ cov demo1D store_demo = (Ok W, store_demo) /\
     self_U demo1D = Some U /\ self_s demo1D = Some s /\
     self_R demo1D = Some R /\
     forall q, (q < nQ)%nat ->
       oriented gesdd_demo (np.pick0 W q) (np.pick0 U q) (np.pick0 s q)
                (np.pick0 R q)).
Proof.
  assert (Hs0 : sample gesdd_demo demo0D store_demo) by (vm_compute; reflexivity).
  assert (Hs1 : sample gesdd_demo demo1D store_demo) by (vm_compute; reflexivity).
  split; (split; [first [exact Hs0 | exact Hs1] |]).
  - exact (proj1 (orientation_invariant gesdd_demo demo0D store_demo
                    Hs0) eq_refl).
  - exact (proj2 (orientation_invariant gesdd_demo demo1D store_demo
                    Hs1) eq_refl).
Defined.

(** ** Constructor arguments *)

Lemma asarray_denotes σ y a :
  denotes σ y a ->
  exists r σ', asarray y σ = (Ok r, σ') /\ load σ' r = Ok a /\
    forall r0 a0, load σ r0 = Ok a0 -> load σ' r0 = Ok a0.
Proof.
  destruct y as [a' | r]; simpl.
  - intros ->. exists (Whole (fresh (dom σ))), (<[fresh (dom σ) := a]> σ).
    unfold alloc. split; [done |]. split.
    + simpl. by rewrite lookup_insert_eq.
    + intros r0 a0 H. rewrite load_insert_other; [done |].
      by eapply fresh_not_owner.
  - intros H. exists r, σ. done.
Qed.

Section Construction.
Variable gesdd : np.routine.

Lemma init0D_denotes σ y a :
  denotes σ y a ->
  exists r σ', BivariateDataset0D_init gesdd y σ = (build0D gesdd r a, σ').
Proof.
  intros (r & σ' & Ha & Hl & _)%asarray_denotes. exists r, σ'.
  transitivity (BivariateDataset0D_init gesdd (PyArray r) σ').
  - destruct y as [a' | r']; simpl in Ha.
    + injection Ha as <- <-. apply (new_PyList gesdd BivariateDataset0D).
    + by injection Ha as <- <-.
  - rewrite init0D_build. by rewrite Hl.
Qed.

Lemma init1D_denotes σ y a :
  denotes σ y a ->
  exists r σ', BivariateDataset1D_init gesdd y σ = (build1D gesdd r a, σ').
Proof.
  intros (r & σ' & Ha & Hl & _)%asarray_denotes. exists r, σ'.
  transitivity (BivariateDataset1D_init gesdd (PyArray r) σ').
  - destruct y as [a' | r']; simpl in Ha.
    + injection Ha as <- <-. apply (new_PyList gesdd BivariateDataset1D).
    + by injection Ha as <- <-.
  - rewrite init1D_build. by rewrite Hl.
Qed.

Lemma initU1D_denotes σ y a :
  denotes σ y a ->
  exists r σ',
    UnivariateDataset1D_init y σ =
    (J ← np.shape_at a 0; Q ← np.shape_at a 1;
     Ok (Dataset UnivariateDataset1D r J (Some Q) None None None None), σ').
Proof.
  intros (r & σ' & Ha & Hl & _)%asarray_denotes. exists r, σ'.
  unfold UnivariateDataset1D_init, read, lift, mbind, mret, M_bind, M_ret,
    result_bind.
  rewrite Ha, Hl.
  destruct (np.shape_at a 0); [| done]. by destruct (np.shape_at a 1).
Qed.

(** ** C2: arrays of the wrong shape *)

Lemma cov_2d m bias nv nobs :
  np.shape m = [nv; nobs] ->
  exists W, np.cov m bias = Ok W /\
    np.shape W = if (nv =? 0)%nat then [0%nat; 0%nat]
                 else List.filter (fun d => negb (d =? 1)%nat) [nv; nv].
Proof.
  intros Hs. unfold np.cov, np.ndim. rewrite Hs. simpl.
  destruct (nv =? 0)%nat; eexists; split; reflexivity.
Qed.

Lemma linalg_svd_2d w m n :
  np.shape w = [m; n] ->
  np.linalg_svd gesdd w =
  match gesdd w with
  | Some (u, s, r) => Ok (np.tab2 m m u, np.tab1 (Nat.min m n) s, np.tab2 n n r)
  | None => Raise LinAlgError
  end.
Proof. intros Hs. unfold np.linalg_svd. by rewrite Hs. Qed.

Lemma major_dot_tab2 m u :
  m <> 2%nat ->
  major_dot (np.tab2 m m u) =
  Raise (if (m =? 0)%nat then IndexError else ValueError).
Proof.
  intros Hm. unfold major_dot, np.take1, np.index1, np.norm_index.
  cbn [np.tab2 np.shape Z.leb Z.compare].
  destruct m as [| m]; [done |].
  destruct (Z.ltb_spec 0 (Z.of_nat (S m))); [| lia].
  unfold mbind, result_bind, np.dot, np.pick1. cbn [np.tab2 np.shape e2].
  destruct (Nat.eqb_spec (S m) 2); [lia | done].
Qed.

(** A matrix of observations whose number of columns is not two is
    refused by the constructor, whatever the routine does. *)
Lemma build0D_columns r a J I :
  np.shape a = [J; I] -> I <> 2%nat ->
  exists e, build0D gesdd r a = Raise e /\
    (3 <= I -> e = ValueError \/ e = LinAlgError)%nat /\
    (3 <= I -> forall W, np.cov (np.T a) 1 = Ok W ->
       (is_Some (gesdd W) -> e = ValueError) /\
       (gesdd W = None -> e = LinAlgError))%nat.
Proof.
  intros Hs HI. unfold build0D, np.shape_at. rewrite Hs.
  cbn [nth_error mbind result_bind].
  destruct (cov_2d (np.T a) 1 I J) as (W & HW & HsW).
  { unfold np.T. by rewrite Hs. }
  rewrite HW. cbn [mbind result_bind].
  destruct (Nat.eqb_spec I 0) as [-> | H0].
  { rewrite (linalg_svd_2d W 0 0 HsW).
    destruct (gesdd W) as [[[u sv] w] |]; cbn [mbind result_bind].
    - unfold orient. rewrite major_dot_tab2 by lia.
      eexists; split; [reflexivity |]. split; intros; lia.
    - eexists; split; [reflexivity |]. split; intros; lia. }
  destruct (Nat.eqb_spec I 1) as [-> | H1].
  { simpl in HsW. unfold np.linalg_svd. rewrite HsW.
    eexists; split; [reflexivity |]. split; intros; lia. }
  assert (HsW' : np.shape W = [I; I]).
  { rewrite HsW. simpl. destruct (Nat.eqb_spec I 1); [lia | done]. }
  rewrite (linalg_svd_2d W I I HsW').
  destruct (gesdd W) as [[[u sv] w] |] eqn:Eg; cbn [mbind result_bind].
  - unfold orient. rewrite major_dot_tab2 by lia.
    destruct (Nat.eqb_spec I 0); [lia |].
    eexists; split; [reflexivity |]. split; [by left |].
    intros _ W' [= <-]. rewrite Eg. split; [done | done].
  - eexists; split; [reflexivity |]. split; [by right |].
    intros _ W' [= <-]. rewrite Eg. split; [by intros [? ?] | done].
Qed.
End Construction.

(** C2.  Shape rejection, as the code performs it: the constructors do not
    check shapes, the failure comes from the first operation the shape
    does not fit.  A [BivariateDataset0D] made from a matrix with three
    columns fails with [ValueError], raised by the dot product of the
    3-vector [U[:,0]] with [[0,1]], or with [LinAlgError] when the
    decomposition does not converge; more generally any number of columns
    other than two fails.  A [UnivariateDataset1D] made from a 1-D array
    fails with [IndexError], raised by [shape[1]].  The result is the
    exception: no dataset is returned. *)
Theorem shape_rejection gesdd σ y a :
  denotes σ y a ->
  (forall J, np.shape a = [J; 3%nat] ->
     exists e, fst (BivariateDataset0D_init gesdd y σ) = Raise e /\
       (e = ValueError \/ e = LinAlgError) /\
       forall W, np.cov (np.T a) 1 = Ok W ->
         (is_Some (gesdd W) -> e = ValueError) /\
         (gesdd W = None -> e = LinAlgError)) /\
  (forall J I, np.shape a = [J; I] -> I <> 2%nat ->
     exists e, fst (BivariateDataset0D_init gesdd y σ) = Raise e) /\
  (forall n, np.shape a = [n] ->
     fst (UnivariateDataset1D_init y σ) = Raise IndexError).
Proof.
  intros Hy. split; [| split].
  - intros J Hs.
    destruct (init0D_denotes gesdd _ _ _ Hy) as (r & σ' & ->).
    destruct (build0D_columns gesdd r a J 3 Hs ltac:(lia)) as (e & -> & H1 & H2).
    exists e. split; [done |]. split; [apply H1; lia | apply H2; lia].
  - intros J I Hs HI.
    destruct (init0D_denotes gesdd _ _ _ Hy) as (r & σ' & ->).
    destruct (build0D_columns gesdd r a J I Hs HI) as (e & -> & _).
    by exists e.
  - intros n Hs.
    destruct (initU1D_denotes _ _ _ Hy) as (r & σ' & ->).
    unfold np.shape_at. rewrite Hs. done.
Qed.

Lemma shape_rejection_witness :
  (denotes ∅ (PyList y_3col) y_3col /\
   exists e, fst (BivariateDataset0D_init gesdd_demo (PyList y_3col) ∅) = Raise e /\
     (e = ValueError \/ e = LinAlgError) /\
     forall W, np.cov (np.T y_3col) 1 = Ok W ->
       (is_Some (gesdd_demo W) -> e = ValueError) /\
       (gesdd_demo W = None -> e = LinAlgError)) /\
  (denotes ∅ (PyList y_1d) y_1d /\
   fst (UnivariateDataset1D_init (PyList y_1d) ∅) = Raise IndexError).
Proof.
  split; (split; [reflexivity |]).
  - exact (proj1 (shape_rejection gesdd_demo ∅ (PyList y_3col) y_3col eq_refl)
             2%nat eq_refl).
  - exact (proj2 (proj2 (shape_rejection gesdd_demo ∅ (PyList y_1d) y_1d eq_refl))
             3%nat eq_refl).
Defined.

(** The exceptions raised on the two arrays of C2 are not a [ShapeError]. *)
Lemma shape_rejection_counterexample :
  fst (BivariateDataset0D_init gesdd_demo (PyList y_3col) ∅) = Raise ValueError /\
  fst (BivariateDataset0D_init gesdd_demo (PyList y_3col) ∅)
    <> Raise "ShapeError"%string /\
  fst (UnivariateDataset1D_init (PyList y_1d) ∅) = Raise IndexError /\
  fst (UnivariateDataset1D_init (PyList y_1d) ∅) <> Raise "ShapeError"%string.
Proof. vm_compute. repeat split; discriminate. Qed.

(** ** C7: the node coordinates *)

(** C7.  The node coordinates of a [UnivariateDataset1D], as the code
    computes them: without coordinates [_getx] returns [np.arange(Q)], the
    numbers 0 .. Q-1, [Q] being [shape[1]] of the data; with coordinates it
    returns them unchanged, whatever they are and whatever their length.
    It raises nothing and leaves the store as it is. *)
Theorem getx_coordinates gesdd o σ :
  sample gesdd o σ -> klass o = UnivariateDataset1D ->
  exists a nQ,
    load σ (self_y o) = Ok a /\ np.shape_at a 1 = Ok nQ /\
    _getx o (@None (list Q)) σ = (Ok (inl (np.arange nQ)), σ) /\
    np.shape (np.arange nQ) = [nQ] /\
    np.data (np.arange nQ) = map (fun k => inject_Z (Z.of_nat k)) (seq 0 nQ) /\
    forall (X : Type) (x : X), _getx o (Some x) σ = (Ok (inr x), σ).
Proof.
  intros Hs Hk. unfold sample in Hs. rewrite Hk in Hs.
  unfold UnivariateDataset1D_init, asarray, read, lift, mbind, mret, M_bind,
    M_ret in Hs. simpl in Hs.
  destruct (load σ (self_y o)) as [a |] eqn:El; simpl in Hs; [| done].
  destruct (np.shape_at a 0) as [J |] eqn:E0; simpl in Hs; [| done].
  destruct (np.shape_at a 1) as [nQ |] eqn:E1; simpl in Hs; [| done].
  injection Hs as Ho. exists a, nQ.
  assert (HQ : self_Q o = Some nQ) by (by rewrite <- Ho).
  unfold _getx. rewrite Hk, HQ. simpl. done.
Qed.

Lemma getx_coordinates_witness :
  sample gesdd_demo demoU1D store_fun /\
  exists a nQ,
    load store_fun (self_y demoU1D) = Ok a /\ np.shape_at a 1 = Ok nQ /\
    _getx demoU1D (@None (list Q)) store_fun = (Ok (inl (np.arange nQ)), store_fun) /\
    np.shape (np.arange nQ) = [nQ] /\
    np.data (np.arange nQ) = map (fun k => inject_Z (Z.of_nat k)) (seq 0 nQ) /\
    forall (X : Type) (x : X),
      _getx demoU1D (Some x) store_fun = (Ok (inr x), store_fun).
Proof.
  assert (HsU : sample gesdd_demo demoU1D store_fun) by (vm_compute; reflexivity).
  split; [exact HsU |].
  exact (getx_coordinates gesdd_demo demoU1D store_fun HsU eq_refl).
Defined.

(** Two coordinates for three nodes are echoed: nothing is raised. *)
Lemma getx_coordinates_counterexample :
  self_Q demoU1D = Some 3%nat /\ length [0; 1] <> 3%nat /\
  fst (_getx demoU1D (Some [0; 1]) store_fun) = Ok (inr [0; 1]) /\
  fst (_getx demoU1D (Some [0; 1]) store_fun)
    <> Raise "DimensionMismatchError"%string.
Proof. vm_compute. repeat split; discriminate. Qed.

(** ** C10: [ncomponents] *)

Section Components.
Variable gesdd : np.routine.

Lemma cov_Ok_ndim m bias W : np.cov m bias = Ok W -> (np.ndim m <= 2)%nat.
Proof.
  unfold np.cov. destruct (2 <? np.ndim m)%nat eqn:E; [done |].
  intros _. by apply Nat.ltb_ge.
Qed.

Lemma ndim_T a : np.ndim (np.T a) = np.ndim a.
Proof. unfold np.ndim, np.T. simpl. apply length_rev. Qed.

(** The data of a [BivariateDataset0D] has two columns. *)
Lemma sample0D_shape o σ a :
  klass o = BivariateDataset0D -> sample gesdd o σ ->
  load σ (self_y o) = Ok a ->
  np.shape a = [self_J o; 2%nat] /\ self_I o = Some 2%nat.
Proof.
  intros Hk Hs Hl.
  destruct (sample0D_inv _ _ _ Hk Hs)
    as (a' & J & I & W & U & s & R & Hl' & HJ & HI & Hc & Hsvd & Ho).
  rewrite Hl in Hl'. injection Hl' as <-.
  apply node_svd_shape in Hsvd as (n & HW & _).
  unfold np.shape_at in HJ, HI.
  destruct (np.shape a) as [| J' [| I' rest]] eqn:Es; try done.
  simpl in HJ, HI. injection HJ as ->. injection HI as ->.
  assert (rest = []) as ->.
  { apply cov_Ok_ndim in Hc. rewrite ndim_T in Hc. unfold np.ndim in Hc.
    rewrite Es in Hc. destruct rest; [done | simpl in Hc; lia]. }
  destruct (cov_2d (np.T a) 1 I J) as (W' & HW' & HsW).
  { unfold np.T. by rewrite Es. }
  rewrite Hc in HW'. injection HW' as <-. rewrite HW in HsW.
  assert (I = 2%nat) as ->.
  { destruct I as [| [| I]]; simpl in HsW; try done. by injection HsW as ->. }
  rewrite Ho. done.
Qed.
End Components.

(** C10.  For every bivariate dataset of the store, [ncomponents] returns
    [self.J], the number of observations [shape[0]], which is what
    [nobservations] and [samplesize] return; the number of components
    stored at construction is [self.I] ([shape[1]] of a
    [BivariateDataset0D], where it is 2, [shape[2]] of a
    [BivariateDataset1D]).  With a number of observations other than 2,
    [ncomponents] is not 2. *)
Theorem ncomponents_is_observation_count gesdd o σ :
  sample gesdd o σ -> is_bivariate (klass o) = true ->
  exists a,
    load σ (self_y o) = Ok a /\
    np.shape_at a 0 = Ok (self_J o) /\
    attr (self_I o) =
      np.shape_at a (if decide (klass o = BivariateDataset1D) then 2 else 1) /\
    (klass o = BivariateDataset0D -> self_I o = Some 2%nat) /\
    ncomponents o σ = (Ok (self_J o), σ) /\
    nobservations o σ = (Ok (self_J o), σ) /\
    samplesize o σ = (Ok (self_J o), σ) /\
    (self_J o <> 2%nat -> ncomponents o σ <> (Ok 2%nat, σ)).
Proof.
  intros Hs Hb.
  assert (Hn : ncomponents o σ = (Ok (self_J o), σ))
    by (unfold ncomponents; by rewrite Hb).
  assert (Hne : self_J o <> 2%nat -> ncomponents o σ <> (Ok 2%nat, σ)).
  { rewrite Hn. intros HJ2 H. injection H. done. }
  destruct (klass o) eqn:Hk; try done.
  - destruct (sample0D_inv _ _ _ Hk Hs)
      as (a & J & I & W & U & s & R & Hl & HJ & HI & _ & _ & Ho).
    exists a. destruct (sample0D_shape gesdd o σ a Hk Hs Hl) as [_ HI2].
    assert (self_J o = J /\ self_I o = Some I) as [HJo HIo] by (by rewrite Ho).
    split; [done |]. split; [congruence |].
    split; [rewrite HIo; simpl; congruence |]. tauto.
  - destruct (sample1D_inv _ _ _ Hk Hs)
      as (a & J & nQ & I & covs & usrs & Hl & HJ & _ & HI & _ & _ & Ho).
    exists a.
    assert (self_J o = J /\ self_I o = Some I) as [HJo HIo] by (by rewrite Ho).
    split; [done |]. split; [congruence |].
    split; [rewrite HIo; simpl; congruence |].
    split; [done |]. tauto.
Qed.

Lemma ncomponents_is_observation_count_witness :
  sample gesdd_demo demo0D store_demo /\ is_bivariate (klass demo0D) = true /\
  exists a,
    load store_demo (self_y demo0D) = Ok a /\
    np.shape_at a 0 = Ok 4%nat /\
    attr (self_I demo0D) = np.shape_at a 1 /\
    (klass demo0D = BivariateDataset0D -> self_I demo0D = Some 2%nat) /\
    ncomponents demo0D store_demo = (Ok 4%nat, store_demo) /\
    nobservations demo0D store_demo = (Ok 4%nat, store_demo) /\
    samplesize demo0D store_demo = (Ok 4%nat, store_demo) /\
    (4%nat <> 2%nat -> ncomponents demo0D store_demo <> (Ok 2%nat, store_demo)).
Proof.
  assert (Hs0 : sample gesdd_demo demo0D store_demo) by (vm_compute; reflexivity).
  split; [exact Hs0 |]. split; [reflexivity |].
  exact (ncomponents_is_observation_count gesdd_demo demo0D store_demo
           Hs0 eq_refl).
Defined.

(** ** C5 and C9: queries and the store *)

(** C5.  Determinism.  A query leaves the store as it is, so asking it
    again gives the same answer, down to the exception raised; and the
    answer depends on the store only through the contents of the backing
    array: in any store where [self.y] reads the same, the answer is the
    same. *)
Theorem query_determinism gesdd sqrt q o σ :
  snd (ask gesdd sqrt q o σ) = σ /\
  ask gesdd sqrt q o (snd (ask gesdd sqrt q o σ)) = ask gesdd sqrt q o σ /\
  forall σ', load σ' (self_y o) = load σ (self_y o) ->
    fst (ask gesdd sqrt q o σ') = fst (ask gesdd sqrt q o σ).
Proof.
  destruct (stable_ask gesdd sqrt q o σ) as [Hs Hf].
  split; [done |]. split; [by rewrite Hs | done].
Qed.

Lemma query_determinism_witness :
  load (<[3%positive := y_3col]> store_demo) (self_y demo1D) =
  load store_demo (self_y demo1D) /\
  fst (ask gesdd_demo (fun x => x) (Q_get_frame 1) demo1D
           (<[3%positive := y_3col]> store_demo)) =
  fst (ask gesdd_demo (fun x => x) (Q_get_frame 1) demo1D store_demo).
Proof.
  assert (H : load (<[3%positive := y_3col]> store_demo) (self_y demo1D) =
              load store_demo (self_y demo1D)) by (vm_compute; reflexivity).
  split; [exact H |].
  exact (proj2 (proj2 (query_determinism gesdd_demo (fun x => x) (Q_get_frame 1)
                         demo1D store_demo))
           (<[3%positive := y_3col]> store_demo) H).
Defined.

Lemma copy_eq a : np.copy a = a.
Proof. by destruct a. Qed.

(** C9.  [toarray] returns a new array: it is not in the store before the
    call, so it is not the backing array, and its contents are those of
    the backing array.  Writing to it changes the copy, leaves the backing
    array as it was, and every query answers as before.  No query writes
    to the store, and [toarray] only adds the copy. *)
Theorem toarray_defensive_copy gesdd sqrt o σ a :
  is_bivariate (klass o) = true -> load σ (self_y o) = Ok a ->
  exists l,
    toarray o σ = (Ok (Whole l), <[l := a]> σ) /\
    σ !! l = None /\ l <> owner (self_y o) /\
    load (<[l := a]> σ) (Whole l) = Ok a /\
    load (<[l := a]> σ) (self_y o) = Ok a /\
    (forall k v,
       let σ'' := snd (setitem l k v (<[l := a]> σ)) in
       ((k < length (np.data a))%nat ->
        load σ'' (Whole l) = Ok (NdArray (np.shape a) (<[k := v]> (np.data a)))) /\
       load σ'' (self_y o) = Ok a /\
       forall q, fst (ask gesdd sqrt q o σ'') = fst (ask gesdd sqrt q o σ)) /\
    (forall q, snd (ask gesdd sqrt q o σ) = σ).
Proof.
  intros Hb Hl. exists (fresh (dom σ)).
  pose proof (fresh_not_owner _ _ _ Hl) as Hne.
  assert (Hnone : σ !! fresh (dom σ) = None).
  { apply not_elem_of_dom. apply is_fresh. }
  split.
  { unfold toarray, read, alloc, mbind, M_bind. rewrite Hb, Hl.
    by rewrite copy_eq. }
  split; [done |]. split; [done |].
  split; [simpl; by rewrite lookup_insert_eq |].
  assert (Hl0 : load (<[fresh (dom σ) := a]> σ) (self_y o) = Ok a)
    by (by rewrite load_insert_other).
  split; [done |].
  split.
  - intros k v. unfold setitem. rewrite lookup_insert_eq.
    destruct (Nat.ltb_spec k (length (np.data a))) as [Hk | Hk]; cbn [snd].
    + rewrite insert_insert_eq.
      assert (Hl' : load (<[fresh (dom σ) :=
                            NdArray (np.shape a) (<[k := v]> (np.data a))]> σ)
                         (self_y o) = Ok a)
        by (by rewrite load_insert_other).
      split; [intros _; simpl; by rewrite lookup_insert_eq |].
      split; [done |].
      intros q. apply (stable_ask gesdd sqrt q o σ). by rewrite Hl'.
    + split; [intros; lia |]. split; [done |].
      intros q. apply (stable_ask gesdd sqrt q o σ). by rewrite Hl0.
  - intros q. apply (stable_ask gesdd sqrt q o σ).
Qed.

Lemma toarray_defensive_copy_witness :
  is_bivariate (klass demo0D) = true /\
  load store_demo (self_y demo0D) = Ok y_demo /\
  exists l,
    toarray demo0D store_demo = (Ok (Whole l), <[l := y_demo]> store_demo) /\
    store_demo !! l = None /\ l <> owner (self_y demo0D) /\
    (let σ'' := snd (setitem l 0 7 (<[l := y_demo]> store_demo)) in
     load σ'' (Whole l) =
       Ok (NdArray (np.shape y_demo) (<[0%nat := 7]> (np.data y_demo))) /\
     load σ'' (self_y demo0D) = Ok y_demo /\
     forall q, fst (ask gesdd_demo (fun x => x) q demo0D σ'') =
               fst (ask gesdd_demo (fun x => x) q demo0D store_demo)).
Proof.
  split; [reflexivity |]. split; [reflexivity |].
  destruct (toarray_defensive_copy gesdd_demo (fun x => x) demo0D store_demo
              y_demo eq_refl eq_refl)
    as (l & H1 & H2 & H3 & _ & _ & H6 & _).
  exists l. do 3 (split; [done |]).
  destruct (H6 0%nat 7) as (Ha & Hb & Hc).
  split; [apply Ha; simpl; lia |]. split; [exact Hb | exact Hc].
Defined.

(** ** C3 and C6: frames *)

Section Frames.
Variable gesdd : np.routine.

(** [get_frame] on a [BivariateDataset1D], in terms of the contents of its
    data. *)
Lemma get_frame_build o σ k a :
  klass o = BivariateDataset1D -> load σ (self_y o) = Ok a ->
  get_frame gesdd o k σ =
  (q ← np.index1_3 a k; build0D gesdd (Frame (self_y o) q) (np.pick1 a q), σ).
Proof.
  intros Hk Hl. unfold get_frame. rewrite Hk.
  unfold read, lift, mbind at 1 2, M_bind. rewrite Hl.
  destruct (np.index1_3 a k) as [q |]; [| done].
  rewrite init0D_build. simpl. by rewrite Hl.
Qed.

(** A frame at a position of the node axis is a [BivariateDataset0D] of the
    same store; its covariance is the covariance of that node. *)
Lemma get_frame_Ok o σ nQ k q W :
  sample gesdd o σ -> klass o = BivariateDataset1D ->
  self_Q o = Some nQ -> cov o σ = (Ok W, σ) ->
  np.norm_index nQ k = Ok q ->
  exists f,
    get_frame gesdd o k σ = (Ok f, σ) /\
    klass f = BivariateDataset0D /\ self_y f = Frame (self_y o) q /\
    sample gesdd f σ /\
    cov f σ = (Ok (np.pick0 W q), σ) /\ np.take0 W k = Ok (np.pick0 W q).
Proof.
  intros Hs Hk HQ HW Hq.
  destruct (sample1D_inv _ _ _ Hk Hs)
    as (a & J & nQ' & I & covs & usrs & Hl & HJ & HnQ & HI & Hc & Hu & Ho).
  assert (nQ' = nQ) as -> by (rewrite Ho in HQ; simpl in HQ; congruence).
  rewrite (cov_1D _ _ _ _ _ Hk Hl HQ Hc) in HW. injection HW as <-.
  pose proof (norm_index_Ok _ _ _ Hq) as (_ & Hlt & _).
  pose proof (rmap_length _ _ _ Hc) as Lc. rewrite length_seq in Lc.
  set (d := NdArray [] []).
  (* the shape of the data *)
  unfold np.shape_at in HJ, HnQ, HI.
  destruct (np.shape a) as [| J' [| nQ'' [| I' rest]]] eqn:Es; try done.
  simpl in HJ, HnQ, HI. injection HJ as ->. injection HnQ as ->. injection HI as ->.
  (* the covariance and the decomposition of node q *)
  assert (Hcq : np.cov (np.T (np.pick1 a q)) 1 = Ok (nth q covs d)).
  { pose proof (rmap_nth _ _ _ q 0%nat d Hc) as H.
    rewrite length_seq, seq_nth in H by lia. specialize (H Hlt).
    unfold node_cov, np.take1_3, np.index1_3, np.index1, np.ndim in H.
    rewrite Es in H. simpl in H. rewrite norm_index_nat in H by done.
    exact H. }
  assert (Hsq : node_svd gesdd (nth q covs d) = Ok (nth q usrs (d, d, d))).
  { apply rmap_nth; [done | lia]. }
  assert (HWq : np.pick0 (np.array covs) q = nth q covs d).
  { pose proof (iter_node_covs _ _ _ _ Hc) as Hit.
    unfold np.iter in Hit. simpl in Hit. injection Hit as Hit.
    rewrite <- Hit at 2.
    rewrite (nth_indep _ d (np.pick0 (np.array covs) 0))
      by (rewrite length_map, length_seq; lia).
    rewrite (map_nth (np.pick0 (np.array covs))), seq_nth by lia. done. }
  destruct (nth q usrs (d, d, d)) as [[U s] R] eqn:Eu.
  assert (Hb : build0D gesdd (Frame (self_y o) q) (np.pick1 a q) =
               Ok (Dataset BivariateDataset0D (Frame (self_y o) q) J None
                           (Some I) (Some U) (Some s) (Some R))).
  { unfold build0D, np.shape_at, np.pick1. rewrite Es. cbn [np.shape nth_error].
    cbn [mbind result_bind].
    change (NdArray (J :: I :: rest) _) with
      (match J :: nQ :: I :: rest with
       | d0 :: d1 :: rest0 =>
           NdArray (d0 :: rest0)
             (flat_map (fun j => map (fun b =>
                np.item a ((j * d1 + q) * np.numel rest0 + b)%nat)
                (seq 0 (np.numel rest0))) (seq 0 d0))
       | _ => a
       end).
    rewrite <- Es. fold (np.pick1 a q). rewrite Hcq. cbn [mbind result_bind].
    unfold node_svd, mbind, result_bind in Hsq.
    destruct (np.linalg_svd gesdd (nth q covs d)) as [usr |]; [| done].
    cbn [mbind result_bind]. by rewrite Hsq. }
  eexists. split.
  { rewrite (get_frame_build _ _ _ _ Hk Hl).
    unfold np.index1_3, np.index1, np.ndim. rewrite Es. simpl.
    rewrite Hq. cbn [mbind result_bind]. by rewrite Hb. }
  split; [done |]. split; [done |]. split.
  { unfold sample. cbn [klass self_y]. rewrite init0D_build.
    cbn [load]. rewrite Hl. cbn [mbind result_bind]. by rewrite Hb. }
  split.
  - rewrite (cov_0D _ σ (np.pick1 a q)); [| done | simpl; by rewrite Hl].
    by rewrite Hcq, HWq.
  - unfold np.take0. simpl. rewrite Lc, Hq. done.
Qed.
End Frames.

Lemma sample1D_cov gesdd o σ :
  sample gesdd o σ -> klass o = BivariateDataset1D ->
  exists nQ W, self_Q o = Some nQ /\ cov o σ = (Ok W, σ).
Proof.
  intros Hs Hk.
  destruct (sample1D_inv _ _ _ Hk Hs)
    as (a & J & nQ & I & covs & usrs & Hl & _ & _ & _ & Hc & _ & Ho).
  assert (HQ : self_Q o = Some nQ) by (by rewrite Ho).
  exists nQ, (np.array covs). split; [done |]. by eapply cov_1D.
Qed.

Lemma get_frame_index gesdd o σ nQ k :
  sample gesdd o σ -> klass o = BivariateDataset1D -> self_Q o = Some nQ ->
  exists a, load σ (self_y o) = Ok a /\
    get_frame gesdd o k σ =
    (q ← np.norm_index nQ k;
     build0D gesdd (Frame (self_y o) q) (np.pick1 a q), σ).
Proof.
  intros Hs Hk HQ.
  destruct (sample1D_inv _ _ _ Hk Hs)
    as (a & J & nQ' & I & covs & usrs & Hl & HJ & HnQ & HI & _ & _ & Ho).
  assert (nQ' = nQ) as -> by (rewrite Ho in HQ; simpl in HQ; congruence).
  exists a. split; [done |].
  rewrite (get_frame_build _ _ _ _ _ Hk Hl).
  unfold np.shape_at in HJ, HnQ, HI.
  destruct (np.shape a) as [| J' [| nQ'' [| I' rest]]] eqn:Es; try done.
  simpl in HnQ. injection HnQ as ->.
  unfold np.index1_3, np.index1, np.ndim. by rewrite Es.
Qed.

(** C3.  Frame extraction consistency.  For every [BivariateDataset1D] [b]
    of the store and every node index [k] with [0 <= k < Q], [get_frame]
    returns a [BivariateDataset0D] whose data is the view [b.y[:,k,:]], and
    the covariance of the frame is the entry [b.cov[k]] of the covariance
    of [b]; in exact arithmetic the two are equal. *)
Theorem frame_covariance gesdd b σ nQ k :
  sample gesdd b σ -> klass b = BivariateDataset1D ->
  self_Q b = Some nQ -> (0 <= k < Z.of_nat nQ)%Z ->
  exists f C W,
    get_frame gesdd b k σ = (Ok f, σ) /\
    klass f = BivariateDataset0D /\
    self_y f = Frame (self_y b) (Z.to_nat k) /\
    cov f σ = (Ok C, σ) /\ cov b σ = (Ok W, σ) /\ np.take0 W k = Ok C.
Proof.
  intros Hs Hk HQ Hr.
  destruct (sample1D_cov _ _ _ Hs Hk) as (nQ' & W & HQ' & HW).
  assert (nQ' = nQ) as -> by congruence.
  assert (Hq : np.norm_index nQ k = Ok (Z.to_nat k)).
  { rewrite <- (Z2Nat.id k) at 1 by lia. apply norm_index_nat. lia. }
  destruct (get_frame_Ok gesdd b σ nQ k _ W Hs Hk HQ HW Hq)
    as (f & Hf & Hkf & Hyf & _ & Hcf & Ht).
  by exists f, (np.pick0 W (Z.to_nat k)), W.
Qed.

Lemma frame_covariance_witness :
  sample gesdd_demo demo1D store_demo /\
  exists f C W,
    get_frame gesdd_demo demo1D 1 store_demo = (Ok f, store_demo) /\
    klass f = BivariateDataset0D /\
    self_y f = Frame (self_y demo1D) (Z.to_nat 1) /\
    cov f store_demo = (Ok C, store_demo) /\
    cov demo1D store_demo = (Ok W, store_demo) /\ np.take0 W 1 = Ok C.
Proof.
  assert (Hs1 : sample gesdd_demo demo1D store_demo) by (vm_compute; reflexivity).
  split; [exact Hs1 |].
  refine (frame_covariance gesdd_demo demo1D store_demo 2 1 Hs1
            eq_refl eq_refl _).
  lia.
Defined.

(** C6.  Node indices of [get_frame], as numpy reads them.  [get_frame]
    raises [IndexError] exactly when the index is outside [-Q, Q); an
    index in [-Q, 0) counts from the end and gives the frame of node
    [k + Q]. *)
Theorem frame_index_error gesdd b σ nQ k :
  sample gesdd b σ -> klass b = BivariateDataset1D -> self_Q b = Some nQ ->
  (fst (get_frame gesdd b k σ) = Raise IndexError <->
   (k < - Z.of_nat nQ \/ Z.of_nat nQ <= k)%Z) /\
  ((- Z.of_nat nQ <= k < 0)%Z ->
   exists f, get_frame gesdd b k σ = (Ok f, σ) /\
     get_frame gesdd b (k + Z.of_nat nQ) σ = (Ok f, σ)).
Proof.
  intros Hs Hk HQ.
  destruct (sample1D_cov _ _ _ Hs Hk) as (nQ' & W & HQ' & HW).
  assert (nQ' = nQ) as -> by congruence.
  split; [split |].
  - intros Hr.
    destruct (np.norm_index nQ k) as [q | e] eqn:Eq.
    + destruct (get_frame_Ok gesdd b σ nQ k q W Hs Hk HQ HW Eq) as (f & Hf & _).
      rewrite Hf in Hr. done.
    + apply norm_index_Raise in Eq. tauto.
  - intros Hout.
    destruct (get_frame_index gesdd b σ nQ k Hs Hk HQ) as (a & _ & ->).
    destruct (np.norm_index nQ k) as [q | e] eqn:Eq.
    + apply norm_index_Ok in Eq. lia.
    + apply norm_index_Raise in Eq as [-> _]. done.
  - intros Hneg.
    assert (Hq : np.norm_index nQ k = Ok (Z.to_nat (k + Z.of_nat nQ))).
    { unfold np.norm_index.
      destruct (Z.leb_spec 0 k); [lia |].
      destruct (Z.leb_spec (- Z.of_nat nQ) k); [done | lia]. }
    assert (Hq' : np.norm_index nQ (k + Z.of_nat nQ) =
                  Ok (Z.to_nat (k + Z.of_nat nQ))).
    { rewrite <- (Z2Nat.id (k + Z.of_nat nQ)) at 1 by lia.
      apply norm_index_nat. lia. }
    destruct (get_frame_Ok gesdd b σ nQ k _ W Hs Hk HQ HW Hq) as (f & Hf & _).
    exists f. split; [done |].
    destruct (get_frame_index gesdd b σ nQ k Hs Hk HQ) as (a & Hl & Hk1).
    destruct (get_frame_index gesdd b σ nQ (k + Z.of_nat nQ) Hs Hk HQ)
      as (a' & Hl' & Hk2).
    rewrite Hl in Hl'. injection Hl' as <-.
    rewrite Hk2, Hq'. rewrite Hk1, Hq in Hf. exact Hf.
Qed.

Lemma frame_index_error_witness :
  sample gesdd_demo demo1D store_demo /\
  (fst (get_frame gesdd_demo demo1D (-3) store_demo) = Raise IndexError <->
   (-3 < - Z.of_nat 2 \/ Z.of_nat 2 <= -3)%Z) /\
  exists f, get_frame gesdd_demo demo1D (-1) store_demo = (Ok f, store_demo) /\
    get_frame gesdd_demo demo1D (-1 + Z.of_nat 2) store_demo = (Ok f, store_demo).
Proof.
  assert (Hs1 : sample gesdd_demo demo1D store_demo) by (vm_compute; reflexivity).
  split; [exact Hs1 |]. split.
  - exact (proj1 (frame_index_error gesdd_demo demo1D store_demo 2 (-3)
                    Hs1 eq_refl eq_refl)).
  - refine (proj2 (frame_index_error gesdd_demo demo1D store_demo 2 (-1)
                     Hs1 eq_refl eq_refl) _).
    simpl. lia.
Defined.

(** The index -1 is below zero and [get_frame] answers with the frame of
    the last node. *)
Lemma frame_index_error_counterexample :
  (-1 < 0)%Z /\
  (exists f, fst (get_frame gesdd_demo demo1D (-1) store_demo) = Ok f) /\
  fst (get_frame gesdd_demo demo1D (-1) store_demo) <> Raise IndexError.
Proof.
  split; [lia |]. split.
  - eexists. vm_compute. reflexivity.
  - vm_compute. discriminate.
Qed.

(** ** Sums and the covariance of a matrix of observations *)

Lemma indices_1 n : np.indices [n] = map (fun i => [i]) (seq 0 n).
Proof.
  simpl. generalize 0%nat. induction n as [| n IH]; simpl; intros s; [done |].
  by rewrite IH.
Qed.

Lemma map_tab {A B} (g : A -> B) (f : nat -> nat -> A) n m s :
  map g (flat_map (fun i => map (f i) (seq 0 m)) (seq s n)) =
  flat_map (fun i => map (fun j => g (f i j)) (seq 0 m)) (seq s n).
Proof.
  revert s. induction n as [| n IH]; simpl; intros s; [done |].
  by rewrite map_app, map_map, IH.
Qed.

Lemma tab_ext {A} (f g : nat -> nat -> A) n m s :
  (forall i j, f i j = g i j) ->
  flat_map (fun i => map (f i) (seq 0 m)) (seq s n) =
  flat_map (fun i => map (g i) (seq 0 m)) (seq s n).
Proof.
  intros H. revert s. induction n as [| n IH]; simpl; intros s; [done |].
  rewrite IH. f_equal. apply map_ext. intros j. apply H.
Qed.

(** The transpose of a matrix. *)
Lemma T_2d a m n :
  np.shape a = [m; n] ->
  np.T a = np.tab2 n m (fun i j => np.item a (j * n + i)%nat).
Proof.
  intros Hs. unfold np.T, np.tab2. rewrite Hs.
  change (rev [m; n]) with [n; m]. f_equal.
  change (np.indices [n; m]) with
    (flat_map (fun i => map (cons i) (np.indices [m])) (seq 0 n)).
  rewrite indices_1.
  transitivity (map (fun ix => np.item a (np.offset [m; n] (rev ix)))
                    (flat_map (fun i => map (fun j => [i; j]) (seq 0 m)) (seq 0 n))).
  { f_equal. induction (seq 0 n) as [| i l IH]; simpl; [done |].
    by rewrite map_map, IH. }
  rewrite map_tab. apply tab_ext. intros i j. simpl. f_equal. lia.
Qed.

Lemma item_tab2 m n f i j :
  (i < m)%nat -> (j < n)%nat -> np.item (np.tab2 m n f) (i * n + j) = f i j.
Proof. intros Hi Hj. unfold np.item, np.tab2. simpl. by rewrite nth_tab. Qed.

(** The rows of the transpose are the columns. *)
Lemma row_T a J n v :
  np.shape a = [J; n] -> (v < n)%nat -> np.row (np.T a) J v = np.lane a v.
Proof.
  intros Hs Hv. unfold np.row, np.lane. rewrite Hs. simpl.
  apply map_ext_in. intros j Hj%in_seq.
  rewrite (T_2d a J n Hs), item_tab2 by lia. f_equal. lia.
Qed.

Lemma Qdot_centre_self l : np.Qdot (np.centre l) (np.centre l) = np.sqdev l.
Proof.
  unfold np.Qdot, np.centre, np.sqdev. f_equal.
  generalize (np.mean1 l). intros m.
  induction l as [| x l IH]; simpl; [done |]. by rewrite IH.
Qed.

(** The entries of the covariance of a matrix with [J] observations of
    two components. *)
Lemma cov_entries a J bias :
  np.shape a = [J; 2%nat] ->
  exists C, np.cov (np.T a) bias = Ok C /\ np.shape C = [2%nat; 2%nat] /\
    forall i j, (i < 2)%nat -> (j < 2)%nat ->
      at2 C i j =
      np.Qdot (np.centre (np.lane a i)) (np.centre (np.lane a j)) *
      (1 / inject_Z (let fact := (Z.of_nat J - (if (bias =? 0)%Z then 1 else 0))%Z
                     in if (fact <=? 0)%Z then 0 else fact)).
Proof.
  intros Hs. unfold np.cov, np.ndim. rewrite (T_2d a J 2 Hs).
  cbn [np.tab2 np.shape length Nat.ltb Nat.leb Nat.eqb].
  eexists. split; [reflexivity |]. split; [reflexivity |].
  intros i j Hi Hj. unfold at2, np.squeeze.
  cbn [np.shape np.tab2 List.filter Nat.eqb negb nth np.item np.data].
  rewrite nth_tab by lia. simpl plus.
  rewrite <- (T_2d a J 2 Hs).
  assert (Hrow : forall v, (v < 2)%nat ->
            nth v (map (fun r => np.centre (np.row (np.T a) J r)) (seq 0 2)) [] =
            np.centre (np.lane a v)).
  { intros v Hv. destruct v as [| [| v]]; [| | lia]; simpl;
      by rewrite (row_T a J 2) by (done || lia). }
  by rewrite !Hrow by lia.
Qed.

(** ** C4: the two estimators *)

Lemma Qcount_pos n : (1 <= n)%nat -> 0 < np.Qcount n.
Proof.
  intros Hn. unfold np.Qcount. change 0 with (inject_Z 0).
  rewrite <- Zlt_Qlt. lia.
Qed.

Lemma length_lane a k : length (np.lane a k) = hd 0%nat (np.shape a).
Proof. unfold np.lane. by rewrite length_map, length_seq. Qed.

(** The variance with [ddof = 1] divides by [N - 1]. *)
Lemma var1_unbiased l :
  (2 <= length l)%nat ->
  np.var1 1 l * (np.Qcount (length l) - 1) == np.sqdev l.
Proof.
  intros Hl. unfold np.var1, np.Qcount.
  rewrite Z.max_l by lia.
  assert (H : inject_Z (Z.of_nat (length l) - 1) == inject_Z (Z.of_nat (length l)) - 1).
  { unfold Z.sub. rewrite inject_Z_plus. reflexivity. }
  rewrite H.
  assert (Hpos : 1 < inject_Z (Z.of_nat (length l))).
  { change 1 with (inject_Z 1). rewrite <- Zlt_Qlt. lia. }
  field. lra.
Qed.

(** [std] on any dataset whose data has [J >= 2] observations. *)
Lemma std_unbiased sqrt (o : dataset) σ a J rest :
  load σ (self_y o) = Ok a -> np.shape a = J :: rest -> (2 <= J)%nat ->
  exists S, std sqrt o σ = (Ok S, σ) /\ np.shape S = rest /\
    forall k, (k < np.numel rest)%nat ->
      exists v, np.item S k = sqrt v /\
        v * (np.Qcount J - 1) == np.sqdev (np.lane a k).
Proof.
  intros Hl Hs HJ. unfold std, read, lift, mbind, M_bind. rewrite Hl.
  unfold np.std. rewrite Hs. eexists. split; [reflexivity |].
  unfold np.reduce0. rewrite Hs. cbn [tl np.shape]. split; [done |].
  intros k Hk. exists (np.var1 1 (np.lane a k)). split.
  - unfold np.item. cbn [np.data].
    rewrite (nth_indep _ 0 (sqrt (np.var1 1 (np.lane a 0))))
      by (rewrite length_map, length_seq; lia).
    rewrite (map_nth (fun k => sqrt (np.var1 1 (np.lane a k)))).
    by rewrite seq_nth.
  - pose proof (var1_unbiased (np.lane a k)) as H.
    rewrite length_lane, Hs in H. simpl in H. apply H. lia.
Qed.

Lemma cov_biased a J C i j :
  np.shape a = [J; 2%nat] -> (1 <= J)%nat ->
  np.cov (np.T a) 1 = Ok C -> (i < 2)%nat -> (j < 2)%nat ->
  at2 C i j * np.Qcount J ==
  np.Qdot (np.centre (np.lane a i)) (np.centre (np.lane a j)).
Proof.
  intros Hs HJ HC Hi Hj.
  destruct (cov_entries a J 1 Hs) as (C' & HC' & _ & He).
  rewrite HC in HC'. injection HC' as <-.
  rewrite (He i j Hi Hj). simpl Z.eqb. cbv iota. cbv zeta.
  destruct (Z.leb_spec (Z.of_nat J - 0) 0); [lia |].
  rewrite Z.sub_0_r. fold (np.Qcount J).
  pose proof (Qcount_pos J HJ). field. lra.
Qed.

Lemma cov_unbiased a J C i j :
  np.shape a = [J; 2%nat] -> (2 <= J)%nat ->
  np.cov (np.T a) 0 = Ok C -> (i < 2)%nat -> (j < 2)%nat ->
  at2 C i j * (np.Qcount J - 1) ==
  np.Qdot (np.centre (np.lane a i)) (np.centre (np.lane a j)).
Proof.
  intros Hs HJ HC Hi Hj.
  destruct (cov_entries a J 0 Hs) as (C' & HC' & _ & He).
  rewrite HC in HC'. injection HC' as <-.
  rewrite (He i j Hi Hj). simpl Z.eqb. cbv iota. cbv zeta.
  destruct (Z.leb_spec (Z.of_nat J - 1) 0); [lia |].
  assert (HQ1 : inject_Z (Z.of_nat J - 1) == np.Qcount J - 1).
  { unfold Z.sub, np.Qcount. rewrite inject_Z_plus. reflexivity. }
  rewrite HQ1.
  assert (Hpos : 1 < np.Qcount J).
  { unfold np.Qcount. change 1 with (inject_Z 1). rewrite <- Zlt_Qlt. lia. }
  field. lra.
Qed.

(** The covariance of a node of a [BivariateDataset1D] is the biased
    covariance of the observations at that node. *)
Lemma node_cov_biased gesdd b σ nQ W q :
  sample gesdd b σ -> klass b = BivariateDataset1D ->
  self_Q b = Some nQ -> cov b σ = (Ok W, σ) -> (q < nQ)%nat ->
  exists a,
    load σ (self_y b) = Ok a /\
    np.shape (np.pick1 a q) = [self_J b; 2%nat] /\
    ((1 <= self_J b)%nat ->
     forall i j, (i < 2)%nat -> (j < 2)%nat ->
       at2 (np.pick0 W q) i j * np.Qcount (self_J b) ==
       np.Qdot (np.centre (np.lane (np.pick1 a q) i))
               (np.centre (np.lane (np.pick1 a q) j))).
Proof.
  intros Hs Hk HQ HW Hq.
  destruct (get_frame_Ok gesdd b σ nQ (Z.of_nat q) q W Hs Hk HQ HW
              (norm_index_nat _ _ Hq))
    as (f & _ & Hkf & Hyf & Hsf & Hcf & _).
  destruct (sample1D_inv _ _ _ Hk Hs)
    as (a & J & nQ' & I & covs & usrs & Hl & HJ & HnQ & _ & _ & _ & Ho).
  exists a. split; [done |].
  assert (Hlf : load σ (self_y f) = Ok (np.pick1 a q))
    by (rewrite Hyf; simpl; by rewrite Hl).
  destruct (sample0D_shape gesdd f σ _ Hkf Hsf Hlf) as [Hshf _].
  assert (HJb : self_J b = J) by (by rewrite Ho).
  assert (HJf : self_J f = J).
  { unfold np.shape_at in HJ, HnQ.
    destruct (np.shape a) as [| J' [| nQ'' rest]] eqn:Es; try done.
    simpl in HJ. injection HJ as ->.
    unfold np.pick1 in Hshf. rewrite Es in Hshf. simpl in Hshf.
    by injection Hshf. }
  rewrite HJb, <- HJf. split; [done |].
  intros HJ1 i j Hi Hj.
  apply cov_biased; try done.
  rewrite (cov_0D f σ _ Hkf Hlf) in Hcf. by injection Hcf.
Qed.

(** C4.  Estimator convention.  Writing [D i j] for the sum over the
    observations of the products of the deviations of components [i] and
    [j] from their means: [std], on every dataset with [J >= 2]
    observations, returns the square roots of the sums of squared
    deviations divided by [J - 1].  On a [BivariateDataset0D] the
    covariance used by [_init_svd], which is [get_cov] with its default
    [bias = 1], has entries [D i j / J], and [get_cov] with [bias = 0] has
    entries [D i j / (J - 1)]; so the variance under the root of [std] and
    the diagonal of the default covariance differ by the factor
    [J / (J - 1)].  On a [BivariateDataset1D] the covariance of every node
    has the entries [D i j / J] of the observations at that node. *)
Theorem estimator_convention gesdd sqrt :
  (forall (d : dataset) σ a J rest,
     load σ (self_y d) = Ok a -> np.shape a = J :: rest -> (2 <= J)%nat ->
     exists S, std sqrt d σ = (Ok S, σ) /\ np.shape S = rest /\
       forall k, (k < np.numel rest)%nat ->
         exists v, np.item S k = sqrt v /\
           v * (np.Qcount J - 1) == np.sqdev (np.lane a k)) /\
  (forall o σ a,
     sample gesdd o σ -> klass o = BivariateDataset0D ->
     load σ (self_y o) = Ok a -> (2 <= self_J o)%nat ->
     exists S C C0,
       std sqrt o σ = (Ok S, σ) /\ cov o σ = (Ok C, σ) /\
       get_cov o 0 σ = (Ok C0, σ) /\
       forall i j, (i < 2)%nat -> (j < 2)%nat ->
         let D i j :=
           np.Qdot (np.centre (np.lane a i)) (np.centre (np.lane a j)) in
         at2 C i j * np.Qcount (self_J o) == D i j /\
         at2 C0 i j * (np.Qcount (self_J o) - 1) == D i j /\
         exists v, np.item S i = sqrt v /\
           v * (np.Qcount (self_J o) - 1) == D i i /\
           at2 C i i * np.Qcount (self_J o) == v * (np.Qcount (self_J o) - 1)) /\
  (forall b σ nQ W q,
     sample gesdd b σ -> klass b = BivariateDataset1D ->
     self_Q b = Some nQ -> cov b σ = (Ok W, σ) -> (q < nQ)%nat ->
     (1 <= self_J b)%nat ->
     exists a,
       load σ (self_y b) = Ok a /\
       np.shape (np.pick1 a q) = [self_J b; 2%nat] /\
       forall i j, (i < 2)%nat -> (j < 2)%nat ->
         at2 (np.pick0 W q) i j * np.Qcount (self_J b) ==
         np.Qdot (np.centre (np.lane (np.pick1 a q) i))
                 (np.centre (np.lane (np.pick1 a q) j))).
Proof.
  split; [| split].
  { intros d σ a J rest. apply std_unbiased. }
  - intros o σ a Hs Hk Hl HJ.
    destruct (sample0D_shape gesdd o σ a Hk Hs Hl) as [Hsh _].
    destruct (std_unbiased sqrt o σ a _ _ Hl Hsh HJ) as (S & HS & _ & Hv).
    destruct (cov_entries a (self_J o) 1 Hsh) as (C & HC & _).
    destruct (cov_entries a (self_J o) 0 Hsh) as (C0 & HC0 & _).
    exists S, C, C0. split; [done |].
    split; [rewrite (cov_0D o σ a Hk Hl); by rewrite HC |].
    split.
    { unfold get_cov, BivariateDataset_get_cov, read, lift, mbind, M_bind.
      by rewrite Hk, Hl, HC0. }
    intros i j Hi Hj D.
    assert (HCij : forall i j, (i < 2)%nat -> (j < 2)%nat ->
              at2 C i j * np.Qcount (self_J o) == D i j).
    { intros. apply cov_biased; (done || lia). }
    split; [by apply HCij |].
    split; [by apply cov_unbiased |].
    destruct (Hv i) as (v & Hv1 & Hv2); [simpl; lia |].
    exists v. split; [done |].
    unfold D. rewrite Qdot_centre_self.
    split; [done |]. rewrite Hv2, <- Qdot_centre_self. by apply HCij.
  - intros b σ nQ W q Hs Hk HQ HW Hq HJ.
    destruct (node_cov_biased gesdd b σ nQ W q Hs Hk HQ HW Hq)
      as (a & Hl & Hsh & H).
    exists a. split; [done |]. split; [done |]. by apply H.
Qed.

Lemma estimator_convention_witness :
  (sample gesdd_demo demo0D store_demo /\ (2 <= self_J demo0D)%nat /\
   exists S C C0,
     std (fun x => x) demo0D store_demo = (Ok S, store_demo) /\
     cov demo0D store_demo = (Ok C, store_demo) /\
     get_cov demo0D 0 store_demo = (Ok C0, store_demo) /\
     forall i j, (i < 2)%nat -> (j < 2)%nat ->
       at2 C i j * np.Qcount 4 ==
       np.Qdot (np.centre (np.lane y_demo i)) (np.centre (np.lane y_demo j))) /\
  (sample gesdd_demo demo1D store_demo /\
   exists W a,
     cov demo1D store_demo = (Ok W, store_demo) /\
     load store_demo (self_y demo1D) = Ok a /\
     forall i j, (i < 2)%nat -> (j < 2)%nat ->
       at2 (np.pick0 W 1) i j * np.Qcount 4 ==
       np.Qdot (np.centre (np.lane (np.pick1 a 1) i))
               (np.centre (np.lane (np.pick1 a 1) j))).
Proof.
  assert (Hs0 : sample gesdd_demo demo0D store_demo) by (vm_compute; reflexivity).
  assert (Hs1 : sample gesdd_demo demo1D store_demo) by (vm_compute; reflexivity).
  assert (HJ : (2 <= self_J demo0D)%nat) by (simpl; lia).
  assert (HJ1 : (1 <= self_J demo1D)%nat) by (simpl; lia).
  assert (Hq : (1 < 2)%nat) by lia.
  destruct (estimator_convention gesdd_demo (fun x => x)) as (_ & E0 & E1).
  split.
  - split; [exact Hs0 |]. split; [exact HJ |].
    destruct (E0 demo0D store_demo y_demo Hs0 eq_refl eq_refl HJ)
      as (S & C & C0 & H1 & H2 & H3 & H4).
    exists S, C, C0. do 3 (split; [done |]).
    intros i j Hi Hj. apply (H4 i j Hi Hj).
  - split; [exact Hs1 |].
    destruct (E1 demo1D store_demo 2%nat _ 1%nat Hs1 eq_refl eq_refl eq_refl Hq HJ1)
      as (a & Hl & _ & H).
    eexists _, a. split; [reflexivity |]. split; [exact Hl |]. exact H.
Defined.

(** ** Singular values and principal axes of an exact decomposition

    That the stored singular values are the eigenvalues of the covariance
    in descending order and the columns of [_U] its unit eigenvectors
    (C8) is a statement about the numbers LAPACK returns.  The module
    takes them as they come and changes signs only; the eigenvectors of a
    covariance are irrational in general, as [scenario_axes_irrational]
    shows for the first scenario of the specification, so that in float64
    the statement holds up to rounding and over the rationals it cannot
    hold at all.  This section proves what the sign convention keeps when
    the routine's answer happens to be an exact decomposition. *)

(** The algebra of one axis: from [W u = s r], [W r = s u], [W] positive
    semi-definite and [s >= 0], the vector [u] is an eigenvector. *)
Lemma axis_algebra (a b c d u0 u1 r0 r1 s : Q) :
  a * u0 + b * u1 == s * r0 -> c * u0 + d * u1 == s * r1 ->
  a * r0 + b * r1 == s * u0 -> c * r0 + d * r1 == s * u1 ->
  (forall x y, 0 <= x * (a * x + b * y) + y * (c * x + d * y)) ->
  0 <= s ->
  a * u0 + b * u1 == s * u0 /\ c * u0 + d * u1 == s * u1.
Proof.
  intros H1 H2 H3 H4 Hpsd Hs.
  pose proof (Hpsd (u0 - r0) (u1 - r1)) as Hz.
  assert (Hq : (u0 - r0) * (a * (u0 - r0) + b * (u1 - r1)) +
               (u1 - r1) * (c * (u0 - r0) + d * (u1 - r1)) ==
               - (s * ((u0 - r0) * (u0 - r0) + (u1 - r1) * (u1 - r1)))).
  { transitivity ((u0 - r0) * ((a * u0 + b * u1) - (a * r0 + b * r1)) +
                  (u1 - r1) * ((c * u0 + d * u1) - (c * r0 + d * r1))); [ring |].
    rewrite H1, H2, H3, H4. ring. }
  rewrite Hq in Hz.
  set (z0 := u0 - r0) in *. set (z1 := u1 - r1) in *.
  assert (Hsq0 : 0 <= z0 * z0) by nra.
  assert (Hsq1 : 0 <= z1 * z1) by nra.
  assert (Hp0 : 0 <= s * (z0 * z0)) by (by apply Qmult_le_0_compat).
  assert (Hp1 : 0 <= s * (z1 * z1)) by (by apply Qmult_le_0_compat).
  assert (Hz0 : s * (z0 * z0) == 0) by lra.
  assert (Hz1 : s * (z1 * z1) == 0) by lra.
  assert (Hzero : forall z, s * (z * z) == 0 -> s * z == 0).
  { intros z Hz'. destruct (Qlt_le_dec 0 s) as [Hpos | Hle].
    - assert (Hzz : z * z == 0).
      { apply (Qmult_integral s) in Hz' as [H0 | H0]; [lra | done]. }
      apply Qmult_integral in Hzz. assert (z == 0) as -> by tauto. ring.
    - assert (s == 0) as -> by lra. ring. }
  apply Hzero in Hz0, Hz1. unfold z0, z1 in *.
  split; lra.
Qed.

(** A decomposition of a symmetric positive semi-definite 2 x 2 matrix,
    entry by entry: both columns of [U] are eigenvectors. *)
Lemma svd_axes_scalar
  (w00 w01 w10 w11 u00 u01 u10 u11 s0 s1 r00 r01 r10 r11 : Q) :
  w00 == u00 * s0 * r00 + u01 * s1 * r10 ->
  w01 == u00 * s0 * r01 + u01 * s1 * r11 ->
  w10 == u10 * s0 * r00 + u11 * s1 * r10 ->
  w11 == u10 * s0 * r01 + u11 * s1 * r11 ->
  u00 * u00 + u10 * u10 == 1 -> u00 * u01 + u10 * u11 == 0 ->
  u01 * u01 + u11 * u11 == 1 ->
  r00 * r00 + r01 * r01 == 1 -> r00 * r10 + r01 * r11 == 0 ->
  r10 * r10 + r11 * r11 == 1 ->
  w01 == w10 ->
  (forall x y, 0 <= x * (w00 * x + w01 * y) + y * (w10 * x + w11 * y)) ->
  0 <= s1 -> s1 <= s0 ->
  (w00 * u00 + w01 * u10 == s0 * u00 /\ w10 * u00 + w11 * u10 == s0 * u10) /\
  (w00 * u01 + w01 * u11 == s1 * u01 /\ w10 * u01 + w11 * u11 == s1 * u11).
Proof.
  intros W00 W01 W10 W11 U00 U01 U11 R00 R01 R11 Hsym Hpsd Hs1 Hs10.
  split.
  - apply (axis_algebra w00 w01 w10 w11 u00 u10 r00 r01 s0); [| | | | done | lra].
    + rewrite Hsym, W00, W10.
      transitivity (s0 * r00 * (u00 * u00 + u10 * u10) +
                    s1 * r10 * (u00 * u01 + u10 * u11)); [ring |].
      rewrite U00, U01. ring.
    + rewrite <- Hsym, W01, W11.
      transitivity (s0 * r01 * (u00 * u00 + u10 * u10) +
                    s1 * r11 * (u00 * u01 + u10 * u11)); [ring |].
      rewrite U00, U01. ring.
    + rewrite W00, W01.
      transitivity (u00 * s0 * (r00 * r00 + r01 * r01) +
                    u01 * s1 * (r00 * r10 + r01 * r11)); [ring |].
      rewrite R00, R01. ring.
    + rewrite W10, W11.
      transitivity (u10 * s0 * (r00 * r00 + r01 * r01) +
                    u11 * s1 * (r00 * r10 + r01 * r11)); [ring |].
      rewrite R00, R01. ring.
  - apply (axis_algebra w00 w01 w10 w11 u01 u11 r10 r11 s1); [| | | | done | done].
    + rewrite Hsym, W00, W10.
      transitivity (s0 * r00 * (u00 * u01 + u10 * u11) +
                    s1 * r10 * (u01 * u01 + u11 * u11)); [ring |].
      rewrite U01, U11. ring.
    + rewrite <- Hsym, W01, W11.
      transitivity (s0 * r01 * (u00 * u01 + u10 * u11) +
                    s1 * r11 * (u01 * u01 + u11 * u11)); [ring |].
      rewrite U01, U11. ring.
    + rewrite W00, W01.
      transitivity (u00 * s0 * (r00 * r10 + r01 * r11) +
                    u01 * s1 * (r10 * r10 + r11 * r11)); [ring |].
      rewrite R01, R11. ring.
    + rewrite W10, W11.
      transitivity (u10 * s0 * (r00 * r10 + r01 * r11) +
                    u11 * s1 * (r10 * r10 + r11 * r11)); [ring |].
      rewrite R01, R11. ring.
Qed.

(** The promise of [np.linalg.svd] and the eigenvectors. *)
Lemma svd_principal_axes W U s R :
  symmetric W -> psd W -> is_svd W U s R -> principal_axes W U s.
Proof.
  intros Hsym Hpsd (HW & HU & HR & Hs10 & Hs1).
  unfold principal_axes. split; [done |]. split; [done |].
  pose proof (HW 0 0 ltac:(lia) ltac:(lia))%nat as W00.
  pose proof (HW 0 1 ltac:(lia) ltac:(lia))%nat as W01.
  pose proof (HW 1 0 ltac:(lia) ltac:(lia))%nat as W10.
  pose proof (HW 1 1 ltac:(lia) ltac:(lia))%nat as W11.
  pose proof (HU 0 0 ltac:(lia) ltac:(lia))%nat as U00.
  pose proof (HU 0 1 ltac:(lia) ltac:(lia))%nat as U01.
  pose proof (HU 1 1 ltac:(lia) ltac:(lia))%nat as U11.
  pose proof (HR 0 0 ltac:(lia) ltac:(lia))%nat as R00.
  pose proof (HR 0 1 ltac:(lia) ltac:(lia))%nat as R01.
  pose proof (HR 1 1 ltac:(lia) ltac:(lia))%nat as R11.
  unfold sum2, delta in *. simpl in U00, U01, U11, R00, R01, R11.
  assert (Hpsd' : forall x y,
            0 <= x * (at2 W 0 0 * x + at2 W 0 1 * y) +
                 y * (at2 W 1 0 * x + at2 W 1 1 * y)).
  { intros x y. apply (Hpsd (fun i => match i with O => x | _ => y end)). }
  destruct (svd_axes_scalar _ _ _ _ _ _ _ _ _ _ _ _ _ _
              W00 W01 W10 W11 U00 U01 U11 R00 R01 R11 Hsym Hpsd' Hs1 Hs10)
    as [[A0 A1] [B0 B1]].
  intros k Hk. destruct k as [| [| k]]; [| | lia].
  - split; [| done]. intros i Hi. destruct i as [| [| i]]; [done | done | lia].
  - split; [| done]. intros i Hi. destruct i as [| [| i]]; [done | done | lia].
Qed.

Lemma is_svd_imul_neg W U s R :
  is_svd W U s R -> is_svd W (np.imul U (-1)) s (np.imul R (-1)).
Proof.
  intros (HW & HU & HR & Hs10 & Hs1). unfold is_svd, sum2 in *.
  repeat split; try done; intros i j Hi Hj; rewrite !at2_imul_neg.
  - rewrite (HW i j Hi Hj). ring.
  - rewrite <- (HU i j Hi Hj). ring.
  - rewrite <- (HR i j Hi Hj). ring.
Qed.

Lemma Qdot_comm p q : np.Qdot p q == np.Qdot q p.
Proof.
  unfold np.Qdot. revert q. induction p as [| a p IH]; intros [| b q]; simpl;
    try reflexivity.
  rewrite IH. ring.
Qed.

Lemma Qsum_nonneg l : Forall (fun x => 0 <= x) l -> 0 <= np.Qsum l.
Proof.
  induction 1 as [| x l Hx Hl IH]; [simpl; lra |].
  change (0 <= x + np.Qsum l). lra.
Qed.

(** The quadratic form of the products of two lists is a sum of squares. *)
Lemma quad_form p q x y :
  length p = length q ->
  x * (np.Qdot p p * x + np.Qdot p q * y) +
  y * (np.Qdot q p * x + np.Qdot q q * y) ==
  np.Qsum (map (fun t => (x * fst t + y * snd t) * (x * fst t + y * snd t))
               (combine p q)).
Proof.
  unfold np.Qdot. revert q. induction p as [| a p IH]; intros [| b q] Hl;
    simpl in *; try discriminate; [ring |].
  rewrite <- (IH q) by lia. ring.
Qed.

Lemma quad_form_nonneg p q x y :
  length p = length q ->
  0 <= x * (np.Qdot p p * x + np.Qdot p q * y) +
       y * (np.Qdot q p * x + np.Qdot q q * y).
Proof.
  intros Hl. rewrite (quad_form p q x y Hl). apply Qsum_nonneg.
  apply List.Forall_forall. intros z [t [<- _]]%in_map_iff.
  set (w := x * fst t + y * snd t). nra.
Qed.

Lemma length_centre l : length (np.centre l) = length l.
Proof. unfold np.centre. by rewrite length_map. Qed.

Lemma cov_factor_nonneg J bias :
  0 <= 1 / inject_Z (let fact := (Z.of_nat J - (if (bias =? 0)%Z then 1 else 0))%Z
                     in if (fact <=? 0)%Z then 0 else fact).
Proof.
  cbv zeta.
  destruct (Z.leb_spec (Z.of_nat J - (if (bias =? 0)%Z then 1 else 0)) 0) as [H | H].
  - done.
  - apply Qlt_le_weak. apply Qlt_shift_div_l.
    + change 0 with (inject_Z 0). rewrite <- Zlt_Qlt. lia.
    + rewrite Qmult_0_l. lra.
Qed.

(** The covariance of a matrix of observations of two components is
    symmetric and positive semi-definite. *)
Lemma cov_symmetric_psd a J bias C :
  np.shape a = [J; 2%nat] -> np.cov (np.T a) bias = Ok C ->
  symmetric C /\ psd C.
Proof.
  intros Hs HC.
  destruct (cov_entries a J bias Hs) as (C' & HC' & _ & He).
  rewrite HC in HC'. injection HC' as <-.
  set (c := 1 / inject_Z _) in He.
  assert (Hc : 0 <= c).
  { apply cov_factor_nonneg. }
  split.
  - unfold symmetric. rewrite !He by lia. by rewrite Qdot_comm.
  - intros x. unfold sum2. rewrite !He by lia.
    set (p := np.centre (np.lane a 0)). set (q := np.centre (np.lane a 1)).
    pose proof (quad_form_nonneg p q (x 0%nat) (x 1%nat)) as Hq.
    assert (Hlen : length p = length q).
    { unfold p, q. by rewrite !length_centre, !length_lane. }
    specialize (Hq Hlen).
    set (Dpp := np.Qdot p p) in *. set (Dpq := np.Qdot p q) in *.
    set (Dqp := np.Qdot q p) in *. set (Dqq := np.Qdot q q) in *.
    assert (Hprod : 0 <= c * (x 0%nat * (Dpp * x 0%nat + Dpq * x 1%nat) +
                              x 1%nat * (Dqp * x 0%nat + Dqq * x 1%nat)))
      by (by apply Qmult_le_0_compat).
    eapply Qle_trans; [exact Hprod |].
    apply Qle_lteq. right. ring.
Qed.

Section PrincipalAxes.
Variable gesdd : np.routine.

Lemma sample0D_cov_psd o σ W :
  sample gesdd o σ -> klass o = BivariateDataset0D -> cov o σ = (Ok W, σ) ->
  symmetric W /\ psd W.
Proof.
  intros Hs Hk HW.
  destruct (sample0D_inv _ _ _ Hk Hs) as (a & _ & _ & _ & _ & _ & _ & Hl & _).
  destruct (sample0D_shape gesdd o σ a Hk Hs Hl) as [Hsh _].
  rewrite (cov_0D o σ a Hk Hl) in HW. injection HW as HW.
  by eapply cov_symmetric_psd.
Qed.

(** The sign convention keeps a decomposition a decomposition. *)
Lemma oriented_is_svd W U s R :
  oriented gesdd W U s R -> svd_contract gesdd W -> is_svd W U s R.
Proof.
  intros (U0 & s0 & R0 & Hsvd & -> & _ & (d0 & _ & _ & Hneg & Hpos)) Hc.
  specialize (Hc U0 s0 R0 Hsvd).
  destruct (Qlt_le_dec d0 0) as [Hlt | Hle].
  - destruct (Hneg Hlt) as [-> ->]. by apply is_svd_imul_neg.
  - by destruct (Hpos Hle) as [-> ->].
Qed.

Lemma principal_axes_0D o σ :
  sample gesdd o σ -> klass o = BivariateDataset0D ->
  exists W U s R,
    cov o σ = (Ok W, σ) /\
    self_U o = Some U /\ self_s o = Some s /\ self_R o = Some R /\
    (svd_contract gesdd W -> principal_axes W U s /\ is_svd W U s R).
Proof.
  intros Hs Hk.
  destruct (orientation_0D gesdd o σ Hs Hk)
    as (W & U & s & R & c & d & HW & HU & Hss & HR & Hor & _).
  exists W, U, s, R. do 4 (split; [done |]). intros Hc.
  pose proof (oriented_is_svd W U s R Hor Hc) as Hsvd.
  split; [| done].
  destruct (sample0D_cov_psd o σ W Hs Hk HW) as [Hsym Hpsd].
  by eapply svd_principal_axes.
Qed.

Lemma principal_axes_1D o σ :
  sample gesdd o σ -> klass o = BivariateDataset1D ->
  exists nQ W U s R,
    self_Q o = Some nQ /\ cov o σ = (Ok W, σ) /\
    self_U o = Some U /\ self_s o = Some s /\ self_R o = Some R /\
    forall q, (q < nQ)%nat -> svd_contract gesdd (np.pick0 W q) ->
      principal_axes (np.pick0 W q) (np.pick0 U q) (np.pick0 s q) /\
      is_svd (np.pick0 W q) (np.pick0 U q) (np.pick0 s q) (np.pick0 R q).
Proof.
  intros Hs Hk.
  destruct (orientation_1D gesdd o σ Hs Hk)
    as (nQ & W & U & s & R & HQ & HW & HU & Hss & HR & Hor).
  exists nQ, W, U, s, R. do 5 (split; [done |]). intros q Hq Hc.
  pose proof (oriented_is_svd _ _ _ _ (Hor q Hq) Hc) as Hsvd.
  split; [| done].
  destruct (get_frame_Ok gesdd o σ nQ (Z.of_nat q) q W Hs Hk HQ HW
              (norm_index_nat _ _ Hq))
    as (f & _ & Hkf & _ & Hsf & Hcf & _).
  destruct (sample0D_cov_psd f σ _ Hsf Hkf Hcf) as [Hsym Hpsd].
  by eapply svd_principal_axes.
Qed.
End PrincipalAxes.

(** The sign convention keeps an exact decomposition.  For every
    [BivariateDataset0D], and at every node of every [BivariateDataset1D],
    if the routine's answer for the covariance [W] is exactly a
    decomposition [W = U diag(s) R] with orthonormal columns of [U],
    orthonormal rows of [R] and non-negative singular values in
    descending order, then the stored [(U, s, R)] is one too, with the
    same singular values in the same order, and column [k] of the stored
    [U] is a unit eigenvector of [W] for [s[k]]. *)
Theorem principal_axes_descending gesdd o σ :
  sample gesdd o σ ->
  (klass o = BivariateDataset0D ->
     exists W U s R,
       cov o σ = (Ok W, σ) /\
       self_U o = Some U /\ self_s o = Some s /\ self_R o = Some R /\
       (svd_contract gesdd W -> principal_axes W U s /\ is_svd W U s R)) /\
  (klass o = BivariateDataset1D ->
     exists nQ W U s R,
       self_Q o = Some nQ /\ cov o σ = (Ok W, σ) /\
       self_U o = Some U /\ self_s o = Some s /\ self_R o = Some R /\
       forall q, (q < nQ)%nat -> svd_contract gesdd (np.pick0 W q) ->
         principal_axes (np.pick0 W q) (np.pick0 U q) (np.pick0 s q) /\
         is_svd (np.pick0 W q) (np.pick0 U q) (np.pick0 s q) (np.pick0 R q)).
Proof.
  intros Hs. split; intros Hk.
  - by apply principal_axes_0D.
  - by apply principal_axes_1D.
Qed.

(** The routine of the worked example keeps the promise on the matrix
    [[1,0],[0,4]], however its entries are written. *)
Lemma gesdd_demo_contract W :
  np.shape W = [2%nat; 2%nat] ->
  at2 W 0 0 == 1 -> at2 W 0 1 == 0 -> at2 W 1 0 == 0 -> at2 W 1 1 == 4 ->
  svd_contract gesdd_demo W.
Proof.
  intros Hsh H00 H01 H10 H11 U s R. unfold np.linalg_svd. rewrite Hsh.
  intros [= <- <- <-]. unfold is_svd, sum2.
  repeat split; try done; intros i j Hi Hj;
    destruct i as [| [| i]]; try lia; destruct j as [| [| j]]; try lia;
    rewrite ?H00, ?H01, ?H10, ?H11; reflexivity.
Qed.

Lemma principal_axes_descending_witness :
  sample gesdd_demo demo0D store_demo /\
  exists W U s,
    cov demo0D store_demo = (Ok W, store_demo) /\
    self_U demo0D = Some U /\ self_s demo0D = Some s /\
    svd_contract gesdd_demo W /\ principal_axes W U s.
Proof.
  assert (Hs0 : sample gesdd_demo demo0D store_demo) by (vm_compute; reflexivity).
  split; [exact Hs0 |].
  destruct (proj1 (principal_axes_descending gesdd_demo demo0D store_demo
                     Hs0) eq_refl)
    as (W & U & s & R & HW & HU & Hs & HR & H).
  assert (Hc : svd_contract gesdd_demo W).
  { vm_compute in HW. injection HW as <-.
    apply gesdd_demo_contract; reflexivity. }
  exists W, U, s. do 3 (split; [done |]). split; [exact Hc |].
  exact (proj1 (H Hc)).
Defined.

(** No square of a natural number is twice a positive square. *)
Lemma square_not_double (n : nat) :
  forall m : nat, (n * n = 2 * (m * m))%nat -> n = 0%nat.
Proof.
  induction n as [n IH] using lt_wf_ind. intros m H.
  destruct (Nat.eq_dec n 0%nat) as [-> | Hn]; [done |].
  destruct (Nat.Even_or_Odd n) as [[k ->] | [k ->]]; [| exfalso; nia].
  assert (Hm : (m * m = 2 * (k * k))%nat) by nia.
  assert (Hlt : (m < 2 * k)%nat) by nia.
  pose proof (IH m Hlt k Hm) as ->. nia.
Qed.

(** The square root of 1/2 is not rational. *)
Lemma half_not_square (x : Q) : ~ 2 * (x * x) == 1.
Proof.
  destruct x as [p d]. unfold Qeq. simpl. intros H.
  assert (Hz : (Z.pos d * Z.pos d = 2 * (p * p))%Z) by lia.
  assert (Hn : (Pos.to_nat d * Pos.to_nat d =
                2 * (Z.abs_nat p * Z.abs_nat p))%nat).
  { apply Nat2Z.inj. rewrite !Nat2Z.inj_mul, positive_nat_Z, Zabs2Nat.id_abs.
    change (Z.of_nat 2) with 2%Z. rewrite Z.abs_square. exact Hz. }
  pose proof (square_not_double _ _ Hn). lia.
Qed.

(** The first scenario of the specification has the covariance
    [[8/3, 8/3], [8/3, 8/3]], whose unit eigenvectors are
    [(1,1)/sqrt 2] and [(1,-1)/sqrt 2]: no matrix of rationals holds unit
    eigenvectors of it, whatever the singular values. *)
Remark scenario_axes_irrational :
  exists W, np.cov (np.T y_scenario) 1 = Ok W /\
    forall U s, ~ principal_axes W U s.
Proof.
  eexists. split; [vm_compute; reflexivity |].
  match goal with |- forall U s, ~ principal_axes ?W U s => set (W0 := W) end.
  assert (E : forall i j, (i < 2)%nat -> (j < 2)%nat -> at2 W0 i j == 8 # 3).
  { intros [| [| i]] [| [| j]] Hi Hj; try lia; vm_compute; reflexivity. }
  intros U s (_ & _ & H). destruct (H 0%nat ltac:(lia)) as [He Hu].
  pose proof (He 0%nat ltac:(lia)) as H0.
  pose proof (He 1%nat ltac:(lia)) as H1.
  unfold sum2 in H0, H1, Hu.
  set (x := at2 U 0 0) in *. set (y := at2 U 1 0) in *.
  set (t := np.item s 0) in *.
  rewrite !E in H0, H1 by lia.
  assert (Hxy : t * (x - y) == 0) by lra.
  destruct (Qmult_integral _ _ Hxy) as [Ht | Hd].
  - apply (half_not_square x). rewrite Ht in H0.
    assert (Hy : y == - x) by lra.
    assert (E' : x * x + y * y == 2 * (x * x)) by (rewrite Hy; ring).
    rewrite <- E'. exact Hu.
  - apply (half_not_square x).
    assert (Hy : y == x) by lra.
    assert (E' : x * x + y * y == 2 * (x * x)) by (rewrite Hy; ring).
    rewrite <- E'. exact Hu.
Qed.

(** * Further properties of the module *)

(** ** Constructors *)

Lemma new_denotes gesdd σ y a :
  denotes σ y a ->
  exists r σ', asarray y σ = (Ok r, σ') /\ load σ' r = Ok a /\
    forall c, new gesdd c y σ = new gesdd c (PyArray r) σ'.
Proof.
  intros Hy. destruct (asarray_denotes _ _ _ Hy) as (r & σ' & Ha & Hl & _).
  exists r, σ'. split; [done |]. split; [done |]. intros c.
  destruct y as [a' | r']; simpl in Ha.
  - injection Ha as <- <-. apply new_PyList.
  - by injection Ha as <- <-.
Qed.

Lemma major_dot_Ok U n :
  np.shape U = [2%nat; n] -> (0 < n)%nat -> exists d, major_dot U = Ok d.
Proof.
  intros Hs Hn. unfold major_dot, np.take1, np.index1. rewrite Hs.
  rewrite (norm_index_nat n 0 Hn : np.norm_index n 0 = Ok 0%nat).
  cbn [mbind result_bind]. unfold np.dot, np.pick1. rewrite Hs.
  cbn [np.shape e2 Nat.eqb]. eauto.
Qed.

Lemma orient_Ok U s R n :
  np.shape U = [2%nat; n] -> (0 < n)%nat -> exists usr, orient (U, s, R) = Ok usr.
Proof.
  intros Hs Hn. destruct (major_dot_Ok U n Hs Hn) as (d & Hd).
  unfold orient. rewrite Hd. cbn [mbind result_bind].
  destruct (Qltb d 0); eauto.
Qed.

(** On a 2 x 2 matrix the decomposition of a node fails only when the
    routine does not converge. *)
Lemma node_svd_2x2 gesdd W :
  np.shape W = [2%nat; 2%nat] ->
  match gesdd W with
  | Some _ => exists usr, node_svd gesdd W = Ok usr
  | None => node_svd gesdd W = Raise LinAlgError
  end.
Proof.
  intros Hs. unfold node_svd. rewrite (linalg_svd_2d gesdd W 2 2 Hs).
  destruct (gesdd W) as [[[u sv] r] |]; [| done].
  cbn [mbind result_bind]. apply (orient_Ok _ _ _ 2%nat); [done | lia].
Qed.

(** X1.  Constructing a [BivariateDataset0D] from data with two columns.
    When [y] stands for a [J x 2] array, the covariance the constructor
    decomposes is a 2 x 2 matrix, and the only way the constructor can
    fail is the routine behind [np.linalg.svd] not converging, which
    surfaces as [LinAlgError].  When the routine answers, the constructor
    returns a [BivariateDataset0D] with [J] observations and [I = 2],
    whose array holds the contents of [y], and which is a dataset of the
    store the constructor leaves. *)
Theorem init0D_two_columns gesdd σ y a J :
  denotes σ y a -> np.shape a = [J; 2%nat] ->
  exists W,
    np.cov (np.T a) 1 = Ok W /\ np.shape W = [2%nat; 2%nat] /\
    (gesdd W = None ->
     fst (BivariateDataset0D_init gesdd y σ) = Raise LinAlgError) /\
    (is_Some (gesdd W) ->
     exists o σ',
       BivariateDataset0D_init gesdd y σ = (Ok o, σ') /\
       klass o = BivariateDataset0D /\
       self_J o = J /\ self_I o = Some 2%nat /\
       load σ' (self_y o) = Ok a /\ sample gesdd o σ').
Proof.
  intros Hy Hs.
  destruct (cov_entries a J 1 Hs) as (W & HW & HsW & _).
  exists W. split; [done |]. split; [done |].
  destruct (new_denotes gesdd _ _ _ Hy) as (r & σ' & _ & Hl & Hnew).
  specialize (Hnew BivariateDataset0D). unfold new in Hnew.
  rewrite Hnew, init0D_build, Hl. cbn [mbind result_bind].
  assert (Hb : build0D gesdd r a =
               usr ← node_svd gesdd W;
               Ok (Dataset BivariateDataset0D r J None (Some 2%nat)
                      (Some (fst (fst usr))) (Some (snd (fst usr)))
                      (Some (snd usr)))).
  { unfold build0D, node_svd, np.shape_at. rewrite Hs, HW.
    cbn [nth_error mbind result_bind].
    destruct (np.linalg_svd gesdd W) as [usr |]; cbn [mbind result_bind];
      [| done].
    destruct (orient usr) as [[[U s] R] |]; cbn [mbind result_bind]; done. }
  rewrite Hb. pose proof (node_svd_2x2 gesdd W HsW) as Hn.
  split.
  - intros Hg. rewrite Hg in Hn. by rewrite Hn.
  - intros [g Hg]. rewrite Hg in Hn. destruct Hn as (usr & Hn).
    rewrite Hn. cbn [mbind result_bind fst].
    eexists _, σ'. split; [reflexivity |]. cbn [klass self_J self_I self_y].
    do 4 (split; [done |]).
    unfold sample. cbn [klass self_y]. rewrite init0D_build, Hl.
    cbn [mbind result_bind]. by rewrite Hb, Hn.
Qed.

Lemma init0D_two_columns_witness :
  denotes store_demo (PyArray (Whole 1%positive)) y_demo /\
  exists W,
    np.cov (np.T y_demo) 1 = Ok W /\
    exists o σ',
      BivariateDataset0D_init gesdd_demo (PyArray (Whole 1%positive)) store_demo
        = (Ok o, σ') /\
      self_J o = 4%nat /\ self_I o = Some 2%nat.
Proof.
  assert (Hy : denotes store_demo (PyArray (Whole 1%positive)) y_demo)
    by (vm_compute; reflexivity).
  split; [exact Hy |].
  destruct (init0D_two_columns gesdd_demo store_demo _ y_demo 4 Hy eq_refl)
    as (W & HW & _ & _ & H).
  exists W. split; [exact HW |].
  destruct (H (ex_intro _ _ eq_refl)) as (o & σ' & Ho & _ & HJ & HI & _).
  by exists o, σ'.
Defined.

Section Construction1D.
Variable gesdd : np.routine.

Lemma rmap_Raise {A B} (f : A -> result B) a l e :
  f a = Raise e -> rmap f (a :: l) = Raise e.
Proof. intros H. simpl. by rewrite H. Qed.

Lemma rmap_Ok_all {A B} (f : A -> result B) l :
  (forall a, In a l -> exists b, f a = Ok b) -> exists bs, rmap f l = Ok bs.
Proof.
  induction l as [| a l IH]; intros H; simpl; [eauto |].
  destruct (H a) as (b & ->); [by left |].
  destruct IH as (bs & ->); [intros; apply H; by right |]. eauto.
Qed.

(** The covariance of node [i] of an array of rank three. *)
Lemma node_cov_3d a J nQ I bias i :
  np.shape a = [J; nQ; I] -> (i < nQ)%nat ->
  np.shape (np.pick1 a i) = [J; I] /\
  node_cov a bias i = np.cov (np.T (np.pick1 a i)) bias /\
  exists W, node_cov a bias i = Ok W /\
    np.shape W = if (I =? 0)%nat then [0%nat; 0%nat]
                 else List.filter (fun d => negb (d =? 1)%nat) [I; I].
Proof.
  intros Hs Hi.
  assert (Hp : np.shape (np.pick1 a i) = [J; I])
    by (unfold np.pick1; by rewrite Hs).
  assert (Hn : node_cov a bias i = np.cov (np.T (np.pick1 a i)) bias).
  { unfold node_cov, np.take1_3, np.index1_3, np.index1, np.ndim.
    rewrite Hs. cbn [length Nat.ltb Nat.leb]. by rewrite norm_index_nat. }
  split; [done |]. split; [done |]. rewrite Hn.
  apply (cov_2d _ bias I J). unfold np.T. by rewrite Hp.
Qed.

Lemma node_svd_columns f J I W :
  np.shape f = [J; I] -> I <> 2%nat -> np.cov (np.T f) 1 = Ok W ->
  exists e, node_svd gesdd W = Raise e.
Proof.
  intros Hs HI HW.
  destruct (build0D_columns gesdd (Whole 1%positive) f J I Hs HI) as (e & He & _).
  revert He. unfold build0D, node_svd, np.shape_at. rewrite Hs, HW.
  cbn [nth_error mbind result_bind].
  destruct (np.linalg_svd gesdd W) as [usr |]; cbn [mbind result_bind]; [| eauto].
  destruct (orient usr) as [[[U s] R] |]; cbn [mbind result_bind]; [done | eauto].
Qed.

(** X2.  The shapes [BivariateDataset1D] accepts.  Data of rank below
    three is refused with [IndexError] (by [self.y.shape[1]] or
    [self.y.shape[2]]).  Data with no nodes, of shape [(J, 0, I, ...)], is
    accepted whatever [I] is: the loops of [get_cov] and [_init_svd] do
    not run and [_U], [_s] and [_R] are the empty array of shape [(0,)].
    Data of shape [(J, Q, I)] with at least one node and a number of
    components other than two makes the constructor raise. *)
Theorem init1D_shapes σ y a :
  denotes σ y a ->
  ((np.ndim a < 3)%nat ->
   fst (BivariateDataset1D_init gesdd y σ) = Raise IndexError) /\
  (forall J I rest, np.shape a = J :: 0%nat :: I :: rest ->
   exists r σ',
     BivariateDataset1D_init gesdd y σ =
     (Ok (Dataset BivariateDataset1D r J (Some 0%nat) (Some I)
            (Some (NdArray [0%nat] [])) (Some (NdArray [0%nat] []))
            (Some (NdArray [0%nat] []))), σ') /\
     load σ' r = Ok a) /\
  (forall J nQ I, np.shape a = [J; nQ; I] -> (1 <= nQ)%nat -> I <> 2%nat ->
   exists e, fst (BivariateDataset1D_init gesdd y σ) = Raise e).
Proof.
  intros Hy.
  destruct (new_denotes gesdd _ _ _ Hy) as (r & σ' & _ & Hl & Hnew).
  specialize (Hnew BivariateDataset1D). unfold new in Hnew.
  rewrite Hnew, init1D_build, Hl. cbn [mbind result_bind fst].
  split; [| split].
  - intros Hr. unfold build1D, np.shape_at, np.ndim in *.
    destruct (np.shape a) as [| J [| nQ [| I rest]]]; simpl in *; try done. lia.
  - intros J I rest Hs. exists r, σ'. split; [| done].
    unfold build1D, np.shape_at. rewrite Hs. reflexivity.
  - intros J nQ I Hs HQ HI.
    unfold build1D, np.shape_at. rewrite Hs. cbn [nth_error mbind result_bind].
    destruct (rmap_Ok_all (node_cov a 1) (seq 0 nQ)) as (covs & Hc).
    { intros i Hi%in_seq.
      destruct (node_cov_3d a J nQ I 1 i Hs ltac:(lia)) as (_ & _ & W & HW & _).
      eauto. }
    rewrite Hc. cbn [mbind result_bind]. rewrite (iter_node_covs _ _ _ _ Hc).
    cbn [mbind result_bind].
    pose proof (rmap_length _ _ _ Hc) as Lc. rewrite length_seq in Lc.
    destruct covs as [| W covs]; [simpl in Lc; lia |].
    pose proof (rmap_nth _ _ _ 0%nat 0%nat W Hc) as H0.
    rewrite length_seq, seq_nth in H0 by lia. specialize (H0 ltac:(lia)).
    simpl in H0.
    destruct (node_cov_3d a J nQ I 1 0 Hs ltac:(lia)) as (Hp & Hn & _).
    rewrite Hn in H0.
    destruct (node_svd_columns _ J I W Hp HI H0) as (e & He).
    exists e. by rewrite (rmap_Raise _ _ _ _ He).
Qed.
End Construction1D.

Lemma init1D_shapes_witness :
  denotes ∅ (PyList y_no_nodes) y_no_nodes /\
  (exists r σ',
     BivariateDataset1D_init gesdd_demo (PyList y_no_nodes) ∅ =
     (Ok (Dataset BivariateDataset1D r 2 (Some 0%nat) (Some 3%nat)
            (Some (NdArray [0%nat] [])) (Some (NdArray [0%nat] []))
            (Some (NdArray [0%nat] []))), σ') /\
     load σ' r = Ok y_no_nodes) /\
  fst (BivariateDataset1D_init gesdd_demo (PyList y_3col) ∅) = Raise IndexError.
Proof.
  split; [reflexivity |]. split.
  - exact (proj1 (proj2 (init1D_shapes gesdd_demo ∅ (PyList y_no_nodes)
                           y_no_nodes eq_refl))
             2%nat 3%nat [] eq_refl).
  - refine (proj1 (init1D_shapes gesdd_demo ∅ (PyList y_3col) y_3col eq_refl) _).
    unfold np.ndim. simpl. lia.
Defined.

(** X3.  What a constructor does to the store.  Whatever the class and
    whatever the outcome, every array that could be read before the call
    reads the same after it.  Given an array, [np.asarray] does not copy:
    the store is unchanged and the dataset refers to the very array it was
    given.  Given a sequence, exactly one new array is added, holding the
    converted sequence, and the dataset refers to it.  A constructor that
    returns, returns an instance of its class that is a dataset of the
    store it leaves. *)
Theorem constructor_store gesdd c y σ res σ' :
  new gesdd c y σ = (res, σ') ->
  (forall r a, load σ r = Ok a -> load σ' r = Ok a) /\
  match y with
  | PyArray r => σ' = σ /\ forall o, res = Ok o -> self_y o = r
  | PyList a =>
      σ !! fresh (dom σ) = None /\ σ' = <[fresh (dom σ) := a]> σ /\
      forall o, res = Ok o ->
        self_y o = Whole (fresh (dom σ)) /\ load σ' (self_y o) = Ok a
  end /\
  forall o, res = Ok o -> klass o = c /\ sample gesdd o σ'.
Proof.
  intros H.
  assert (Hsample : forall o, res = Ok o -> klass o = c /\ sample gesdd o σ').
  { intros o ->. by eapply new_sample. }
  destruct y as [a | r].
  - rewrite new_PyList in H.
    pose proof (proj1 (stable_new gesdd c (Whole (fresh (dom σ)))
                         (<[fresh (dom σ) := a]> σ))) as Hs.
    rewrite H in Hs. simpl in Hs. subst σ'.
    assert (Hnone : σ !! fresh (dom σ) = None)
      by (apply not_elem_of_dom, is_fresh).
    split; [| split; [| done]].
    + intros r a0 Hl. rewrite load_insert_other; [done |].
      by eapply fresh_not_owner.
    + split; [done |]. split; [done |]. intros o ->.
      destruct (new_fields _ _ _ _ _ _ H) as [_ Hy]. rewrite Hy.
      split; [done |]. simpl. by rewrite lookup_insert_eq.
  - pose proof (proj1 (stable_new gesdd c r σ)) as Hs.
    rewrite H in Hs. simpl in Hs. subst σ'.
    split; [done |]. split; [| done]. split; [done |].
    intros o ->. by destruct (new_fields _ _ _ _ _ _ H).
Qed.

Lemma constructor_store_witness :
  exists res σ',
    new gesdd_demo BivariateDataset0D (PyList y_demo) store_demo = (res, σ') /\
    (forall r a, load store_demo r = Ok a -> load σ' r = Ok a) /\
    store_demo !! fresh (dom store_demo) = None /\
    σ' = <[fresh (dom store_demo) := y_demo]> store_demo.
Proof.
  eexists _, _. split; [apply surjective_pairing |].
  destruct (constructor_store gesdd_demo BivariateDataset0D (PyList y_demo)
              store_demo _ _ (surjective_pairing _))
    as (H1 & (H2 & H3 & _) & _).
  split; [exact H1 |]. split; [exact H2 | exact H3].
Defined.

(** X4.  The univariate constructors check the rank of the data and
    nothing else.  [UnivariateDataset0D] refuses a 0-d array with
    [IndexError] and accepts every array of rank one or more, with [J] its
    first dimension.  [UnivariateDataset1D] refuses data of rank below two
    with [IndexError], and on every other array returns a dataset whose
    [nnodes] is the second dimension and whose [samplesize] is the first;
    asking it for [get_cov] or [Maxis], which only the bivariate classes
    define, is an [AttributeError]. *)
Theorem univariate_rank_only σ y a :
  denotes σ y a ->
  (np.shape a = [] ->
   fst (Dataset_init UnivariateDataset0D y σ) = Raise IndexError) /\
  (forall J rest, np.shape a = J :: rest ->
   exists r σ',
     Dataset_init UnivariateDataset0D y σ =
     (Ok (Dataset UnivariateDataset0D r J None None None None None), σ') /\
     load σ' r = Ok a) /\
  ((np.ndim a < 2)%nat ->
   fst (UnivariateDataset1D_init y σ) = Raise IndexError) /\
  (forall J nQ rest, np.shape a = J :: nQ :: rest ->
   exists r σ',
     let o := Dataset UnivariateDataset1D r J (Some nQ) None None None None in
     UnivariateDataset1D_init y σ = (Ok o, σ') /\
     load σ' r = Ok a /\
     nnodes o σ' = (Ok nQ, σ') /\ samplesize o σ' = (Ok J, σ') /\
     fst (get_cov o 1 σ') = Raise AttributeError /\
     fst (Maxis o σ') = Raise AttributeError).
Proof.
  intros Hy.
  destruct (asarray_denotes _ _ _ Hy) as (r & σ' & Ha & Hl & _).
  assert (H0 : Dataset_init UnivariateDataset0D y σ =
               (J ← np.shape_at a 0;
                Ok (Dataset UnivariateDataset0D r J None None None None None), σ')).
  { unfold Dataset_init, read, lift, mbind, mret, M_bind, M_ret, result_bind.
    rewrite Ha, Hl. by destruct (np.shape_at a 0). }
  assert (H1 : UnivariateDataset1D_init y σ =
               (J ← np.shape_at a 0; nQ ← np.shape_at a 1;
                Ok (Dataset UnivariateDataset1D r J (Some nQ) None None None None),
                σ')).
  { unfold UnivariateDataset1D_init, read, lift, mbind, mret, M_bind, M_ret,
      result_bind. rewrite Ha, Hl.
    destruct (np.shape_at a 0); [| done]. by destruct (np.shape_at a 1). }
  rewrite H0, H1. unfold np.shape_at, np.ndim.
  split; [by intros -> |]. split.
  { intros J rest ->. by exists r, σ'. }
  split.
  { destruct (np.shape a) as [| J [| nQ rest]]; simpl; try done. lia. }
  intros J nQ rest ->. exists r, σ'. done.
Qed.

Lemma univariate_rank_only_witness :
  denotes ∅ (PyList y_fun) y_fun /\
  exists r σ',
    let o := Dataset UnivariateDataset1D r 2 (Some 3%nat) None None None None in
    UnivariateDataset1D_init (PyList y_fun) ∅ = (Ok o, σ') /\
    load σ' r = Ok y_fun /\
    nnodes o σ' = (Ok 3%nat, σ') /\ samplesize o σ' = (Ok 2%nat, σ') /\
    fst (get_cov o 1 σ') = Raise AttributeError /\
    fst (Maxis o σ') = Raise AttributeError.
Proof.
  split; [reflexivity |].
  exact (proj2 (proj2 (proj2 (univariate_rank_only ∅ (PyList y_fun) y_fun eq_refl)))
           2%nat 3%nat [] eq_refl).
Defined.

(** ** The range of the data *)

Lemma item_reduce0 f a k :
  (k < np.numel (tl (np.shape a)))%nat ->
  np.item (np.reduce0 f a) k = f (np.lane a k).
Proof.
  intros Hk. unfold np.item, np.reduce0. cbn [np.data].
  rewrite (nth_indep _ 0 (f (np.lane a 0)))
    by (rewrite length_map, length_seq; lia).
  rewrite (map_nth (fun k => f (np.lane a k))). by rewrite seq_nth.
Qed.

Lemma Qmin_cases x y : Qmin x y = x \/ Qmin x y = y.
Proof.
  unfold Qmin, GenericMinMax.gmin. destruct (x ?= y); auto.
Qed.

Lemma Qmax_cases x y : Qmax x y = x \/ Qmax x y = y.
Proof.
  unfold Qmax, GenericMinMax.gmax. destruct (x ?= y); auto.
Qed.

Lemma fold_min_spec l x :
  In (fold_left Qmin l x) (x :: l) /\
  forall y, In y (x :: l) -> fold_left Qmin l x <= y.
Proof.
  revert x. induction l as [| a l IH]; intros x; simpl.
  - split; [by left |]. intros y [<- | []]. apply Qle_refl.
  - destruct (IH (Qmin x a)) as [Hin Hle]. split.
    + destruct Hin as [Hin | Hin]; [| by right; right].
      rewrite <- Hin. destruct (Qmin_cases x a) as [-> | ->]; [by left |].
      right. by left.
    + intros y Hy.
      assert (Hm : fold_left Qmin l (Qmin x a) <= Qmin x a)
        by (apply Hle; by left).
      destruct Hy as [<- | [<- | Hy]].
      * eapply Qle_trans; [exact Hm |]. apply Q.le_min_l.
      * eapply Qle_trans; [exact Hm |]. apply Q.le_min_r.
      * apply Hle. by right.
Qed.

Lemma fold_max_spec l x :
  In (fold_left Qmax l x) (x :: l) /\
  forall y, In y (x :: l) -> y <= fold_left Qmax l x.
Proof.
  revert x. induction l as [| a l IH]; intros x; simpl.
  - split; [by left |]. intros y [<- | []]. apply Qle_refl.
  - destruct (IH (Qmax x a)) as [Hin Hle]. split.
    + destruct Hin as [Hin | Hin]; [| by right; right].
      rewrite <- Hin. destruct (Qmax_cases x a) as [-> | ->]; [by left |].
      right. by left.
    + intros y Hy.
      assert (Hm : Qmax x a <= fold_left Qmax l (Qmax x a))
        by (apply Hle; by left).
      destruct Hy as [<- | [<- | Hy]].
      * eapply Qle_trans; [| exact Hm]. apply Q.le_max_l.
      * eapply Qle_trans; [| exact Hm]. apply Q.le_max_r.
      * apply Hle. by right.
Qed.

Lemma Qminl_spec l :
  l <> [] -> In (np.Qminl l) l /\ forall y, In y l -> np.Qminl l <= y.
Proof. destruct l as [| x l]; [done |]. intros _. apply fold_min_spec. Qed.

Lemma Qmaxl_spec l :
  l <> [] -> In (np.Qmaxl l) l /\ forall y, In y l -> y <= np.Qmaxl l.
Proof. destruct l as [| x l]; [done |]. intros _. apply fold_max_spec. Qed.

Lemma lane_nonempty a k J rest :
  np.shape a = J :: rest -> (1 <= J)%nat -> np.lane a k <> [].
Proof.
  intros Hs HJ H. apply (f_equal (@length Q)) in H.
  rewrite length_lane, Hs in H. simpl in H. lia.
Qed.

(** X5.  [range] brackets the data.  On a dataset of any class with at
    least one observation, [range] succeeds, leaves the store as it is
    and returns two arrays of the shape of one observation; at every
    position the lower and the upper end are values observed there (no
    arithmetic is done on them), every observed value lies between them,
    and the lower end is at most the upper.  With no observation, [range]
    raises [ValueError], whatever the shape of an observation.  The data
    are numbers: a nan among the observations is outside the model. *)
Theorem range_bounds (d : dataset) σ a J rest :
  load σ (self_y d) = Ok a -> np.shape a = J :: rest ->
  ((1 <= J)%nat ->
   exists lo hi,
     range d σ = (Ok (lo, hi), σ) /\
     np.shape lo = rest /\ np.shape hi = rest /\
     forall k, (k < np.numel rest)%nat ->
       In (np.item lo k) (np.lane a k) /\ In (np.item hi k) (np.lane a k) /\
       (forall x, In x (np.lane a k) -> np.item lo k <= x <= np.item hi k) /\
       np.item lo k <= np.item hi k) /\
  (J = 0%nat -> fst (range d σ) = Raise ValueError).
Proof.
  intros Hl Hs. split.
  - intros HJ. unfold range, read, lift, mbind, mret, M_bind, M_ret.
    rewrite Hl. unfold np.min, np.max, np.extremum. rewrite Hs.
    destruct (Nat.eqb_spec J 0) as [-> | _]; [lia |].
    eexists _, _. split; [reflexivity |].
    unfold np.reduce0 at 1 2. rewrite Hs. cbn [tl np.shape].
    do 2 (split; [done |]). intros k Hk.
    rewrite !item_reduce0 by (rewrite Hs; exact Hk).
    pose proof (lane_nonempty a k J rest Hs HJ) as Hne.
    destruct (Qminl_spec _ Hne) as [Hmin1 Hmin2].
    destruct (Qmaxl_spec _ Hne) as [Hmax1 Hmax2].
    split; [done |]. split; [done |]. split; [by auto |].
    by apply Hmin2.
  - intros ->. unfold range, read, lift, mbind, M_bind. rewrite Hl.
    unfold np.min, np.extremum. by rewrite Hs.
Qed.

Lemma range_bounds_witness :
  load store_fun (self_y demoU1D) = Ok y_fun /\ (1 <= 2)%nat /\
  exists lo hi,
    range demoU1D store_fun = (Ok (lo, hi), store_fun) /\
    forall k, (k < 3)%nat ->
      In (np.item lo k) (np.lane y_fun k) /\
      In (np.item hi k) (np.lane y_fun k) /\
      np.item lo k <= np.item hi k.
Proof.
  assert (Hl : load store_fun (self_y demoU1D) = Ok y_fun)
    by (vm_compute; reflexivity).
  assert (HJ : (1 <= 2)%nat) by lia.
  split; [exact Hl |]. split; [exact HJ |].
  destruct (proj1 (range_bounds demoU1D store_fun y_fun 2 [3%nat] Hl eq_refl) HJ)
    as (lo & hi & H1 & _ & _ & H).
  exists lo, hi. split; [exact H1 |].
  intros k Hk. destruct (H k) as (Ha & Hb & _ & Hc); [simpl; lia |]. done.
Defined.

(** ** Frames and the statistics of their parent *)

Lemma sub_map_seq (g : nat -> Q) n off len :
  (off + len <= n)%nat ->
  np.sub off len (map g (seq 0 n)) = map (fun k => g (off + k)%nat) (seq 0 len).
Proof.
  intros H. unfold np.sub.
  rewrite skipn_map, firstn_map, drop_seq, take_seq.
  rewrite Nat.min_l by lia. simpl.
  rewrite <- (Nat.add_0_r off) at 1. rewrite <- (fmap_add_seq off 0 len).
  apply map_map.
Qed.

Lemma lane_pick1 a J nQ rest q k :
  np.shape a = J :: nQ :: rest -> (q < nQ)%nat -> (k < np.numel rest)%nat ->
  np.lane (np.pick1 a q) k = np.lane a (q * np.numel rest + k).
Proof.
  intros Hs Hq Hk. unfold np.lane, np.pick1. rewrite Hs. cbn [np.shape hd tl].
  apply map_ext_in. intros j Hj%in_seq.
  unfold np.item at 1. cbn [np.data]. rewrite nth_tab by lia.
  unfold np.item. f_equal. simpl. lia.
Qed.

(** Reducing the frame at a node is picking the node from the reduction. *)
Lemma reduce0_pick1 f a J nQ rest q :
  np.shape a = J :: nQ :: rest -> (q < nQ)%nat ->
  np.reduce0 f (np.pick1 a q) = np.pick0 (np.reduce0 f a) q.
Proof.
  intros Hs Hq.
  assert (Hp : np.shape (np.pick1 a q) = J :: rest)
    by (unfold np.pick1; by rewrite Hs).
  unfold np.reduce0, np.pick0. rewrite Hp, Hs. cbn [tl np.shape np.data].
  f_equal. change (np.numel (nQ :: rest)) with (nQ * np.numel rest)%nat.
  rewrite sub_map_seq by nia.
  apply map_ext_in. intros k Hk%in_seq.
  by rewrite (lane_pick1 a J nQ rest q k Hs Hq) by lia.
Qed.

Section FrameFacts.
Variable gesdd : np.routine.
Variable sqrt : Q -> Q.

(** The decomposition stored at a node is the decomposition of the
    covariance of the node. *)
Lemma sample1D_nodes o σ :
  sample gesdd o σ -> klass o = BivariateDataset1D ->
  exists a J nQ I W U s R,
    load σ (self_y o) = Ok a /\
    np.shape_at a 0 = Ok J /\ np.shape_at a 1 = Ok nQ /\
    np.shape_at a 2 = Ok I /\
    self_J o = J /\ self_Q o = Some nQ /\ self_I o = Some I /\
    cov o σ = (Ok W, σ) /\
    self_U o = Some U /\ self_s o = Some s /\ self_R o = Some R /\
    (exists shU shs shR, np.shape U = nQ :: shU /\ np.shape s = nQ :: shs /\
                         np.shape R = nQ :: shR) /\
    forall q, (q < nQ)%nat ->
      node_cov a 1 q = Ok (np.pick0 W q) /\
      node_svd gesdd (np.pick0 W q) =
        Ok (np.pick0 U q, np.pick0 s q, np.pick0 R q).
Proof.
  intros Hs Hk.
  destruct (sample1D_inv _ _ _ Hk Hs)
    as (a & J & nQ & I & covs & usrs & Hl & HJ & HnQ & HI & Hc & Hu & Ho).
  exists a, J, nQ, I, (np.array covs),
    (np.array (map (fun t => fst (fst t)) usrs)),
    (np.array (map (fun t => snd (fst t)) usrs)),
    (np.array (map snd usrs)).
  assert (HQ : self_Q o = Some nQ) by (by rewrite Ho).
  do 4 (split; [done |]).
  split; [by rewrite Ho |]. split; [done |]. split; [by rewrite Ho |].
  split; [by apply (cov_1D _ _ _ _ _ Hk Hl HQ Hc) |].
  do 3 (split; [by rewrite Ho |]).
  pose proof (rmap_length _ _ _ Hc) as Lc. rewrite length_seq in Lc.
  pose proof (rmap_length _ _ _ Hu) as Lu.
  split.
  { unfold np.array. cbn [np.shape]. rewrite !length_map.
    replace (length usrs) with nQ by lia. do 3 eexists. done. }
  intros q Hq.
  set (d := NdArray [] []).
  destruct (node_svds_uniform _ _ _ _ _ _ Hc Hu) as (n & Hall).
  pose proof (iter_node_covs _ _ _ _ Hc) as Hit.
  assert (HW : np.pick0 (np.array covs) q = nth q covs d).
  { unfold np.iter in Hit. simpl in Hit. injection Hit as Hit.
    rewrite <- Hit at 2.
    rewrite (nth_indep _ d (np.pick0 (np.array covs) 0))
      by (rewrite length_map, length_seq; lia).
    rewrite (map_nth (np.pick0 (np.array covs))), seq_nth by lia. done. }
  assert (Hpick : forall (f : ndarray * ndarray * ndarray -> ndarray) sh,
            Forall (fun t => np.shape (f t) = sh /\ np.wf (f t)) usrs ->
            np.pick0 (np.array (map f usrs)) q = f (nth q usrs (d, d, d))).
  { intros f sh Hf.
    rewrite (pick0_array sh _ q (f (d, d, d))).
    - apply (map_nth f).
    - by apply Forall_map.
    - rewrite length_map. lia. }
  rewrite HW. split.
  - pose proof (rmap_nth _ _ _ q 0%nat d Hc) as H.
    rewrite length_seq, seq_nth in H by lia. apply H. lia.
  - rewrite (Hpick (fun t => fst (fst t)) [2%nat; 2%nat]),
      (Hpick (fun t => snd (fst t)) [Nat.min 2 n]), (Hpick snd [n; n]).
    + rewrite <- !surjective_pairing. apply rmap_nth; [done | lia].
    + eapply Forall_impl; [exact Hall |]. simpl. tauto.
    + eapply Forall_impl; [exact Hall |]. simpl. tauto.
    + eapply Forall_impl; [exact Hall |]. simpl. tauto.
Qed.

(** What [get_frame] returns, field by field. *)
Lemma get_frame_fields b σ k q :
  sample gesdd b σ -> klass b = BivariateDataset1D ->
  (exists nQ, self_Q b = Some nQ /\ np.norm_index nQ k = Ok q) ->
  exists a U s R,
    load σ (self_y b) = Ok a /\
    self_U b = Some U /\ self_s b = Some s /\ self_R b = Some R /\
    get_frame gesdd b k σ =
    (Ok (Dataset BivariateDataset0D (Frame (self_y b) q) (self_J b) None
           (Some 2%nat) (Some (np.pick0 U q)) (Some (np.pick0 s q))
           (Some (np.pick0 R q))), σ).
Proof.
  intros Hs Hk (nQ & HQ & Hq).
  destruct (sample1D_nodes b σ Hs Hk)
    as (a & J & nQ' & I & W & U & s & R & Hl & HJ & HnQ & HI & HJb & HQ' & HIb
        & HW & HU & Hss & HR & _ & Hnodes).
  assert (nQ' = nQ) as -> by congruence.
  pose proof (norm_index_Ok _ _ _ Hq) as (_ & Hlt & _).
  destruct (Hnodes q Hlt) as [Hcq Hsq].
  destruct (get_frame_Ok gesdd b σ nQ k q W Hs Hk HQ HW Hq)
    as (f & Hf & Hkf & Hyf & Hsf & Hcf & _).
  exists a, U, s, R. do 4 (split; [done |]). rewrite Hf. f_equal. f_equal.
  assert (Hlf : load σ (self_y f) = Ok (np.pick1 a q))
    by (rewrite Hyf; simpl; by rewrite Hl).
  destruct (sample0D_inv _ _ _ Hkf Hsf)
    as (a' & Jf & If & Wf & Uf & sf & Rf & Hl' & HJf & HIf & Hcf' & Hsvd & Hof).
  rewrite Hlf in Hl'. injection Hl' as <-.
  destruct (sample0D_shape gesdd f σ _ Hkf Hsf Hlf) as [Hshf HIf2].
  rewrite (cov_0D f σ _ Hkf Hlf), Hcf' in Hcf. injection Hcf as ->.
  rewrite Hsq in Hsvd. injection Hsvd as <- <- <-.
  assert (Jf = self_J b) as ->.
  { unfold np.shape_at in HJ, HnQ, HJf.
    destruct (np.shape a) as [| J' [| nQ'' rest]] eqn:Es; try done.
    unfold np.pick1 in HJf. rewrite Es in HJf. simpl in HJ, HJf. congruence. }
  assert (If = 2%nat) as -> by (rewrite Hof in HIf2; simpl in HIf2; congruence).
  rewrite Hof. by rewrite Hyf.
Qed.
End FrameFacts.

Lemma shape_at_cons3 a J nQ I :
  np.shape_at a 0 = Ok J -> np.shape_at a 1 = Ok nQ -> np.shape_at a 2 = Ok I ->
  exists rest, np.shape a = J :: nQ :: I :: rest.
Proof.
  unfold np.shape_at.
  destruct (np.shape a) as [| J' [| nQ' [| I' rest]]]; simpl; try done.
  intros [= ->] [= ->] [= ->]. by exists rest.
Qed.

(** X6.  The statistics of a frame are those of its parent at that node.
    For a [BivariateDataset1D] with [Q] nodes and a frame index [k] that
    denotes node [q] (negative indices count from the end),
    [get_frame(k)] succeeds and its [mean] and [std] are [mean[k]] and
    [std[k]] of the parent, its number of observations is the parent's,
    and, when there is at least one observation, the two ends of its
    [range] are the ends of the parent's range at index [k]. *)
Theorem frame_statistics gesdd sqrt b σ k nQ q :
  sample gesdd b σ -> klass b = BivariateDataset1D ->
  self_Q b = Some nQ -> np.norm_index nQ k = Ok q ->
  exists f m S,
    get_frame gesdd b k σ = (Ok f, σ) /\
    mean b σ = (Ok m, σ) /\ std sqrt b σ = (Ok S, σ) /\
    np.take0 m k = Ok (np.pick0 m q) /\ np.take0 S k = Ok (np.pick0 S q) /\
    mean f σ = (Ok (np.pick0 m q), σ) /\
    std sqrt f σ = (Ok (np.pick0 S q), σ) /\
    nobservations f σ = (Ok (self_J b), σ) /\
    ((1 <= self_J b)%nat ->
     exists lo hi,
       range b σ = (Ok (lo, hi), σ) /\
       range f σ = (Ok (np.pick0 lo q, np.pick0 hi q), σ)).
Proof.
  intros Hs Hk HQ Hq.
  destruct (get_frame_fields gesdd b σ k q Hs Hk)
    as (a & U & s & R & Hl & _ & _ & _ & Hf); [by exists nQ |].
  destruct (sample1D_nodes gesdd b σ Hs Hk)
    as (a' & J & nQ' & I & _ & _ & _ & _ & Hl' & HJ & HnQ & HI & HJb & HQ' & _).
  rewrite Hl in Hl'. injection Hl' as <-.
  assert (nQ' = nQ) as -> by congruence.
  destruct (shape_at_cons3 _ _ _ _ HJ HnQ HI) as [rest Hsh].
  pose proof (norm_index_Ok _ _ _ Hq) as (_ & Hlt & _).
  eexists _, (np.reduce0 np.mean1 a),
    (np.reduce0 (fun l => sqrt (np.var1 1 l)) a).
  split; [exact Hf |].
  assert (Hshp : np.shape (np.pick1 a q) = J :: I :: rest)
    by (unfold np.pick1; by rewrite Hsh).
  split; [| split; [| split; [| split; [| split; [| split; [| split]]]]]].
  - unfold mean, read, lift, mbind, M_bind. rewrite Hl.
    unfold np.mean. by rewrite Hsh.
  - unfold std, read, lift, mbind, M_bind. rewrite Hl.
    unfold np.std. by rewrite Hsh.
  - unfold np.take0, np.reduce0 at 1. rewrite Hsh. cbn [tl np.shape].
    by rewrite Hq.
  - unfold np.take0, np.reduce0 at 1. rewrite Hsh. cbn [tl np.shape].
    by rewrite Hq.
  - unfold mean, read, lift, mbind, M_bind. cbn [self_y load]. rewrite Hl.
    unfold np.mean. rewrite Hshp.
    by rewrite (reduce0_pick1 _ a J nQ (I :: rest) q Hsh Hlt).
  - unfold std, read, lift, mbind, M_bind. cbn [self_y load]. rewrite Hl.
    unfold np.std. rewrite Hshp.
    by rewrite (reduce0_pick1 _ a J nQ (I :: rest) q Hsh Hlt).
  - done.
  - intros H1. rewrite HJb in H1.
    exists (np.reduce0 np.Qminl a), (np.reduce0 np.Qmaxl a).
    assert (HJ0 : (J =? 0)%nat = false) by (apply Nat.eqb_neq; lia).
    split.
    + unfold range, read, lift, mbind, M_bind. rewrite Hl.
      unfold np.min, np.max, np.extremum. rewrite Hsh, HJ0. done.
    + unfold range, read, lift, mbind, M_bind. cbn [self_y load]. rewrite Hl.
      unfold np.min, np.max, np.extremum. rewrite Hshp, HJ0.
      by rewrite !(reduce0_pick1 _ a J nQ (I :: rest) q Hsh Hlt).
Qed.

Lemma frame_statistics_witness :
  exists f m S,
    get_frame gesdd_demo demo1D (-1) store_demo = (Ok f, store_demo) /\
    mean demo1D store_demo = (Ok m, store_demo) /\
    std (fun x => x) demo1D store_demo = (Ok S, store_demo) /\
    np.take0 m (-1) = Ok (np.pick0 m 1) /\
    np.take0 S (-1) = Ok (np.pick0 S 1) /\
    mean f store_demo = (Ok (np.pick0 m 1), store_demo) /\
    std (fun x => x) f store_demo = (Ok (np.pick0 S 1), store_demo) /\
    nobservations f store_demo = (Ok (self_J demo1D), store_demo) /\
    ((1 <= self_J demo1D)%nat ->
     exists lo hi,
       range demo1D store_demo = (Ok (lo, hi), store_demo) /\
       range f store_demo = (Ok (np.pick0 lo 1, np.pick0 hi 1), store_demo)).
Proof.
  assert (Hs : sample gesdd_demo demo1D store_demo) by (vm_compute; reflexivity).
  apply (frame_statistics gesdd_demo (fun x => x) demo1D store_demo (-1) 2 1 Hs);
    reflexivity.
Defined.

(** X7.  The decomposition of a frame is the parent's at that node.
    For a [BivariateDataset1D] with [Q] nodes and a frame index [k] that
    denotes node [q], [get_frame(k)] returns a [BivariateDataset0D] on the
    view [y[:,q,:]] of the parent's array, with the parent's [J], no [Q],
    [I = 2], and with [_U], [_s], [_R] equal to [_U[k]], [_s[k]], [_R[k]]
    of the parent: recomputing the decomposition for the frame gives what
    the parent stores for that node. *)
Theorem frame_decomposition gesdd b σ k nQ q :
  sample gesdd b σ -> klass b = BivariateDataset1D ->
  self_Q b = Some nQ -> np.norm_index nQ k = Ok q ->
  exists f U s R,
    get_frame gesdd b k σ = (Ok f, σ) /\
    self_U b = Some U /\ self_s b = Some s /\ self_R b = Some R /\
    klass f = BivariateDataset0D /\
    self_y f = Frame (self_y b) q /\ self_J f = self_J b /\
    self_Q f = None /\ self_I f = Some 2%nat /\
    np.take0 U k = Ok (np.pick0 U q) /\ self_U f = Some (np.pick0 U q) /\
    np.take0 s k = Ok (np.pick0 s q) /\ self_s f = Some (np.pick0 s q) /\
    np.take0 R k = Ok (np.pick0 R q) /\ self_R f = Some (np.pick0 R q).
Proof.
  intros Hs Hk HQ Hq.
  destruct (get_frame_fields gesdd b σ k q Hs Hk)
    as (a & U & s & R & Hl & HU & Hss & HR & Hf); [by exists nQ |].
  destruct (sample1D_nodes gesdd b σ Hs Hk)
    as (_ & _ & nQ' & _ & _ & U' & s' & R' & _ & _ & _ & _ & _ & HQ' & _ & _
        & HU' & Hss' & HR' & (shU & shs & shR & HsU & Hsss & HsR) & _).
  assert (nQ' = nQ) as -> by congruence.
  assert (U' = U) as -> by congruence.
  assert (s' = s) as -> by congruence.
  assert (R' = R) as -> by congruence.
  eexists _, U, s, R. split; [exact Hf |].
  do 3 (split; [done |]). cbn [klass self_y self_J self_Q self_I self_U self_s self_R].
  do 5 (split; [done |]).
  unfold np.take0. rewrite HsU, Hsss, HsR, Hq. done.
Qed.

Lemma frame_decomposition_witness :
  exists f U s R,
    get_frame gesdd_demo demo1D 1 store_demo = (Ok f, store_demo) /\
    self_U demo1D = Some U /\ self_s demo1D = Some s /\ self_R demo1D = Some R /\
    klass f = BivariateDataset0D /\
    self_y f = Frame (self_y demo1D) 1 /\ self_J f = self_J demo1D /\
    self_Q f = None /\ self_I f = Some 2%nat /\
    np.take0 U 1 = Ok (np.pick0 U 1) /\ self_U f = Some (np.pick0 U 1) /\
    np.take0 s 1 = Ok (np.pick0 s 1) /\ self_s f = Some (np.pick0 s 1) /\
    np.take0 R 1 = Ok (np.pick0 R 1) /\ self_R f = Some (np.pick0 R 1).
Proof.
  assert (Hs : sample gesdd_demo demo1D store_demo) by (vm_compute; reflexivity).
  apply (frame_decomposition gesdd_demo demo1D store_demo 1 2 1 Hs); reflexivity.
Defined.

(** ** The stored decomposition and the axes *)

Lemma item_pick0 a q j :
  (j < np.numel (tl (np.shape a)))%nat ->
  np.item (np.pick0 a q) j = np.item a (q * np.numel (tl (np.shape a)) + j).
Proof.
  intros Hj. unfold np.item, np.pick0, np.sub. cbn [np.data].
  rewrite nth_firstn, nth_skipn.
  by destruct (Nat.ltb_spec j (np.numel (tl (np.shape a)))); [| lia].
Qed.

Section StoredShapes.
Variable gesdd : np.routine.

(** The shapes of what a [BivariateDataset0D] stores. *)
Lemma sample0D_shapes o σ :
  sample gesdd o σ -> klass o = BivariateDataset0D ->
  exists W U s R,
    cov o σ = (Ok W, σ) /\
    self_U o = Some U /\ self_s o = Some s /\ self_R o = Some R /\
    np.shape W = [2%nat; 2%nat] /\
    (np.shape U = [2%nat; 2%nat] /\ np.wf U) /\
    (np.shape s = [2%nat] /\ np.wf s) /\
    (np.shape R = [2%nat; 2%nat] /\ np.wf R).
Proof.
  intros Hs Hk.
  destruct (sample0D_inv _ _ _ Hk Hs)
    as (a & J & I & W & U & s & R & Hl & HJ & HI & Hc & Hsvd & Ho).
  destruct (sample0D_shape gesdd o σ a Hk Hs Hl) as [Hsh _].
  destruct (cov_entries a (self_J o) 1 Hsh) as (C & HC & HsC & _).
  rewrite Hc in HC. injection HC as <-.
  destruct (node_svd_shape _ _ _ _ _ Hsvd) as (n & HW & HU & Hss & HR).
  rewrite HsC in HW. injection HW as <-.
  exists W, U, s, R. rewrite (cov_0D _ _ _ Hk Hl), Hc.
  split; [done |]. do 3 (split; [by rewrite Ho |]). done.
Qed.

(** The shapes of what a [BivariateDataset1D] stores. *)
Lemma sample1D_shapes o σ nQ :
  sample gesdd o σ -> klass o = BivariateDataset1D -> self_Q o = Some nQ ->
  exists U s R,
    self_U o = Some U /\ self_s o = Some s /\ self_R o = Some R /\
    (nQ = 0%nat ->
     U = NdArray [0%nat] [] /\ s = NdArray [0%nat] [] /\ R = NdArray [0%nat] []) /\
    ((1 <= nQ)%nat ->
     np.shape U = [nQ; 2%nat; 2%nat] /\ np.shape s = [nQ; 2%nat] /\
     np.shape R = [nQ; 2%nat; 2%nat]).
Proof.
  intros Hs Hk HQ.
  destruct (sample1D_nodes gesdd o σ Hs Hk)
    as (a & J & nQ' & I & W & U & s & R & Hl & _ & _ & _ & _ & HQ' & _
        & HW & HU & Hss & HR & (shU & shs & shR & HsU & Hsss & HsR) & _).
  assert (nQ' = nQ) as -> by congruence.
  exists U, s, R. do 3 (split; [done |]). split.
  - intros ->.
    destruct (sample1D_inv _ _ _ Hk Hs)
      as (a' & J' & nQ' & I' & covs & usrs & _ & _ & _ & _ & Hc & Hu & Ho).
    assert (nQ' = 0%nat) as -> by (rewrite Ho in HQ; simpl in HQ; congruence).
    simpl in Hc. injection Hc as <-. simpl in Hu. injection Hu as <-.
    rewrite Ho in HU, Hss, HR. simpl in HU, Hss, HR.
    injection HU as <-. injection Hss as <-. injection HR as <-. done.
  - intros H1.
    assert (Hq : np.norm_index nQ 0 = Ok 0%nat)
      by (apply (norm_index_nat nQ 0); lia).
    destruct (get_frame_fields gesdd o σ 0 0 Hs Hk)
      as (a' & U' & s' & R' & _ & HU' & Hss' & HR' & Hf); [by exists nQ |].
    assert (U' = U) as -> by congruence.
    assert (s' = s) as -> by congruence.
    assert (R' = R) as -> by congruence.
    destruct (get_frame_Ok gesdd o σ nQ 0 0 W Hs Hk HQ HW Hq)
      as (f & Hf' & Hkf & _ & Hsf & _).
    rewrite Hf in Hf'. injection Hf' as <-.
    destruct (sample0D_shapes _ σ Hsf Hkf)
      as (Wf & Uf & sf & Rf & _ & HUf & Hssf & HRf & _ & [HsUf _] & [Hsssf _]
          & [HsRf _]).
    simpl in HUf, Hssf, HRf.
    injection HUf as <-. injection Hssf as <-. injection HRf as <-.
    unfold np.pick0 in HsUf, Hsssf, HsRf. cbn [np.shape] in HsUf, Hsssf, HsRf.
    rewrite HsU in HsUf |- *. rewrite Hsss in Hsssf |- *.
    rewrite HsR in HsRf |- *. simpl in HsUf, Hsssf, HsRf. by subst.
Qed.
End StoredShapes.

(** X8.  The axes of a [BivariateDataset0D].  The covariance is a 2 x 2
    matrix and the stored [_U], [_s], [_R] have the shapes [(2,2)], [(2,)]
    and [(2,2)], with buffers of matching length.  [Maxis] and [maxis]
    succeed, leave the store as it is and return the first and the second
    column of [_U].  Whenever the routine keeps the promise of
    [np.linalg.svd] on the covariance, the two axes are orthogonal:
    [np.dot(Maxis, maxis)] is zero. *)
Theorem axes_0D gesdd o σ :
  sample gesdd o σ -> klass o = BivariateDataset0D ->
  exists W U s R M m,
    cov o σ = (Ok W, σ) /\
    self_U o = Some U /\ self_s o = Some s /\ self_R o = Some R /\
    np.shape W = [2%nat; 2%nat] /\
    (np.shape U = [2%nat; 2%nat] /\ np.wf U) /\
    (np.shape s = [2%nat] /\ np.wf s) /\
    (np.shape R = [2%nat; 2%nat] /\ np.wf R) /\
    Maxis o σ = (Ok M, σ) /\ M = NdArray [2%nat] [at2 U 0 0; at2 U 1 0] /\
    maxis o σ = (Ok m, σ) /\ m = NdArray [2%nat] [at2 U 0 1; at2 U 1 1] /\
    (svd_contract gesdd W ->
     exists d, np.dot M m = Ok d /\ d == 0).
Proof.
  intros Hs Hk.
  destruct (sample0D_shapes gesdd o σ Hs Hk)
    as (W & U & s & R & HW & HU & Hss & HR & HsW & [HsU HwU] & Hs2 & HR2).
  exists W, U, s, R.
  eexists (NdArray [2%nat] [at2 U 0 0; at2 U 1 0]),
    (NdArray [2%nat] [at2 U 0 1; at2 U 1 1]).
  do 4 (split; [done |]). split; [done |]. do 3 (split; [done |]).
  assert (Hax : forall k q, np.norm_index 2 k = Ok q ->
            axis o k σ =
            (Ok (NdArray [2%nat] [at2 U 0 q; at2 U 1 q]), σ)).
  { intros k q Hq. unfold axis. rewrite Hk, HU. cbn [is_bivariate].
    unfold lift, np.take1, np.index1. rewrite HsU, Hq.
    cbn [mbind result_bind]. unfold np.pick1, at2. rewrite HsU. simpl.
    do 4 f_equal; [f_equal; lia | do 2 f_equal; lia]. }
  split; [by apply Hax |]. split; [done |].
  split; [by apply Hax |]. split; [done |].
  intros Hct.
  destruct (sample0D_inv _ _ _ Hk Hs)
    as (a & J & I & W' & U' & s' & R' & Hl & _ & _ & Hc & Hsvd & Ho).
  rewrite (cov_0D _ _ _ Hk Hl), Hc in HW. injection HW as ->.
  assert (U' = U) as -> by (rewrite Ho in HU; simpl in HU; congruence).
  pose proof (node_svd_oriented _ _ _ _ _ Hsvd) as Hor.
  pose proof (oriented_is_svd _ _ _ _ _ Hor Hct) as (_ & Horth & _).
  eexists. split; [reflexivity |].
  specialize (Horth 0%nat 1%nat ltac:(lia) ltac:(lia)).
  unfold sum2, delta in Horth. simpl in Horth.
  unfold np.Qdot, np.Qsum. simpl. rewrite Qplus_0_r. exact Horth.
Qed.

Lemma axes_0D_witness :
  exists W U s R M m,
    cov demo0D store_demo = (Ok W, store_demo) /\
    self_U demo0D = Some U /\ self_s demo0D = Some s /\ self_R demo0D = Some R /\
    np.shape W = [2%nat; 2%nat] /\
    (np.shape U = [2%nat; 2%nat] /\ np.wf U) /\
    (np.shape s = [2%nat] /\ np.wf s) /\
    (np.shape R = [2%nat; 2%nat] /\ np.wf R) /\
    Maxis demo0D store_demo = (Ok M, store_demo) /\
    M = NdArray [2%nat] [at2 U 0 0; at2 U 1 0] /\
    maxis demo0D store_demo = (Ok m, store_demo) /\
    m = NdArray [2%nat] [at2 U 0 1; at2 U 1 1] /\
    (svd_contract gesdd_demo W -> exists d, np.dot M m = Ok d /\ d == 0).
Proof.
  assert (Hs : sample gesdd_demo demo0D store_demo) by (vm_compute; reflexivity).
  apply (axes_0D gesdd_demo demo0D store_demo Hs). reflexivity.
Defined.

(** X9.  [Maxis] and [maxis] on a [BivariateDataset1D].  The class
    inherits the two properties, which index the second axis of [_U]; for
    the stack of per-node matrices that axis is the row of a node's
    matrix.  With at least one node, [Maxis] and [maxis] return [(Q, 2)]
    arrays whose row [q] is row 0, respectively row 1, of the matrix
    [_U[q]] stored for node [q] (the first, respectively second,
    components of the two axes of that node), not a column of it.  With
    no node, [_U] has one axis only and both properties raise
    [IndexError]. *)
Theorem axes_1D_rows gesdd b σ nQ :
  sample gesdd b σ -> klass b = BivariateDataset1D -> self_Q b = Some nQ ->
  exists U,
    self_U b = Some U /\
    (nQ = 0%nat ->
     Maxis b σ = (Raise IndexError, σ) /\ maxis b σ = (Raise IndexError, σ)) /\
    ((1 <= nQ)%nat ->
     exists M m,
       Maxis b σ = (Ok M, σ) /\ maxis b σ = (Ok m, σ) /\
       np.shape M = [nQ; 2%nat] /\ np.shape m = [nQ; 2%nat] /\
       forall q j, (q < nQ)%nat -> (j < 2)%nat ->
         at2 M q j = at2 (np.pick0 U q) 0 j /\
         at2 m q j = at2 (np.pick0 U q) 1 j).
Proof.
  intros Hs Hk HQ.
  destruct (sample1D_shapes gesdd b σ nQ Hs Hk HQ)
    as (U & s & R & HU & _ & _ & H0 & H1).
  exists U. split; [done |]. split.
  - intros Hn. destruct (H0 Hn) as (-> & _).
    unfold Maxis, maxis, axis. by rewrite Hk, HU.
  - intros Hn. destruct (H1 Hn) as (HsU & _).
    assert (Hax : forall k q, np.norm_index 2 k = Ok q ->
              axis b k σ = (Ok (np.pick1 U q), σ)).
    { intros k q Hq. unfold axis. rewrite Hk, HU. cbn [is_bivariate].
      unfold lift, np.take1, np.index1. rewrite HsU, Hq. done. }
    exists (np.pick1 U 0), (np.pick1 U 1).
    split; [by apply Hax |]. split; [by apply Hax |].
    assert (Hsp : forall c, np.shape (np.pick1 U c) = [nQ; 2%nat])
      by (intros c; unfold np.pick1; by rewrite HsU).
    split; [done |]. split; [done |].
    assert (Hit : forall c q j, (q < nQ)%nat -> (j < 2)%nat ->
              at2 (np.pick1 U c) q j = np.item U ((q * 2 + c) * 2 + j)).
    { intros c q j Hq Hj. unfold at2. rewrite Hsp. cbn [nth].
      unfold np.pick1. rewrite HsU. unfold np.item at 1. cbn [np.data].
      change (np.numel [2%nat]) with 2%nat.
      by rewrite (nth_tab nQ 2
                    (fun j0 b0 => np.item U ((j0 * 2 + c) * 2 + b0))) by lia. }
    assert (Hrow : forall r q j, (q < nQ)%nat -> (r < 2)%nat -> (j < 2)%nat ->
              at2 (np.pick0 U q) r j = np.item U (q * 4 + (r * 2 + j))).
    { intros r q j Hq Hr Hj. unfold at2.
      assert (np.shape (np.pick0 U q) = [2%nat; 2%nat]) as ->
        by (unfold np.pick0; by rewrite HsU).
      cbn [nth]. rewrite item_pick0 by (rewrite HsU; simpl; lia).
      by rewrite HsU. }
    intros q j Hq Hj. rewrite !Hit, !Hrow by lia. split; f_equal; lia.
Qed.

Lemma axes_1D_rows_witness :
  exists U,
    self_U demo1D = Some U /\
    (2%nat = 0%nat ->
     Maxis demo1D store_demo = (Raise IndexError, store_demo) /\
     maxis demo1D store_demo = (Raise IndexError, store_demo)) /\
    ((1 <= 2)%nat ->
     exists M m,
       Maxis demo1D store_demo = (Ok M, store_demo) /\
       maxis demo1D store_demo = (Ok m, store_demo) /\
       np.shape M = [2%nat; 2%nat] /\ np.shape m = [2%nat; 2%nat] /\
       forall q j, (q < 2)%nat -> (j < 2)%nat ->
         at2 M q j = at2 (np.pick0 U q) 0 j /\
         at2 m q j = at2 (np.pick0 U q) 1 j).
Proof.
  assert (Hs : sample gesdd_demo demo1D store_demo) by (vm_compute; reflexivity).
  apply (axes_1D_rows gesdd_demo demo1D store_demo 2 Hs); reflexivity.
Defined.

(** ** Copies and writes *)

Section Rebuild.
Variable gesdd : np.routine.

(** The reference given to a constructor only ends up in [self.y]. *)
Lemma build0D_y r r' a o :
  build0D gesdd r a = Ok o ->
  build0D gesdd r' a =
  Ok (Dataset (klass o) r' (self_J o) (self_Q o) (self_I o)
              (self_U o) (self_s o) (self_R o)).
Proof.
  unfold build0D, mbind, result_bind.
  destruct (np.shape_at a 0); [| done].
  destruct (np.shape_at a 1); [| done].
  destruct (np.cov (np.T a) 1); [| done].
  destruct (np.linalg_svd gesdd _); [| done].
  destruct (orient _) as [[[U s] R] |]; [| done].
  by intros [= <-].
Qed.

Lemma build1D_y r r' a o :
  build1D gesdd r a = Ok o ->
  build1D gesdd r' a =
  Ok (Dataset (klass o) r' (self_J o) (self_Q o) (self_I o)
              (self_U o) (self_s o) (self_R o)).
Proof.
  unfold build1D, mbind, result_bind.
  destruct (np.shape_at a 0); [| done].
  destruct (np.shape_at a 1); [| done].
  destruct (np.shape_at a 2); [| done].
  destruct (rmap (node_cov a 1) _); [| done].
  destruct (np.iter _); [| done].
  destruct (rmap (node_svd gesdd) _); [| done].
  by intros [= <-].
Qed.

(** A bivariate dataset of the store is what its constructor computes
    from the contents of its array. *)
Lemma sample_build o σ :
  sample gesdd o σ -> is_bivariate (klass o) = true ->
  exists a, load σ (self_y o) = Ok a /\
    match klass o with
    | BivariateDataset1D => build1D gesdd (self_y o) a = Ok o
    | _ => build0D gesdd (self_y o) a = Ok o
    end.
Proof.
  unfold sample. destruct (klass o) eqn:Hk; try done; intros Hs _.
  - rewrite init0D_build in Hs.
    destruct (load σ (self_y o)) as [a |]; [| done].
    exists a. split; [done |]. simpl in Hs. congruence.
  - rewrite init1D_build in Hs.
    destruct (load σ (self_y o)) as [a |]; [| done].
    exists a. split; [done |]. simpl in Hs. congruence.
Qed.

(** The constructor of a bivariate class on a reference whose contents
    are known. *)
Lemma new_build c r σ a :
  is_bivariate c = true -> load σ r = Ok a ->
  new gesdd c (PyArray r) σ =
  (match c with
   | BivariateDataset1D => build1D gesdd r a
   | _ => build0D gesdd r a
   end, σ).
Proof.
  intros Hc Hl. destruct c; try done; unfold new.
  - rewrite init0D_build. by rewrite Hl.
  - rewrite init1D_build. by rewrite Hl.
Qed.
End Rebuild.

(** X10.  Round trip through [toarray].  For a bivariate dataset of the
    store, [toarray] adds one array holding the contents of [self.y];
    constructing a dataset of the same class from that array succeeds,
    adds nothing further, and returns the dataset that differs from the
    original in [self.y] only: [J], [Q], [I], [_U], [_s] and [_R] are the
    same.  Both are datasets of the resulting store. *)
Theorem toarray_round_trip gesdd o σ :
  sample gesdd o σ -> is_bivariate (klass o) = true ->
  exists l a o',
    load σ (self_y o) = Ok a /\
    toarray o σ = (Ok (Whole l), <[l := a]> σ) /\
    new gesdd (klass o) (PyArray (Whole l)) (<[l := a]> σ) =
      (Ok o', <[l := a]> σ) /\
    o' = Dataset (klass o) (Whole l) (self_J o) (self_Q o) (self_I o)
                 (self_U o) (self_s o) (self_R o) /\
    sample gesdd o' (<[l := a]> σ) /\ sample gesdd o (<[l := a]> σ).
Proof.
  intros Hs Hb.
  destruct (sample_build gesdd o σ Hs Hb) as (a & Hl & Hbuild).
  set (l := fresh (dom σ)).
  pose proof (fresh_not_owner _ _ _ Hl) as Hne. fold l in Hne.
  assert (Hl' : load (<[l := a]> σ) (Whole l) = Ok a)
    by (simpl; by rewrite lookup_insert_eq).
  assert (Hlo : load (<[l := a]> σ) (self_y o) = Ok a)
    by (by rewrite load_insert_other).
  exists l, a. eexists. split; [done |]. split.
  { unfold toarray, read, alloc, mbind, M_bind. rewrite Hb, Hl.
    by rewrite copy_eq. }
  assert (Hnew : new gesdd (klass o) (PyArray (Whole l)) (<[l := a]> σ) =
                 (Ok (Dataset (klass o) (Whole l) (self_J o) (self_Q o)
                        (self_I o) (self_U o) (self_s o) (self_R o)),
                  <[l := a]> σ)).
  { rewrite (new_build gesdd _ _ _ a Hb Hl').
    destruct (klass o) eqn:Hk; try done.
    - by rewrite (build0D_y gesdd _ (Whole l) _ _ Hbuild), Hk.
    - by rewrite (build1D_y gesdd _ (Whole l) _ _ Hbuild), Hk. }
  split; [exact Hnew |]. split; [done |]. split.
  - by apply (new_sample gesdd _ _ _ _ _ Hnew).
  - apply (sample_new gesdd (klass o)); [done |].
    rewrite (new_build gesdd _ _ _ a Hb Hlo).
    destruct (klass o); try done; by rewrite Hbuild.
Qed.

Lemma toarray_round_trip_witness :
  exists l a o',
    load store_demo (self_y demo1D) = Ok a /\
    toarray demo1D store_demo = (Ok (Whole l), <[l := a]> store_demo) /\
    new gesdd_demo (klass demo1D) (PyArray (Whole l)) (<[l := a]> store_demo) =
      (Ok o', <[l := a]> store_demo) /\
    o' = Dataset (klass demo1D) (Whole l) (self_J demo1D) (self_Q demo1D)
                 (self_I demo1D) (self_U demo1D) (self_s demo1D)
                 (self_R demo1D) /\
    sample gesdd_demo o' (<[l := a]> store_demo) /\
    sample gesdd_demo demo1D (<[l := a]> store_demo).
Proof.
  assert (Hs : sample gesdd_demo demo1D store_demo) by (vm_compute; reflexivity).
  apply (toarray_round_trip gesdd_demo demo1D store_demo Hs). reflexivity.
Defined.

(** The attributes a constructor reads off the shape of the data. *)
Lemma sample_dims gesdd o σ :
  sample gesdd o σ ->
  exists a, load σ (self_y o) = Ok a /\
    np.shape_at a 0 = Ok (self_J o) /\
    match klass o with
    | UnivariateDataset0D => self_Q o = None /\ self_I o = None
    | UnivariateDataset1D =>
        np.shape_at a 1 = attr (self_Q o) /\ self_I o = None
    | BivariateDataset0D =>
        self_Q o = None /\ np.shape_at a 1 = attr (self_I o)
    | BivariateDataset1D =>
        np.shape_at a 1 = attr (self_Q o) /\ np.shape_at a 2 = attr (self_I o)
    end.
Proof.
  intros Hs. destruct (klass o) eqn:Hk.
  - unfold sample in Hs. rewrite Hk in Hs. revert Hs.
    unfold Dataset_init, asarray, read, lift, mbind, mret, M_bind, M_ret.
    destruct (load σ (self_y o)) as [a |]; [| done].
    destruct (np.shape_at a 0) as [J |] eqn:EJ; [| done].
    intros [= Ho]. exists a. rewrite <- Ho. done.
  - unfold sample in Hs. rewrite Hk in Hs. revert Hs.
    unfold UnivariateDataset1D_init, asarray, read, lift, mbind, mret,
      M_bind, M_ret.
    destruct (load σ (self_y o)) as [a |]; [| done].
    destruct (np.shape_at a 0) as [J |] eqn:EJ; [| done].
    destruct (np.shape_at a 1) as [nQ |] eqn:EQ; [| done].
    intros [= Ho]. exists a. rewrite <- Ho. done.
  - destruct (sample0D_inv _ _ _ Hk Hs)
      as (a & J & I & W & U & s & R & Hl & HJ & HI & _ & _ & Ho).
    exists a. rewrite Ho. done.
  - destruct (sample1D_inv _ _ _ Hk Hs)
      as (a & J & nQ & I & covs & usrs & Hl & HJ & HnQ & HI & _ & _ & Ho).
    exists a. rewrite Ho. done.
Qed.

(** The queries other than the axes read the class, the array, [J] and
    [Q] of the instance, and nothing of the stored decomposition. *)
Lemma ask_fields gesdd sqrt q o o' σ :
  klass o' = klass o -> self_y o' = self_y o -> self_J o' = self_J o ->
  self_Q o' = self_Q o -> q <> Q_Maxis -> q <> Q_maxis ->
  ask gesdd sqrt q o' σ = ask gesdd sqrt q o σ.
Proof.
  intros Hk Hy HJ HQ H1 H2.
  destruct q; try done; simpl;
    unfold mean, std, range, cov, get_cov, BivariateDataset_get_cov,
      BivariateDataset1D_get_cov, nobservations, samplesize, ncomponents,
      get_frame;
    by rewrite ?Hk, ?Hy, ?HJ, ?HQ.
Qed.

(** X11.  Writing to the array a dataset shares with its caller.  Let a
    dataset be built on an array of the store and let the caller then
    write one element of that array.  The dataset sees the new contents:
    [mean] is the mean of the written array, and on every query other
    than [Maxis] and [maxis] the dataset answers exactly as a dataset
    constructed afresh from the written array, which has the same [J],
    [Q] and [I].  [Maxis] and [maxis] keep answering with the axes
    computed at construction. *)
Theorem shared_array_write gesdd sqrt o σ l a k v o' :
  sample gesdd o σ -> self_y o = Whole l -> σ !! l = Some a ->
  (k < length (np.data a))%nat ->
  fst (new gesdd (klass o) (PyArray (Whole l))
         (<[l := NdArray (np.shape a) (<[k := v]> (np.data a))]> σ)) = Ok o' ->
  exists a' σ',
    a' = NdArray (np.shape a) (<[k := v]> (np.data a)) /\
    setitem l k v σ = (Ok tt, σ') /\
    load σ' (self_y o) = Ok a' /\
    mean o σ' = (np.mean a', σ') /\
    self_y o' = self_y o /\ self_J o' = self_J o /\ self_Q o' = self_Q o /\
    self_I o' = self_I o /\
    (forall q, q <> Q_Maxis -> q <> Q_maxis ->
       ask gesdd sqrt q o σ' = ask gesdd sqrt q o' σ') /\
    Maxis o σ' = (fst (Maxis o σ), σ') /\ maxis o σ' = (fst (maxis o σ), σ').
Proof.
  intros Hs Hy Hl Hk Hnew.
  set (a' := NdArray (np.shape a) (<[k := v]> (np.data a))) in *.
  set (σ' := <[l := a']> σ) in *.
  exists a', σ'. split; [done |].
  assert (Hset : setitem l k v σ = (Ok tt, σ')).
  { unfold setitem. rewrite Hl.
    by destruct (Nat.ltb_spec k (length (np.data a))); [| lia]. }
  split; [done |].
  assert (Hl' : load σ' (self_y o) = Ok a').
  { rewrite Hy. simpl. unfold σ'. by rewrite lookup_insert_eq. }
  split; [done |].
  split. { unfold mean, read, lift, mbind, M_bind. by rewrite Hl'. }
  destruct (new gesdd (klass o) (PyArray (Whole l)) σ') as [r σ''] eqn:En.
  simpl in Hnew. subst r.
  destruct (new_fields gesdd _ _ _ _ _ En) as [Hko Hyo].
  destruct (new_sample gesdd _ _ _ _ _ En) as [_ Hs'].
  pose proof (proj1 (stable_new gesdd (klass o) (Whole l) σ')) as Hst.
  rewrite En in Hst. simpl in Hst. subst σ''.
  destruct (sample_dims gesdd o σ Hs) as (a0 & Hl0 & HJ & Hd).
  rewrite Hy in Hl0. simpl in Hl0. rewrite Hl in Hl0. injection Hl0 as <-.
  destruct (sample_dims gesdd o' σ' Hs') as (a1 & Hl1 & HJ' & Hd').
  rewrite Hyo, <- Hy, Hl' in Hl1. injection Hl1 as <-.
  rewrite Hko in Hd'.
  assert (Hsh : forall i, np.shape_at a' i = np.shape_at a i) by done.
  rewrite Hsh in HJ'.
  change (np.shape_at a' 1) with (np.shape_at a 1) in Hd'.
  change (np.shape_at a' 2) with (np.shape_at a 2) in Hd'.
  assert (HJe : self_J o' = self_J o) by congruence.
  assert (HQI : self_Q o' = self_Q o /\ self_I o' = self_I o).
  { destruct (klass o).
    - destruct Hd as [-> ->], Hd' as [-> ->]. done.
    - destruct Hd as [HQ ->], Hd' as [HQ' ->]. split; [| done].
      rewrite HQ' in HQ.
      destruct (self_Q o'), (self_Q o); simpl in HQ; try done; try congruence;
        unfold np.shape_at in HQ'; destruct (nth_error _ _); done.
    - destruct Hd as [-> HI], Hd' as [-> HI']. split; [done |].
      rewrite HI' in HI.
      destruct (self_I o'), (self_I o); simpl in HI; try done; try congruence;
        unfold np.shape_at in HI'; destruct (nth_error _ _); done.
    - destruct Hd as [HQ HI], Hd' as [HQ' HI']. 
      rewrite HQ' in HQ. rewrite HI' in HI. split.
      + destruct (self_Q o'), (self_Q o); simpl in HQ; try done; try congruence;
          unfold np.shape_at in HQ'; destruct (nth_error _ _); done.
      + destruct (self_I o'), (self_I o); simpl in HI; try done; try congruence;
          unfold np.shape_at in HI'; destruct (nth_error _ _); done. }
  destruct HQI as [HQe HIe].
  split; [by rewrite Hyo, Hy |]. do 3 (split; [done |]).
  split.
  - intros q H1 H2. symmetry.
    apply ask_fields; try done. by rewrite Hyo, Hy.
  - unfold Maxis, maxis, axis.
    destruct (is_bivariate (klass o)); [| done].
    by destruct (self_U o).
Qed.

Lemma shared_array_write_witness :
  exists o' a' σ',
    fst (new gesdd_demo (klass demo0D) (PyArray (Whole 1%positive))
           (<[1%positive := NdArray (np.shape y_demo)
                              (<[0%nat := 7]> (np.data y_demo))]> store_demo))
      = Ok o' /\
    a' = NdArray (np.shape y_demo) (<[0%nat := 7]> (np.data y_demo)) /\
    setitem 1%positive 0 7 store_demo = (Ok tt, σ') /\
    load σ' (self_y demo0D) = Ok a' /\
    mean demo0D σ' = (np.mean a', σ') /\
    self_y o' = self_y demo0D /\ self_J o' = self_J demo0D /\
    self_Q o' = self_Q demo0D /\ self_I o' = self_I demo0D /\
    (forall q, q <> Q_Maxis -> q <> Q_maxis ->
       ask gesdd_demo (fun x => x) q demo0D σ' =
       ask gesdd_demo (fun x => x) q o' σ') /\
    Maxis demo0D σ' = (fst (Maxis demo0D store_demo), σ') /\
    maxis demo0D σ' = (fst (maxis demo0D store_demo), σ').
Proof.
  assert (Hs : sample gesdd_demo demo0D store_demo) by (vm_compute; reflexivity).
  eexists.
  assert (Hn : fst (new gesdd_demo (klass demo0D) (PyArray (Whole 1%positive))
           (<[1%positive := NdArray (np.shape y_demo)
                              (<[0%nat := 7]> (np.data y_demo))]> store_demo))
      = Ok (Dataset BivariateDataset0D (Whole 1%positive) 4 None (Some 2%nat)
          (Some (NdArray [2%nat; 2%nat] [0; -1; 1; 0]))
          (Some (NdArray [2%nat] [4; 1]))
          (Some (NdArray [2%nat; 2%nat] [0; 1; -1; 0]))))
    by (vm_compute; reflexivity).
  destruct (shared_array_write gesdd_demo (fun x => x) demo0D store_demo
              1%positive y_demo 0 7 _ Hs eq_refl eq_refl ltac:(simpl; lia) Hn)
    as (a' & σ' & H).
  exists a', σ'. split; [exact Hn | exact H].
Defined.

(** ** Covariances *)



